(** * Mutatis benchmark harness: a shallow embedding and its properties

    The development follows three scripts of the repository:
    [run_compliance.py] (schema validation and the float32 precision audit),
    [run_memory.py] (footprint of nested lists against a packed buffer) and
    [run_throughput.py] (the two measured paths around one dot-product
    kernel).  Console markup and number formatting are left out: a run is
    modelled by the data it prints.

    Python floats are IEEE-754 binary64 numbers.  Every finite binary64 (and
    every finite binary32) number is an integer multiple of [2^-1074], so a
    finite float is represented exactly by that integer; all roundings are
    computed on integers, to nearest with ties to even. *)

From Stdlib Require Import ZArith String List Bool Lia Floats.SpecFloat.
From coqutil Require Import Byte Word.LittleEndianList.
Import ListNotations.

#[global] Set Warnings "-register-all".

Local Open Scope string_scope.
Local Open Scope list_scope.
Local Open Scope Z_scope.

(** ** IEEE-754 arithmetic on finite values *)

Module Float.

(** Finite values count units of [2^-1074]; zeros are not signed (no
    operation of the scripts observes the sign of a zero). *)
Inductive float : Type :=
| Fin (k : Z)
| Inf (negative : bool)
| NaN.

(** [ulp_exp]: the unit is [2^-ulp_exp]. *)
Definition ulp_exp : Z := 1074.

(** A binary format: [prec] significant bits, the smallest positive
    number is [2^qmin] units and rounded magnitudes from [2^top] units on
    overflow. *)
Record format : Type := { prec : Z; qmin : Z; top : Z }.

Definition binary64 : format := {| prec := 53; qmin := 0; top := 2098 |}.
Definition binary32 : format := {| prec := 24; qmin := 925; top := 1202 |}.

(** Number of bits of a non-negative integer. *)
Definition bitlen (n : Z) : Z := if n =? 0 then 0 else Z.log2 n + 1.

(** [rne_div n d]: the integer nearest to [n / d], ties to even
    ([0 <= n], [0 < d]). *)
Definition rne_div (n d : Z) : Z :=
  let q := n / d in
  match 2 * (n mod d) ?= d with
  | Lt => q
  | Gt => q + 1
  | Eq => if Z.even q then q else q + 1
  end.

(** The quantum (as a power of two of units) at which [n / d] units is
    rounded in format [fmt]. *)
Definition quantum (fmt : format) (n d : Z) : Z :=
  Z.max (bitlen (n / d) - prec fmt) (qmin fmt).

(** Magnitude [n / d] units rounded to [fmt], exponent unbounded above. *)
Definition round_mag (fmt : format) (n d : Z) : Z :=
  let sh := quantum fmt n d in
  rne_div n (d * 2 ^ sh) * 2 ^ sh.

(** The rational [n / d] units ([0 < d]) rounded to [fmt]. *)
Definition round (fmt : format) (n d : Z) : float :=
  let r := round_mag fmt (Z.abs n) d in
  if 2 ^ top fmt <=? r then Inf (n <? 0) else Fin (Z.sgn n * r).

(** [k] units is a number of format [fmt]. *)
Definition representable (fmt : format) (k : Z) : Prop :=
  Z.abs k < 2 ^ top fmt /\
  Z.abs k mod 2 ^ Z.max (bitlen (Z.abs k) - prec fmt) (qmin fmt) = 0.

(** Python's [float(n)] for an integer, when it does not overflow. *)
Definition of_int (n : Z) : float := round binary64 (n * 2 ^ ulp_exp) 1.

(** A decimal literal [p * 10^-s] of the source text, read as Python reads
    it: the nearest binary64 number. *)
Definition literal (p s : Z) : float :=
  round binary64 (p * 2 ^ ulp_exp) (10 ^ s).

Definition zero : float := Fin 0.
Definition one : float := Fin (2 ^ ulp_exp).

Definition neg (x : float) : float :=
  match x with
  | Fin k => Fin (- k)
  | Inf s => Inf (negb s)
  | NaN => NaN
  end.

Definition abs (x : float) : float :=
  match x with
  | Fin k => Fin (Z.abs k)
  | Inf _ => Inf false
  | NaN => NaN
  end.

Definition add (x y : float) : float :=
  match x, y with
  | NaN, _ | _, NaN => NaN
  | Inf s, Inf t => if Bool.eqb s t then Inf s else NaN
  | Inf s, Fin _ => Inf s
  | Fin _, Inf t => Inf t
  | Fin a, Fin b => round binary64 (a + b) 1
  end.

Definition sub (x y : float) : float := add x (neg y).

Definition mul (x y : float) : float :=
  match x, y with
  | NaN, _ | _, NaN => NaN
  | Inf s, Inf t => Inf (xorb s t)
  | Inf s, Fin b => if b =? 0 then NaN else Inf (xorb s (b <? 0))
  | Fin a, Inf t => if a =? 0 then NaN else Inf (xorb (a <? 0) t)
  | Fin a, Fin b => round binary64 (a * b) (2 ^ ulp_exp)
  end.

(** IEEE division; Python raises [ZeroDivisionError] before calling it
    with a zero divisor, see [PyOps.float_truediv]. *)
Definition div (x y : float) : float :=
  match x, y with
  | NaN, _ | _, NaN => NaN
  | Inf _, Inf _ => NaN
  | Inf s, Fin b => Inf (xorb s (b <? 0))
  | Fin _, Inf _ => Fin 0
  | Fin a, Fin b =>
      if b =? 0 then (if a =? 0 then NaN else Inf (a <? 0))
      else round binary64 (a * Z.sgn b * 2 ^ ulp_exp) (Z.abs b)
  end.

Definition ltb (x y : float) : bool :=
  match x, y with
  | NaN, _ | _, NaN => false
  | Fin a, Fin b => a <? b
  | Fin _, Inf t => negb t
  | Inf s, Fin _ => s
  | Inf s, Inf t => s && negb t
  end.

Definition leb (x y : float) : bool :=
  match x, y with
  | NaN, _ | _, NaN => false
  | Fin a, Fin b => a <=? b
  | Fin _, Inf t => negb t
  | Inf s, Fin _ => s
  | Inf s, Inf t => s || negb t
  end.

(** Narrowing to single precision, as a C cast [(float)x] does. *)
Definition to_single (x : float) : float :=
  match x with
  | Fin k => round binary32 k 1
  | other => other
  end.

(** Arithmetic of single-precision operands ([numpy.float32]). *)
Definition add32 (x y : float) : float :=
  match x, y with
  | Fin a, Fin b => round binary32 (a + b) 1
  | _, _ => add x y
  end.
Definition mul32 (x y : float) : float :=
  match x, y with
  | Fin a, Fin b => round binary32 (a * b) (2 ^ ulp_exp)
  | _, _ => mul x y
  end.

(** *** The binary32 interchange encoding *)

(** The 32-bit pattern of a binary32 number: sign, 8 exponent bits, 23
    fraction bits.  [m] counts units of [2^-149]. *)
Definition bits_of_single (x : float) : Z :=
  match x with
  | Fin k =>
      let m := Z.abs k / 2 ^ qmin binary32 in
      let s := if k <? 0 then 2 ^ 31 else 0 in
      if m <? 2 ^ 23 then s + m
      else
        let sh := bitlen m - 24 in
        s + (sh + 1) * 2 ^ 23 + (m / 2 ^ sh - 2 ^ 23)
  | Inf neg => (if neg then 2 ^ 31 else 0) + 255 * 2 ^ 23
  | NaN => 255 * 2 ^ 23 + 2 ^ 22
  end.

Definition single_of_bits (w : Z) : float :=
  let s := Z.testbit w 31 in
  let e := (w / 2 ^ 23) mod 2 ^ 8 in
  let f := w mod 2 ^ 23 in
  if e =? 255 then (if f =? 0 then Inf s else NaN)
  else
    let m := if e =? 0 then f else (f + 2 ^ 23) * 2 ^ (e - 1) in
    Fin ((if s then -1 else 1) * (m * 2 ^ qmin binary32)).

(** *** Correspondence with the standard library's IEEE specification *)

Definition to_spec (fmt_prec fmt_emax : Z) (x : float) : spec_float :=
  match x with
  | Fin k => binary_normalize fmt_prec fmt_emax k (- ulp_exp) false
  | Inf s => S754_infinity s
  | NaN => S754_nan
  end.

Definition spec_eqb (a b : spec_float) : bool :=
  match a, b with
  | S754_zero _, S754_zero _ => true
  | S754_infinity s, S754_infinity t => Bool.eqb s t
  | S754_nan, S754_nan => true
  | S754_finite s m e, S754_finite t n f =>
      Bool.eqb s t && Pos.eqb m n && Z.eqb e f
  | _, _ => false
  end.

End Float.

(** ** Python values, exceptions and the [struct] codec *)

Module Py.
Import Float.

(** The values a JSON-like request is built from.  A [dict] keeps its
    insertion order; keys are unique. *)
Inductive pyval : Type :=
| PNone
| PBool (b : bool)
| PInt (n : Z)
| PFloat (x : float)
| PStr (s : string)
| PList (items : list pyval)
| PDict (entries : list (string * pyval)).

Fixpoint lookup {A : Type} (key : string) (entries : list (string * A))
  : option A :=
  match entries with
  | [] => None
  | (k, v) :: rest => if String.eqb key k then Some v else lookup key rest
  end.

(** [key in d] *)
Definition contains {A : Type} (key : string) (entries : list (string * A))
  : bool :=
  match lookup key entries with Some _ => true | None => false end.

End Py.

(** ** The [jsonschema] validator, for the keywords of [VECTOR_SCHEMA] *)

Module JsonSchema.
Import Float Py.

Inductive jtype : Type :=
| Tnull | Tboolean | Tobject | Tarray | Tnumber | Tinteger | Tstring.

(** A schema is the ordered list of its keywords, as the Python [dict]
    lists them; sub-schemas nest. *)
Inductive keyword : Type :=
| Ktype (t : jtype)
| Kproperties (props : list (string * list keyword))
| Kitems (sub : list keyword)
| KminItems (n : N)
| KmaxItems (n : N)
| Krequired (names : list string).

Definition schema : Type := list keyword.

Inductive path_elem : Type :=
| Key (name : string)
| Index (i : nat).

(** The message of a [ValidationError], without the [repr] of the
    instance that the library prefixes to it. *)
Inductive reason : Type :=
| NotOfType (t : jtype)         (* "... is not of type 'array'" *)
| RequiredProperty (name : string) (* "'id' is a required property" *)
| ShouldBeNonEmpty              (* "... should be non-empty" *)
| TooShort                      (* "... is too short" *)
| ExpectedEmpty                 (* "... is expected to be empty" *)
| TooLong.                      (* "... is too long" *)

(** [validator] is the keyword that failed together with its value,
    [path] leads from the root of the instance to [instance]. *)
Record validation_error : Type := {
  message : reason;
  validator : keyword;
  path : list path_elem;
  instance : pyval
}.

(** [float.is_integer] *)
Definition is_integer (x : float) : bool :=
  match x with
  | Fin k => k mod 2 ^ ulp_exp =? 0
  | _ => false
  end.

(** The type checker of the draft 2020-12 validator on Python values:
    [bool] is neither a number nor an integer. *)
Definition is_type (v : pyval) (t : jtype) : bool :=
  match t, v with
  | Tnull, PNone => true
  | Tboolean, PBool _ => true
  | Tobject, PDict _ => true
  | Tarray, PList _ => true
  | Tnumber, (PInt _ | PFloat _) => true
  | Tinteger, PInt _ => true
  | Tinteger, PFloat x => is_integer x
  | Tstring, PStr _ => true
  | _, _ => false
  end.

Definition is_number (v : pyval) : bool := is_type v Tnumber.

(** Errors of the items of an array against one sub-schema check, in
    index order. *)
Fixpoint each_item (check : pyval -> list path_elem -> list validation_error)
    (here : list path_elem) (i : nat) (items : list pyval)
  : list validation_error :=
  match items with
  | [] => []
  | x :: rest =>
      check x (here ++ [Index i]) ++ each_item check here (S i) rest
  end.

(** [iter_errors] for one keyword: the errors are yielded lazily by the
    library, here they are listed in the order they are yielded. *)
Fixpoint keyword_errors (k : keyword) (v : pyval) (here : list path_elem)
    {struct k} : list validation_error :=
  match k with
  | Ktype t =>
      if is_type v t then []
      else [{| message := NotOfType t; validator := k;
               path := here; instance := v |}]
  | Kproperties props =>
      match v with
      | PDict entries =>
          (fix each_property (ps : list (string * list keyword)) :=
             match ps with
             | [] => []
             | (name, sub) :: rest =>
                 match lookup name entries with
                 | Some child =>
                     (fix descend (s : list keyword) :=
                        match s with
                        | [] => []
                        | k' :: s' =>
                            keyword_errors k' child (here ++ [Key name])
                            ++ descend s'
                        end) sub
                 | None => []
                 end ++ each_property rest
             end) props
      | _ => []
      end
  | Kitems sub =>
      match v with
      | PList items =>
          each_item
            (fun x p =>
               (fix descend (s : list keyword) :=
                  match s with
                  | [] => []
                  | k' :: s' => keyword_errors k' x p ++ descend s'
                  end) sub)
            here 0%nat items
      | _ => []
      end
  | KminItems n =>
      match v with
      | PList items =>
          if (N.of_nat (length items) <? n)%N then
            [{| message := if (n =? 1)%N then ShouldBeNonEmpty else TooShort;
                validator := k; path := here; instance := v |}]
          else []
      | _ => []
      end
  | KmaxItems n =>
      match v with
      | PList items =>
          if (n <? N.of_nat (length items))%N then
            [{| message := if (n =? 0)%N then ExpectedEmpty else TooLong;
                validator := k; path := here; instance := v |}]
          else []
      | _ => []
      end
  | Krequired names =>
      match v with
      | PDict entries =>
          flat_map
            (fun name =>
               if contains name entries then []
               else [{| message := RequiredProperty name; validator := k;
                        path := here; instance := v |}])
            names
      | _ => []
      end
  end.

(** [Validator.iter_errors]: every keyword of the schema in turn. *)
Definition iter_errors_at (s : schema) (v : pyval) (here : list path_elem)
  : list validation_error :=
  flat_map (fun k => keyword_errors k v here) s.

Definition iter_errors (s : schema) (v : pyval) : list validation_error :=
  iter_errors_at s v [].

Section BestMatch.

(** [more_relevant e best]: the relevance key of [e] is greater than the
    key of [best].  The library orders errors first by the depth of their
    path; the further components of its key differ between releases, so
    the order is a parameter. *)
Variable more_relevant : validation_error -> validation_error -> bool.

(** [max(errors, key=relevance)]: the first error of greatest key. *)
Fixpoint best_of (best : validation_error) (rest : list validation_error)
  : validation_error :=
  match rest with
  | [] => best
  | e :: es =>
      if more_relevant e best then best_of e es else best_of best es
  end.

(** [best_match(errors)]; none of the keywords above gives an error a
    [context] to descend into. *)
Definition best_match (errors : list validation_error)
  : option validation_error :=
  match errors with
  | [] => None
  | e :: es => Some (best_of e es)
  end.

End BestMatch.

(** The leading component of the key, [-len(error.path)]: errors higher
    up in the instance come first. *)
Definition higher_up (e best : validation_error) : bool :=
  (length (path e) <? length (path best))%nat.

End JsonSchema.

(** ** Exceptions and results *)

Module Exn.

Inductive exn : Type :=
| ValidationError (e : JsonSchema.validation_error)
| OverflowError (msg : string)
| ZeroDivisionError (msg : string)
| StructError (msg : string)
| IndexError (msg : string)
| ValueError_inhomogeneous
    (* "setting an array element with a sequence. The requested array
        has an inhomogeneous shape" *)
| ValueError_negative_dimensions
    (* "negative dimensions are not allowed" *)
| ValueError_not_aligned (a b : list Z).
    (* "shapes (n,d) and (e,) not aligned: d (dim 1) != e (dim 0)" *)

Inductive result (A : Type) : Type :=
| Ok (a : A)
| Raise (e : exn).
Arguments Ok {A} a.
Arguments Raise {A} e.

Definition bind {A B : Type} (r : result A) (f : A -> result B) : result B :=
  match r with
  | Ok a => f a
  | Raise e => Raise e
  end.

End Exn.

Notation "'let*' x ':=' r 'in' k" := (Exn.bind r (fun x => k))
  (at level 10, x name, r at level 100, k at level 200, only parsing).

(** ** [struct.pack('<f', x)], [struct.unpack('<f', data)] and division *)

Module PyOps.
Import Float Py Exn.

(** [struct.pack('<f', x)]: the C cast to [float]; a finite [x] that
    rounds to infinity is refused. *)
Definition pack_f (x : float) : result (list byte) :=
  let y := to_single x in
  match x, y with
  | Fin _, Inf _ => Raise (OverflowError "float too large to pack with f format")
  | _, _ => Ok (le_split 4 (bits_of_single y))
  end.

(** [struct.unpack('<f', data)[0]] *)
Definition unpack_f (data : list byte) : result float :=
  if (length data =? 4)%nat then Ok (single_of_bits (le_combine data))
  else Raise (StructError "unpack requires a buffer of 4 bytes").

(** [n / m] on integers: the correctly rounded quotient. *)
Definition int_truediv (n m : Z) : result float :=
  if m =? 0 then Raise (ZeroDivisionError "division by zero")
  else
    match round binary64 (n * Z.sgn m * 2 ^ ulp_exp) (Z.abs m) with
    | Fin k => Ok (Fin k)
    | _ => Raise (OverflowError "integer division result too large for a float")
    end.

(** [x / y] on floats. *)
Definition float_truediv (x y : float) : result float :=
  match y with
  | Fin 0 => Raise (ZeroDivisionError "float division by zero")
  | _ => Ok (div x y)
  end.

(** [float(n)] *)
Definition float_of_int (n : Z) : result float :=
  match of_int n with
  | Fin k => Ok (Fin k)
  | _ => Raise (OverflowError "int too large to convert to float")
  end.

(** [n / y] with an integer numerator. *)
Definition int_float_truediv (n : Z) (y : float) : result float :=
  let* x := float_of_int n in float_truediv x y.

End PyOps.

(** ** The parts of [numpy] the scripts use, at [dtype=np.float32] *)

Module Numpy.
Import Float Exn.

(** A float32 array of rank 0, 1 or 2.  The rows of an [Array2 d rows]
    have [d] entries each. *)
Inductive ndarray : Type :=
| Array0 (x : float)
| Array1 (xs : list float)
| Array2 (d : nat) (rows : list (list float)).

Definition shape (a : ndarray) : list Z :=
  match a with
  | Array0 _ => []
  | Array1 xs => [Z.of_nat (length xs)]
  | Array2 d rows => [Z.of_nat (length rows); Z.of_nat d]
  end.

(** The elements in row-major order. *)
Definition ravel (a : ndarray) : list float :=
  match a with
  | Array0 x => [x]
  | Array1 xs => xs
  | Array2 _ rows => concat rows
  end.

(** The width of a row: the length of the last axis. *)
Definition dimension (a : ndarray) : Z :=
  match a with
  | Array0 _ => 0
  | Array1 xs => Z.of_nat (length xs)
  | Array2 d _ => Z.of_nat d
  end.

Definition itemsize : Z := 4.

(** [a.size]: the product of the shape. *)
Definition size (a : ndarray) : Z := fold_right Z.mul 1 (shape a).

(** [a.nbytes] *)
Definition nbytes (a : ndarray) : Z := size a * itemsize.

(** [np.array(raw, dtype=np.float32)] on a list of lists of floats: every
    scalar is visited and narrowed; rows of different lengths are
    refused. *)
Definition np_array (raw : list (list float)) : result ndarray :=
  match raw with
  | [] => Ok (Array1 [])
  | first :: rest =>
      if forallb (fun row => (length row =? length first)%nat) rest
      then Ok (Array2 (length first) (map (map to_single) raw))
      else Raise ValueError_inhomogeneous
  end.

(** [np.zeros((n, d), dtype=np.float32)] *)
Definition np_zeros (n d : Z) : result ndarray :=
  if (n <? 0) || (d <? 0) then Raise ValueError_negative_dimensions
  else Ok (Array2 (Z.to_nat d) (repeat (repeat zero (Z.to_nat d)) (Z.to_nat n))).

(** [np.random.random(n).astype(np.float32)]: [draw i] is the [i]-th
    sample of the generator. *)
Definition random_float32 (draw : nat -> float) (n : Z) : list float :=
  map (fun i => to_single (draw i)) (seq 0 (Z.to_nat n)).

Section Dot.

(** The single-precision inner product of the BLAS the host links;
    the order of its additions is its own. *)
Variable sdot : list float -> list float -> float.

(** [np.dot(a, q)] for a 1-D [q]. *)
Definition np_dot (a : ndarray) (q : list float) : result ndarray :=
  match a with
  | Array0 x => Ok (Array1 (map (mul32 x) q))
  | Array1 xs =>
      if (length xs =? length q)%nat then Ok (Array0 (sdot xs q))
      else Raise (ValueError_not_aligned (shape a) (shape (Array1 q)))
  | Array2 d rows =>
      if (d =? length q)%nat
      then Ok (Array1 (map (fun row => sdot row q) rows))
      else Raise (ValueError_not_aligned (shape a) (shape (Array1 q)))
  end.

End Dot.

(** A reference kernel: products and sums in single precision, left to
    right. *)
Fixpoint sdot_sequential_from (acc : float) (xs ys : list float) : float :=
  match xs, ys with
  | x :: xs', y :: ys' => sdot_sequential_from (add32 acc (mul32 x y)) xs' ys'
  | _, _ => acc
  end.

Definition sdot_sequential : list float -> list float -> float :=
  sdot_sequential_from zero.

End Numpy.

(** ** [run_compliance.py] *)

Module Compliance.
Import Float Py JsonSchema Exn PyOps.

Definition VECTOR_SCHEMA : schema :=
  [ Ktype Tobject;
    Kproperties
      [ ("id", [Ktype Tstring]);
        ("vector",
          [Ktype Tarray; Kitems [Ktype Tnumber];
           KminItems 1536; KmaxItems 1536]);
        ("payload", [Ktype Tobject]) ];
    Krequired ["id"; "vector"] ].

(** The sub-schema of the ["vector"] property. *)
Definition vector_schema : schema :=
  [Ktype Tarray; Kitems [Ktype Tnumber]; KminItems 1536; KmaxItems 1536].

(** [jsonschema.validate(instance, schema)]: raises the best match of the
    errors, returns [None] when there is none.  ([VECTOR_SCHEMA] is a
    valid schema, so the [check_schema] that comes first raises nothing.) *)
Definition validate (more_relevant : validation_error -> validation_error -> bool)
    (instance : pyval) (s : schema) : result unit :=
  match best_match more_relevant (iter_errors s instance) with
  | Some e => Raise (ValidationError e)
  | None => Ok tt
  end.

(** [generate_vector()]: [uniform i] is the value of the [i]-th call of
    [random.uniform(-1.0, 1.0)]. *)
Definition generate_vector (uniform : nat -> float) : list pyval :=
  map (fun i => PFloat (uniform i)) (seq 0 1536).

Definition mock_request (uniform : nat -> float) : pyval :=
  PDict [ ("id", PStr "vec_8a7b9c");
          ("vector", PList (generate_vector uniform));
          ("payload", PDict [("source", PStr "whitepaper_test")]) ].

(** [original_val = 0.123456789123456789] *)
Definition original_val : float := literal 123456789123456789 18.

(** The threshold [1e-7] of the comparison. *)
Definition precision_threshold : float := literal 1 7.

Inductive status : Type := PASS | FAIL.

(** What the script sends to the console, without the markup. *)
Inductive printed : Type :=
| Title (text : string)
| Heading (text : string)
| SchemaFailure (e : exn)
| CheckTable (rows : list (string * status))
| Note (text : string)
| PrecisionTable (rows : list (string * float * option status))
| FinalStamp (text : string).

(** A run: what was printed, and the exception that ended it if one
    escaped. *)
Definition run : Type := list printed * option exn.

(** The precision audit of one value: the stored value and the delta. *)
Definition audit (value : float) : result (float * float) :=
  let* binary_data := pack_f value in
  let* restored_val := unpack_f binary_data in
  Ok (restored_val, abs (sub value restored_val)).

Definition precision_status (delta : float) : status :=
  if ltb delta precision_threshold then PASS else FAIL.

Definition title_and_heading : list printed :=
  [ Title "MUTATIS DATA INTEGRITY CERTIFICATION";
    Heading "TEST 1: INTERFACE COMPLIANCE" ].

(** The rows added to the table when validation raises nothing. *)
Definition schema_rows : list (string * status) :=
  [ ("JSON Structure", PASS);
    ("Dimension Count (1536)", PASS);
    ("Type Safety (Float)", PASS) ].

Section Run.

(** The relevance order of the installed [jsonschema]. *)
Variable more_relevant : validation_error -> validation_error -> bool.

(** The body of [run_compliance] for a given request and audited
    value. *)
Definition run_compliance_on (request : pyval) (value : float) : run :=
  let out1 := title_and_heading in
  match validate more_relevant request VECTOR_SCHEMA with
  | Raise e => (out1 ++ [SchemaFailure e], None)
  | Ok _ =>
      let table := schema_rows in
      let out2 :=
        out1 ++ [ CheckTable table;
                  Heading "TEST 2: ZERO-COPY PRECISION LOSS ANALYSIS";
                  Note "Verifying IEEE 754 Float32 adherence across data boundary..." ] in
      match audit value with
      | Raise e => (out2, Some e)
      | Ok (restored_val, delta) =>
          let prec_table :=
            [ ("Input Value (Py)", value, None);
              ("Stored Value (WASM)", restored_val, None);
              ("Precision Delta", delta, Some (precision_status delta)) ] in
          (out2 ++ [ PrecisionTable prec_table;
                     FinalStamp "COMPLIANCE VERIFIED" ], None)
      end
  end.

Definition run_compliance (uniform : nat -> float) : run :=
  run_compliance_on (mock_request uniform) original_val.

End Run.

(** The checks of the suite that reported a status in a run. *)
Definition reported (r : run) : list (string * status) :=
  flat_map
    (fun p =>
       match p with
       | CheckTable rows => rows
       | PrecisionTable rows =>
           flat_map
             (fun row =>
                match row with
                | (name, _, Some st) => [(name, st)]
                | _ => []
                end) rows
       | _ => []
       end) (fst r).



(** The records of the schema scenarios. *)
Definition record_1536 : pyval :=
  PDict [ ("id", PStr "x");
          ("vector", PList (repeat (PFloat zero) 1536));
          ("payload", PDict []) ].

Definition record_1535 : pyval :=
  PDict [ ("id", PStr "x");
          ("vector", PList (repeat (PFloat zero) 1535));
          ("payload", PDict []) ].

Definition too_short_1535 : validation_error :=
  {| message := TooShort;
     validator := KminItems 1536;
     path := [Key "vector"];
     instance := PList (repeat (PFloat zero) 1535) |}.

(** The stored value of the audit, [16570090 * 2^-27], and its delta as
    the script computes it. *)
Definition stored_val : float := Fin (16570090 * 2 ^ (ulp_exp - 27)).
Definition audit_delta : float := abs (sub original_val stored_val).

(** The round-trip law with the bound [1e-6]. *)
Definition roundtrip_law (x : float) : Prop :=
  exists restored delta,
    audit x = Ok (restored, delta) /\ ltb delta (literal 1 6) = true.

(** The largest finite binary32 number. *)
Definition max_single : Z := (2 ^ 24 - 1) * 2 ^ (104 + ulp_exp).

End Compliance.

(** ** [run_memory.py] *)

Module Memory.
Import Float Exn PyOps Numpy.

(** What the interpreter reports about the size of its objects.
    [list_sizeof n] is [l.__sizeof__()] for a list of [n] items built by
    a comprehension; [sys.getsizeof] adds the collector's header to it.
    [float_sizeof] is [sys.getsizeof] of a float object. *)
Record host : Type := {
  list_sizeof : nat -> N;
  gc_header : N;
  float_sizeof : N
}.

Definition sizeof {A : Type} (h : host) (l : list A) : Z :=
  Z.of_N (list_sizeof h (length l)).

Definition getsizeof {A : Type} (h : host) (l : list A) : Z :=
  Z.of_N (list_sizeof h (length l)) + Z.of_N (gc_header h).

(** [list_resize] of CPython (3.9 and later): the capacity given to a
    list that has to grow to [newsize] items,
    [(newsize + (newsize >> 3) + 6) & ~3]. *)
Definition new_allocated (newsize : N) : N :=
  N.ldiff (newsize + N.shiftr newsize 3 + 6) 3.

(** The capacity of a list built by [n] appends, as a comprehension
    builds it: an append keeps the capacity when the new size fits it
    (and is at least half of it) and asks [list_resize] for a larger one
    otherwise. *)
Fixpoint allocated (n : nat) : N :=
  match n with
  | O => 0%N
  | S n' =>
      let capacity := allocated n' in
      let newsize := N.of_nat n in
      if ((newsize <=? capacity) && (N.shiftr capacity 1 <=? newsize))%N
      then capacity
      else new_allocated newsize
  end.

(** CPython on a 64-bit host: a list takes 40 bytes and 8 bytes for each
    item of its capacity, the collector's header 16 bytes, a float 24
    bytes. *)
Definition cpython64 : host :=
  {| list_sizeof := fun n => (40 + 8 * allocated n)%N;
     gc_header := 16%N;
     float_sizeof := 24%N |}.

(** [[[random.random() for _ in range(DIMS)] for _ in range(VECTORS)]]:
    [random i] is the value of the [i]-th call. *)
Definition generate (random : nat -> float) (VECTORS DIMS : Z)
  : list (list float) :=
  map (fun i =>
         map (fun j => random (i * Z.to_nat DIMS + j)%nat)
             (seq 0 (Z.to_nat DIMS)))
      (seq 0 (Z.to_nat VECTORS)).

Definition sum (l : list Z) : Z := fold_left Z.add l 0.

(** [py_data] has [VECTORS] rows of [DIMS] scalars. *)
Definition well_shaped (VECTORS DIMS : Z) (py_data : list (list float))
  : Prop :=
  Z.of_nat (length py_data) = VECTORS /\
  Forall (fun row => Z.of_nat (length row) = DIMS) py_data.

(** A hypothetical host: [cpython64] with float objects of 32 bytes
    instead of 24, its lists unchanged. *)
Definition wide_float_host : host :=
  {| list_sizeof := list_sizeof cpython64;
     gc_header := gc_header cpython64;
     float_sizeof := 32%N |}.

(** An estimate that asks the host for the size of each scalar. *)
Definition inspected_size (h : host) (py_data : list (list float)) : Z :=
  sizeof h py_data + sum (map (getsizeof h) py_data)
  + Z.of_nat (length (concat py_data)) * Z.of_N (float_sizeof h).

Section Body.

Variable h : host.
Variables VECTORS DIMS : Z.

(** Line 32: [sys.getsizeof(py_data) + VECTORS * sys.getsizeof(py_data[0])
    + VECTORS * DIMS * 24]. *)
Definition py_size_bytes (py_data : list (list float)) : result Z :=
  match py_data with
  | [] => Raise (IndexError "list index out of range")
  | row0 :: _ =>
      Ok (getsizeof h py_data + VECTORS * getsizeof h row0
          + VECTORS * DIMS * 24)
  end.

(** Line 33, the figure that is reported: [py_data.__sizeof__() +
    sum(sys.getsizeof(i) for i in py_data) + VECTORS * DIMS * 24]. *)
Definition py_size (py_data : list (list float)) : Z :=
  sizeof h py_data + sum (map (getsizeof h) py_data) + VECTORS * DIMS * 24.

(** Lines 39-40: [np.zeros((VECTORS, DIMS), dtype=np.float32).nbytes]. *)
Definition mutatis_size_bytes : result Z :=
  let* mutatis_buffer := np_zeros VECTORS DIMS in
  Ok (nbytes mutatis_buffer).

Record report : Type := {
  py_size_mb : float;
  mutatis_size_mb : float;
  bloat : float;
  scaled_mutatis : float
}.

(** The body of [run_memory_test] for a given [py_data]. *)
Definition run_memory_test_on (py_data : list (list float))
  : result report :=
  let* _ := py_size_bytes py_data in
  let* py_mb := int_truediv (py_size py_data) (1024 * 1024) in
  let* mutatis_bytes := mutatis_size_bytes in
  let* mutatis_mb := int_truediv mutatis_bytes (1024 * 1024) in
  let* ratio := float_truediv py_mb mutatis_mb in
  let* part := float_truediv mutatis_mb py_mb in
  Ok {| py_size_mb := py_mb;
        mutatis_size_mb := mutatis_mb;
        bloat := ratio;
        scaled_mutatis := mul part (of_int 100) |}.

End Body.

Definition VECTORS : Z := 10000.
Definition DIMS : Z := 1536.

Definition run_memory_test (h : host) (random : nat -> float)
  : result report :=
  run_memory_test_on h VECTORS DIMS (generate random VECTORS DIMS).

End Memory.

(** ** [run_throughput.py] *)

Module Throughput.
Import Float Exn PyOps Numpy.

Definition VECTORS : Z := 5000.
Definition DIMS : Z := 1536.
Definition ITERATIONS : Z := 50.

(** A value bound to [_] in one of the timed loops. *)
Inductive event : Type :=
| Converted (a : ndarray)
| Scored (a : ndarray).


Record report : Type := {
  duration_std : float;
  qps_std : float;
  duration_mut : float;
  qps_mut : float;
  more_users : float
}.

Section Host.

Variable sdot : list float -> list float -> float.

(** [perf_counter i] is the [i]-th reading of [time.perf_counter()]. *)
Variable perf_counter : nat -> float.

(** [for _ in range(n): body], collecting what the body binds. *)
Fixpoint for_range (n : nat) (body : result (list event))
  : result (list event) :=
  match n with
  | O => Ok []
  | S n' =>
      let* bound := body in
      let* rest := for_range n' body in
      Ok (bound ++ rest)
  end.

(** One iteration of the standard path. *)
Definition standard_step (raw_data : list (list float))
    (fast_buffer : ndarray) (query : list float) : result (list event) :=
  let* converted := np_array raw_data in
  let* scores := np_dot sdot fast_buffer query in
  Ok [Converted converted; Scored scores].

(** One iteration of the optimized path. *)
Definition mutatis_step (fast_buffer : ndarray) (query : list float)
  : result (list event) :=
  let* scores := np_dot sdot fast_buffer query in
  Ok [Scored scores].

Definition standard_loop (iterations : Z) (raw_data : list (list float))
    (fast_buffer : ndarray) (query : list float) : result (list event) :=
  for_range (Z.to_nat iterations) (standard_step raw_data fast_buffer query).

Definition mutatis_loop (iterations : Z) (fast_buffer : ndarray)
    (query : list float) : result (list event) :=
  for_range (Z.to_nat iterations) (mutatis_step fast_buffer query).

(** The body of [run_throughput] for given [raw_data] and [query]. *)
Definition run_throughput_on (iterations : Z)
    (raw_data : list (list float)) (query : list float) : result report :=
  let* fast_buffer := np_array raw_data in
  let start := perf_counter 0 in
  let* _ := standard_loop iterations raw_data fast_buffer query in
  let d_std := sub (perf_counter 1) start in
  let* q_std := int_float_truediv iterations d_std in
  let start := perf_counter 2 in
  let* _ := mutatis_loop iterations fast_buffer query in
  let d_mut := sub (perf_counter 3) start in
  let* q_mut := int_float_truediv iterations d_mut in
  let* ratio := float_truediv q_mut q_std in
  Ok {| duration_std := d_std; qps_std := q_std;
        duration_mut := d_mut; qps_mut := q_mut;
        more_users := ratio |}.

Definition run_throughput (random np_random : nat -> float)
  : result report :=
  run_throughput_on ITERATIONS
    (Memory.generate random VECTORS DIMS)
    (random_float32 np_random DIMS).

End Host.

End Throughput.

(** ** Readings of [VECTOR_SCHEMA] used by the properties *)

Module SchemaReading.
Import Float Py JsonSchema Exn PyOps Compliance.

(** The records [VECTOR_SCHEMA] describes. *)
Definition conforming (v : pyval) : bool :=
  match v with
  | PDict entries =>
      match lookup "id" entries with
      | Some (PStr _) => true
      | _ => false
      end
      && match lookup "vector" entries with
         | Some (PList items) =>
             (length items =? 1536)%nat && forallb is_number items
         | _ => false
         end
      && match lookup "payload" entries with
         | None | Some (PDict _) => true
         | Some _ => false
         end
  | _ => false
  end.

(** The errors of a property of an object, when it is present. *)
Definition property_errors (entries : list (string * pyval)) (name : string)
    (sub : schema) : list validation_error :=
  match lookup name entries with
  | Some child => iter_errors_at sub child [Key name]
  | None => []
  end.

Definition required_errors (entries : list (string * pyval))
    (names : list string) : list validation_error :=
  keyword_errors (Krequired names) (PDict entries) [].

Definition vector_ok (v : pyval) : bool :=
  match v with
  | PList items => (length items =? 1536)%nat && forallb is_number items
  | _ => false
  end.

(** The error of a vector of the wrong length. *)
Definition length_error (items : list pyval) : validation_error :=
  if (length items <? 1536)%nat
  then {| message := TooShort; validator := KminItems 1536;
          path := [Key "vector"]; instance := PList items |}
  else {| message := TooLong; validator := KmaxItems 1536;
          path := [Key "vector"]; instance := PList items |}.

(** The error of an entry of the vector that is not a number. *)
Definition item_error (i : nat) (x : pyval) : validation_error :=
  {| message := NotOfType Tnumber; validator := Ktype Tnumber;
     path := [Key "vector"; Index i]; instance := x |}.

End SchemaReading.

(** ** [benchmarks/run_benchmark.py] *)

Module Benchmark.
Import Float Exn PyOps Numpy.

Definition VECTOR_COUNT : Z := 10000.
Definition DIMENSIONS : Z := 1536.

(** [generate_bloat()]: the comprehension of [run_memory.py], with the
    constants of this script. *)
Definition generate_bloat (random : nat -> float) : list (list float) :=
  Memory.generate random VECTOR_COUNT DIMENSIONS.

(** What the script can raise: an exception of the other scripts, the
    [ValueError] of [int(nan)], or [MemoryError]. *)
Inductive raised : Type :=
| Builtin (e : exn)
| ValueError (msg : string)
| MemoryError.

(** [int(x)] on a float: the integer part, toward zero. *)
Definition int_of_float (x : float) : Z + raised :=
  match x with
  | Fin k => inl (Z.quot k (2 ^ ulp_exp))
  | Inf _ =>
      inr (Builtin (OverflowError "cannot convert float infinity to integer"))
  | NaN => inr (ValueError "cannot convert float NaN to integer")
  end.

(** The memory of the host, for the strings of block characters:
    [longest_str] is the length of the longest one it can allocate.  The
    standard bar has 40 cells; as the other allocations of a fixed size,
    it is taken to fit. *)
Record memory : Type := {
  longest_str : Z;
  holds_standard_bar : (40 <=? longest_str) = true
}.

(** A host that can allocate strings of up to [2^30] cells. *)
Definition modest_memory : memory :=
  {| longest_str := 2 ^ 30; holds_standard_bar := eq_refl |}.

(** ["█" * n], by its length: a count that does not fit a machine index
    is refused, a negative one gives the empty string, and a string
    longer than the memory allows cannot be allocated. *)
Definition str_repeat (mem : memory) (n : Z) : Z + raised :=
  if (n <? - 2 ^ 63) || (2 ^ 63 <=? n)
  then inr (Builtin
              (OverflowError "cannot fit 'int' into an index-sized integer"))
  else if n <=? longest_str mem then inl (Z.max 0 n)
  else inr MemoryError.

(** What the script prints.  The table has the two rows, with the times
    in milliseconds and the lengths of the two bars. *)
Inductive printed : Type :=
| Title
| TargetLoad
| LatencyTable (duration_std duration_mutatis : float) (bars_std bars_mut : Z)
| Conclusion (duration_std duration_mutatis speedup : float).

(** A run: what was printed, and the exception that ended it, if any. *)
Definition run : Type := list printed * option raised.

(** Lines 80-82: [width = int((duration_mutatis / duration_std) * 40)],
    raised to 1 when below. *)
Definition bar_width (duration_std duration_mutatis : float) : Z + raised :=
  match float_truediv duration_mutatis duration_std with
  | Raise e => inr (Builtin e)
  | Ok ratio =>
      match int_of_float (mul ratio (of_int 40)) with
      | inr e => inr e
      | inl width => inl (if width <? 1 then 1 else width)
      end
  end.

Section Host.

Variable sdot : list float -> list float -> float.

(** [perf_counter i] is the [i]-th reading of [time.perf_counter()]. *)
Variable perf_counter : nat -> float.

Variable mem : memory.

(** The standard path: conversion, then the scores. *)
Definition standard_path (raw_data : list (list float)) (query : list float)
  : result ndarray :=
  let* converted_array := np_array raw_data in
  np_dot sdot converted_array query.

(** Lines 69-105: the two rows of the table, then the summary.  The
    table is printed after both bars are built, the conclusion after the
    speedup is computed. *)
Definition render (header : list printed)
    (duration_std duration_mutatis : float) : run :=
  match str_repeat mem 40 with
  | inr e => (header, Some e)
  | inl bars_std =>
      match bar_width duration_std duration_mutatis with
      | inr e => (header, Some e)
      | inl width =>
          match str_repeat mem width with
          | inr e => (header, Some e)
          | inl bars_mut =>
              let table :=
                LatencyTable duration_std duration_mutatis bars_std bars_mut in
              match float_truediv duration_std duration_mutatis with
              | Raise e => (header ++ [table], Some (Builtin e))
              | Ok speedup =>
                  (header ++
                     [table;
                      Conclusion duration_std duration_mutatis speedup],
                   None)
              end
          end
      end
  end.

(** The body of [run_benchmark] for given [raw_data] and [query]. *)
Definition run_benchmark_on (raw_data : list (list float))
    (query : list float) : run :=
  let header := [Title; TargetLoad] in
  match np_array raw_data with
  | Raise e => (header, Some (Builtin e))
  | Ok fast_buffer =>
      let start_time := perf_counter 0 in
      match standard_path raw_data query with
      | Raise e => (header, Some (Builtin e))
      | Ok _ =>
          let end_time := perf_counter 1 in
          let duration_std := mul (sub end_time start_time) (of_int 1000) in
          let start_time := perf_counter 2 in
          match np_dot sdot fast_buffer query with
          | Raise e => (header, Some (Builtin e))
          | Ok _ =>
              let end_time := perf_counter 3 in
              let duration_mutatis :=
                mul (sub end_time start_time) (of_int 1000) in
              render header duration_std duration_mutatis
          end
      end
  end.

Definition run_benchmark (random np_random : nat -> float) : run :=
  run_benchmark_on (generate_bloat random)
    (random_float32 np_random DIMENSIONS).

End Host.

End Benchmark.

(** * Properties *)

(** ** Rounding to nearest, ties to even *)

Section FloatProperties.
Import Float.

Lemma bitlen_nonneg n : 0 <= bitlen n.
Proof.
  unfold bitlen. destruct (Z.eqb_spec n 0); [lia|].
  pose proof (Z.log2_nonneg n). lia.
Qed.

Lemma bitlen_bounds n : 0 < n -> 2 ^ (bitlen n - 1) <= n < 2 ^ bitlen n.
Proof.
  intros Hn. unfold bitlen. destruct (Z.eqb_spec n 0); [lia|].
  replace (Z.log2 n + 1 - 1) with (Z.log2 n) by lia.
  replace (Z.log2 n + 1) with (Z.succ (Z.log2 n)) by lia.
  apply Z.log2_spec; assumption.
Qed.

Lemma bitlen_upper n : 0 <= n -> n < 2 ^ bitlen n.
Proof.
  intros Hn. destruct (Z.eq_dec n 0) as [->|Hne].
  - reflexivity.
  - apply bitlen_bounds; lia.
Qed.

Lemma bitlen_mono a b : 0 <= a <= b -> bitlen a <= bitlen b.
Proof.
  intros [Ha Hab]. unfold bitlen.
  destruct (Z.eqb_spec a 0), (Z.eqb_spec b 0); try lia.
  - pose proof (Z.log2_nonneg b). lia.
  - pose proof (Z.log2_le_mono a b Hab). lia.
Qed.

Lemma bitlen_le_of_lt n j : 0 <= n -> 0 <= j -> n < 2 ^ j -> bitlen n <= j.
Proof.
  intros Hn Hj Hlt. unfold bitlen. destruct (Z.eqb_spec n 0); [lia|].
  assert (Z.log2 n < j); [|lia].
  apply Z.log2_lt_pow2; lia.
Qed.

Lemma bitlen_gt_of_le n j : 0 <= j -> 2 ^ j <= n -> j < bitlen n.
Proof.
  intros Hj Hle. unfold bitlen.
  assert (0 < 2 ^ j) by (apply Z.pow_pos_nonneg; lia).
  destruct (Z.eqb_spec n 0); [lia|].
  assert (j <= Z.log2 n); [|lia].
  apply Z.log2_le_pow2; lia.
Qed.

Section RneDiv.
Variables (d : Z).
Hypothesis Hd : 0 < d.

Lemma rne_div_cases n :
  rne_div n d = n / d \/ (rne_div n d = n / d + 1 /\ d <= 2 * (n mod d)).
Proof.
  unfold rne_div.
  destruct (Z.compare_spec (2 * (n mod d)) d); [|left; reflexivity|right; lia].
  destruct (Z.even (n / d)); [left; reflexivity | right; lia].
Qed.

Lemma rne_div_error n : 2 * Z.abs (rne_div n d * d - n) <= d.
Proof.
  pose proof (Z.div_mod n d ltac:(lia)) as E.
  pose proof (Z.mod_pos_bound n d Hd) as B.
  unfold rne_div.
  destruct (Z.compare_spec (2 * (n mod d)) d);
    try destruct (Z.even (n / d)); nia.
Qed.

Lemma rne_div_ge n k : k * d <= n -> k <= rne_div n d.
Proof.
  intros H.
  assert (k <= n / d) by (apply Z.div_le_lower_bound; lia).
  destruct (rne_div_cases n) as [-> | [-> _]]; lia.
Qed.

Lemma rne_div_le n k : n <= k * d -> rne_div n d <= k.
Proof.
  intros H.
  pose proof (Z.div_mod n d ltac:(lia)) as E.
  pose proof (Z.mod_pos_bound n d Hd) as B.
  destruct (rne_div_cases n) as [-> | [-> Hhalf]]; nia.
Qed.

Lemma rne_div_exact k : rne_div (k * d) d = k.
Proof.
  apply Z.le_antisymm; [apply rne_div_le | apply rne_div_ge]; lia.
Qed.

Lemma rne_div_mono n1 n2 : n1 <= n2 -> rne_div n1 d <= rne_div n2 d.
Proof.
  intros H.
  pose proof (Z.div_mod n1 d ltac:(lia)) as E1.
  pose proof (Z.mod_pos_bound n1 d Hd) as B1.
  pose proof (Z.div_mod n2 d ltac:(lia)) as E2.
  pose proof (Z.mod_pos_bound n2 d Hd) as B2.
  assert (Hq : n1 / d <= n2 / d) by (apply Z.div_le_mono; lia).
  destruct (Z.eq_dec (n1 / d) (n2 / d)) as [Heq | Hne].
  - assert (n1 mod d <= n2 mod d) by nia.
    unfold rne_div. rewrite Heq.
    destruct (Z.compare_spec (2 * (n1 mod d)) d),
             (Z.compare_spec (2 * (n2 mod d)) d);
      destruct (Z.even (n2 / d)); lia.
  - destruct (rne_div_cases n1) as [-> | [-> _]],
             (rne_div_cases n2) as [-> | [-> _]]; lia.
Qed.

Lemma rne_div_nonneg n : 0 <= n -> 0 <= rne_div n d.
Proof. intros H. apply rne_div_ge. lia. Qed.
End RneDiv.

Lemma pow2_split a b : 0 <= a <= b -> 2 ^ b = 2 ^ (b - a) * 2 ^ a.
Proof. intros H. rewrite <- Z.pow_add_r by lia. f_equal. lia. Qed.

Lemma bitlen_shift m j : 0 < m -> 0 <= j -> bitlen (m * 2 ^ j) = bitlen m + j.
Proof.
  intros Hm Hj. unfold bitlen.
  assert (0 < 2 ^ j) by (apply Z.pow_pos_nonneg; lia).
  destruct (Z.eqb_spec (m * 2 ^ j) 0); [nia|].
  destruct (Z.eqb_spec m 0); [lia|].
  rewrite Z.log2_mul_pow2 by lia. lia.
Qed.

Lemma mod_pow2_le n a b : 0 <= a <= b -> n mod 2 ^ b = 0 -> n mod 2 ^ a = 0.
Proof.
  intros H E.
  assert (0 < 2 ^ a) by (apply Z.pow_pos_nonneg; lia).
  assert (0 < 2 ^ b) by (apply Z.pow_pos_nonneg; lia).
  apply Z.mod_divide in E; [|lia]. destruct E as [c ->].
  rewrite (pow2_split a b) by lia.
  rewrite Z.mul_assoc. apply Z.mod_mul. lia.
Qed.

(** *** Rounding in a format *)

#[local] Set Default Proof Using "All".

Section Rounding.
Variable fmt : format.
Hypothesis Hprec : 1 <= prec fmt.
Hypothesis Hqmin : 0 <= qmin fmt.

Section Divisor.
Variable d : Z.
Hypothesis Hd : 0 < d.

Lemma quantum_nonneg n : 0 <= quantum fmt n d.
Proof. unfold quantum. lia. Qed.

Lemma quantum_mono n1 n2 : 0 <= n1 <= n2 -> quantum fmt n1 d <= quantum fmt n2 d.
Proof.
  intros [H0 H]. unfold quantum.
  assert (bitlen (n1 / d) <= bitlen (n2 / d)).
  { apply bitlen_mono. split; [apply Z.div_pos; lia | apply Z.div_le_mono; lia]. }
  lia.
Qed.

Lemma round_mag_error n :
  2 * Z.abs (round_mag fmt n d * d - n) <= d * 2 ^ quantum fmt n d.
Proof.
  unfold round_mag. cbv zeta.
  pose proof (quantum_nonneg n) as Hq.
  set (sh := quantum fmt n d) in *.
  assert (0 < 2 ^ sh) by (apply Z.pow_pos_nonneg; lia).
  pose proof (rne_div_error (d * 2 ^ sh) ltac:(nia) n) as E.
  replace (rne_div n (d * 2 ^ sh) * 2 ^ sh * d)
    with (rne_div n (d * 2 ^ sh) * (d * 2 ^ sh)) by ring.
  exact E.
Qed.

(** A multiple [g] of the quantum below [n / d] stays below the rounded value. *)
Lemma round_mag_ge n j :
  j * 2 ^ quantum fmt n d * d <= n -> j * 2 ^ quantum fmt n d <= round_mag fmt n d.
Proof.
  intros H. unfold round_mag. cbv zeta.
  pose proof (quantum_nonneg n) as Hq.
  set (sh := quantum fmt n d) in *.
  assert (0 < 2 ^ sh) by (apply Z.pow_pos_nonneg; lia).
  apply Z.mul_le_mono_nonneg_r; [lia|].
  apply rne_div_ge; nia.
Qed.

Lemma round_mag_le n j :
  n <= j * 2 ^ quantum fmt n d * d -> round_mag fmt n d <= j * 2 ^ quantum fmt n d.
Proof.
  intros H. unfold round_mag. cbv zeta.
  pose proof (quantum_nonneg n) as Hq.
  set (sh := quantum fmt n d) in *.
  assert (0 < 2 ^ sh) by (apply Z.pow_pos_nonneg; lia).
  apply Z.mul_le_mono_nonneg_r; [lia|].
  apply rne_div_le; nia.
Qed.

Lemma round_mag_nonneg n : 0 <= n -> 0 <= round_mag fmt n d.
Proof.
  intros H. pose proof (round_mag_ge n 0). lia.
Qed.

(** Powers of two bound the rounded value as they bound the exact one. *)
Lemma round_mag_ge_pow2 n j :
  qmin fmt <= j -> 2 ^ j * d <= n -> 2 ^ j <= round_mag fmt n d.
Proof.
  intros Hj H.
  assert (Hj0 : 0 <= j) by lia.
  assert (Hp : 0 < 2 ^ j) by (apply Z.pow_pos_nonneg; lia).
  assert (Hx : 2 ^ j <= n / d) by (apply Z.div_le_lower_bound; lia).
  pose proof (bitlen_gt_of_le _ _ Hj0 Hx) as Hbl.
  destruct (Z.le_gt_cases (quantum fmt n d) j) as [Hsh | Hsh].
  - pose proof (quantum_nonneg n).
    rewrite (pow2_split (quantum fmt n d) j) by lia.
    apply round_mag_ge. rewrite <- pow2_split by lia. lia.
  - assert (Hq : quantum fmt n d = bitlen (n / d) - prec fmt)
      by (unfold quantum in *; lia).
    set (b := bitlen (n / d)) in *.
    assert (Hn0 : 0 < n / d) by lia.
    pose proof (bitlen_bounds _ Hn0) as [Hlo _]. fold b in Hlo.
    assert (Hge : 2 ^ (b - 1) <= round_mag fmt n d).
    { rewrite (pow2_split (quantum fmt n d) (b - 1)) by lia.
      apply round_mag_ge. rewrite <- pow2_split by lia.
      pose proof (Z.mul_div_le n d Hd). nia. }
    assert (2 ^ j <= 2 ^ (b - 1)) by (apply Z.pow_le_mono_r; lia).
    lia.
Qed.

Lemma round_mag_le_pow2 n j :
  0 <= n -> qmin fmt <= j -> n <= 2 ^ j * d -> round_mag fmt n d <= 2 ^ j.
Proof.
  intros Hn Hj H.
  assert (Hj0 : 0 <= j) by lia.
  assert (Hp : 0 < 2 ^ j) by (apply Z.pow_pos_nonneg; lia).
  destruct (Z.eq_dec n (2 ^ j * d)) as [-> | Hne].
  - (* exactly a power of two *)
    assert (Hx : 2 ^ j * d / d = 2 ^ j) by (apply Z.div_mul; lia).
    assert (Hsh : quantum fmt (2 ^ j * d) d <= j).
    { unfold quantum. rewrite Hx.
      assert (bitlen (2 ^ j) <= j + 1).
      { apply bitlen_le_of_lt; try lia.
        rewrite Z.pow_add_r by lia. lia. }
      lia. }
    pose proof (quantum_nonneg (2 ^ j * d)).
    rewrite (pow2_split (quantum fmt (2 ^ j * d) d) j) at 2 by lia.
    apply round_mag_le. rewrite <- pow2_split by lia. lia.
  - assert (Hx : n / d < 2 ^ j) by (apply Z.div_lt_upper_bound; lia).
    assert (Hbl : bitlen (n / d) <= j).
    { apply bitlen_le_of_lt; try lia. apply Z.div_pos; lia. }
    assert (Hsh : quantum fmt n d <= j) by (unfold quantum; lia).
    pose proof (quantum_nonneg n).
    rewrite (pow2_split (quantum fmt n d) j) by lia.
    apply round_mag_le. rewrite <- pow2_split by lia. lia.
Qed.

Lemma round_mag_mono n1 n2 :
  0 <= n1 <= n2 -> round_mag fmt n1 d <= round_mag fmt n2 d.
Proof.
  intros [H0 H].
  pose proof (quantum_mono n1 n2 (conj H0 H)) as Hq.
  pose proof (quantum_nonneg n1) as Hq1.
  destruct (Z.eq_dec (quantum fmt n1 d) (quantum fmt n2 d)) as [Heq | Hne].
  - unfold round_mag. cbv zeta. rewrite Heq.
    set (sh := quantum fmt n2 d) in *.
    assert (0 < 2 ^ sh) by (apply Z.pow_pos_nonneg; lia).
    apply Z.mul_le_mono_nonneg_r; [lia|].
    apply rne_div_mono; nia.
  - assert (Hlt : quantum fmt n1 d < quantum fmt n2 d) by lia.
    assert (Hq2 : quantum fmt n2 d = bitlen (n2 / d) - prec fmt)
      by (unfold quantum in *; lia).
    assert (Hb : bitlen (n1 / d) < bitlen (n2 / d))
      by (unfold quantum in *; lia).
    set (b1 := bitlen (n1 / d)) in *. set (b2 := bitlen (n2 / d)) in *.
    pose proof (bitlen_nonneg (n1 / d)) as Hb1. fold b1 in Hb1.
    assert (Hx1 : 0 <= n1 / d) by (apply Z.div_pos; lia).
    pose proof (bitlen_upper _ Hx1) as Hup. fold b1 in Hup.
    assert (Hn2 : 0 < n2 / d).
    { destruct (Z.eq_dec (n2 / d) 0) as [E|]; [|pose proof (Z.div_pos n2 d); lia].
      unfold b2 in Hb. rewrite E in Hb. change (bitlen 0) with 0 in Hb. lia. }
    pose proof (bitlen_bounds _ Hn2) as [Hlo _]. fold b2 in Hlo.
    set (m := Z.max b1 (quantum fmt n1 d)).
    assert (Hupper : round_mag fmt n1 d <= 2 ^ m).
    { rewrite (pow2_split (quantum fmt n1 d) m) by lia.
      apply round_mag_le. rewrite <- pow2_split by lia.
      assert (2 ^ b1 <= 2 ^ m) by (apply Z.pow_le_mono_r; lia).
      pose proof (Z.div_mod n1 d ltac:(lia)).
      pose proof (Z.mod_pos_bound n1 d Hd). nia. }
    assert (Hlower : 2 ^ (b2 - 1) <= round_mag fmt n2 d).
    { rewrite (pow2_split (quantum fmt n2 d) (b2 - 1)) by lia.
      apply round_mag_ge. rewrite <- pow2_split by lia.
      pose proof (Z.mul_div_le n2 d Hd). nia. }
    assert (2 ^ m <= 2 ^ (b2 - 1)) by (apply Z.pow_le_mono_r; lia).
    lia.
Qed.

End Divisor.

Lemma round_mag_exact n :
  0 <= n -> n mod 2 ^ Z.max (bitlen n - prec fmt) (qmin fmt) = 0 ->
  round_mag fmt n 1 = n.
Proof.
  intros Hn E. unfold round_mag, quantum. cbv zeta.
  rewrite Z.div_1_r.
  set (sh := Z.max (bitlen n - prec fmt) (qmin fmt)) in *.
  assert (0 < 2 ^ sh) by (apply Z.pow_pos_nonneg; lia).
  clearbody sh.
  apply Z.mod_divide in E; [|lia]. destruct E as [c ->].
  replace (1 * 2 ^ sh) with (2 ^ sh) by lia.
  rewrite rne_div_exact by lia. reflexivity.
Qed.

Lemma round_representable k : representable fmt k -> round fmt k 1 = Fin k.
Proof.
  intros [Hlt E]. unfold round.
  rewrite round_mag_exact by (auto; lia).
  destruct (Z.leb_spec (2 ^ top fmt) (Z.abs k)); [lia|].
  f_equal. lia.
Qed.

(** The rounded magnitude is a number of the format. *)
Lemma round_mag_grid n d :
  0 < d -> 0 <= n ->
  let r := round_mag fmt n d in
  r mod 2 ^ Z.max (bitlen r - prec fmt) (qmin fmt) = 0.
Proof.
  intros Hd Hn r.
  pose proof (quantum_nonneg d Hd n) as Hq.
  assert (Hsh : bitlen (n / d) - prec fmt <= quantum fmt n d /\
                qmin fmt <= quantum fmt n d) by (unfold quantum; lia).
  unfold r, round_mag. cbv zeta.
  set (sh := quantum fmt n d) in *.
  assert (Hp : 0 < 2 ^ sh) by (apply Z.pow_pos_nonneg; lia).
  set (q := rne_div n (d * 2 ^ sh)).
  assert (Hq0 : 0 <= q) by (apply rne_div_nonneg; nia).
  assert (Hx : 0 <= n / d) by (apply Z.div_pos; lia).
  pose proof (bitlen_upper _ Hx) as Hup.
  pose proof (bitlen_nonneg (n / d)) as Hbl.
  assert (Hqle : q <= 2 ^ prec fmt).
  { apply rne_div_le; [nia|].
    assert (2 ^ bitlen (n / d) <= 2 ^ (prec fmt + sh))
      by (apply Z.pow_le_mono_r; lia).
    rewrite Z.pow_add_r in * by lia.
    pose proof (Z.div_mod n d ltac:(lia)).
    pose proof (Z.mod_pos_bound n d Hd). nia. }
  assert (Hpp : 0 < 2 ^ prec fmt) by (apply Z.pow_pos_nonneg; lia).
  destruct (Z.eq_dec q (2 ^ prec fmt)) as [E | Hne].
  - rewrite E, <- Z.pow_add_r by lia.
    apply (mod_pow2_le _ _ (prec fmt + sh)).
    + assert (bitlen (2 ^ (prec fmt + sh)) <= prec fmt + sh + 1).
      { assert (0 <= 2 ^ (prec fmt + sh)) by (apply Z.pow_nonneg; lia).
        assert (2 ^ (prec fmt + sh) < 2 ^ (prec fmt + sh + 1))
          by (apply Z.pow_lt_mono_r; lia).
        apply bitlen_le_of_lt; lia. }
      lia.
    + apply Z.mod_same. assert (0 < 2 ^ (prec fmt + sh)) by (apply Z.pow_pos_nonneg; lia). lia.
  - apply (mod_pow2_le _ _ sh).
    + assert (bitlen (q * 2 ^ sh) <= prec fmt + sh).
      { assert (q * 2 ^ sh < 2 ^ (prec fmt + sh))
          by (rewrite Z.pow_add_r by lia; nia).
        apply bitlen_le_of_lt; nia. }
      lia.
    + apply Z.mod_mul. lia.
Qed.

Lemma round_finite_representable n d k :
  0 < d -> round fmt n d = Fin k -> representable fmt k.
Proof.
  intros Hd. unfold round.
  pose proof (round_mag_nonneg d Hd (Z.abs n) ltac:(lia)) as Hr.
  pose proof (round_mag_grid (Z.abs n) d Hd ltac:(lia)) as G. cbv zeta in G.
  set (r := round_mag fmt (Z.abs n) d) in *.
  destruct (Z.leb_spec (2 ^ top fmt) r); [discriminate|].
  intros [= <-].
  assert (E : Z.abs (Z.sgn n * r) = r \/ Z.sgn n * r = 0) by lia.
  destruct E as [E | E].
  - unfold representable. rewrite E. split; [lia | exact G].
  - unfold representable. rewrite E. split.
    + simpl. lia.
    + apply Z.mod_0_l.
      assert (0 < 2 ^ Z.max (bitlen (Z.abs 0) - prec fmt) (qmin fmt))
        by (apply Z.pow_pos_nonneg; lia). lia.
Qed.

Lemma round_mag_multiple n d :
  0 < d -> 0 <= n ->
  exists q, 0 <= q /\ round_mag fmt n d = q * 2 ^ quantum fmt n d.
Proof.
  intros Hd Hn. exists (rne_div n (d * 2 ^ quantum fmt n d)). split.
  - pose proof (quantum_nonneg d Hd n).
    assert (0 < 2 ^ quantum fmt n d) by (apply Z.pow_pos_nonneg; lia).
    apply rne_div_nonneg; nia.
  - reflexivity.
Qed.

(** Rounding to nearest moves a number by no more than its magnitude. *)
Lemma round_mag_error_le_self n :
  0 <= n -> Z.abs (round_mag fmt n 1 - n) <= n.
Proof.
  intros Hn.
  destruct (round_mag_multiple n 1 ltac:(lia) Hn) as (q & Hq & E).
  pose proof (round_mag_error 1 ltac:(lia) n) as Err.
  pose proof (quantum_nonneg 1 ltac:(lia) n).
  assert (0 < 2 ^ quantum fmt n 1) by (apply Z.pow_pos_nonneg; lia).
  rewrite E in *.
  destruct (Z.eq_dec q 0) as [-> | Hne]; [lia | nia].
Qed.
End Rounding.

#[local] Unset Default Proof Using.

(** The binary32 encoding *)

Lemma decode_fields (sgn : bool) E F :
  0 <= E < 2 ^ 8 -> 0 <= F < 2 ^ 23 ->
  let w := (if sgn then 2 ^ 31 else 0) + E * 2 ^ 23 + F in
  Z.testbit w 31 = sgn /\ (w / 2 ^ 23) mod 2 ^ 8 = E /\ w mod 2 ^ 23 = F /\
  0 <= w < 2 ^ 32.
Proof.
  intros HE HF w.
  change (2 ^ 8) with 256 in *. change (2 ^ 23) with 8388608 in *.
  change (2 ^ 31) with 2147483648 in *. change (2 ^ 32) with 4294967296.
  assert (Hw : w = (if sgn then 1 else 0) * 2147483648 + E * 8388608 + F)
    by (unfold w; destruct sgn; lia).
  repeat split.
  - rewrite Z.testbit_odd, Z.shiftr_div_pow2 by lia.
    change (2 ^ 31) with 2147483648.
    replace (w / 2147483648) with (if sgn then 1 else 0).
    + destruct sgn; reflexivity.
    + destruct sgn; Z.div_mod_to_equations; lia.
  - destruct sgn; Z.div_mod_to_equations; lia.
  - destruct sgn; Z.div_mod_to_equations; lia.
  - destruct sgn; lia.
  - destruct sgn; lia.
Qed.

Lemma single_bits_roundtrip k :
  representable binary32 k ->
  single_of_bits (bits_of_single (Fin k)) = Fin k /\
  0 <= bits_of_single (Fin k) < 2 ^ 32.
Proof.
  intros [Hlt E]. cbn [prec qmin top binary32] in *.
  set (a := Z.abs k) in *.
  assert (Ha : 0 <= a) by (unfold a; lia).
  assert (HQ : 0 < 2 ^ 925) by (apply Z.pow_pos_nonneg; lia).
  assert (Ediv : a mod 2 ^ 925 = 0).
  { apply (mod_pow2_le _ _ (Z.max (bitlen a - 24) 925)); [lia | exact E]. }
  assert (Hm : a = a / 2 ^ 925 * 2 ^ 925).
  { pose proof (Z.div_mod a (2 ^ 925) ltac:(lia)). lia. }
  set (m := a / 2 ^ 925) in *.
  assert (Hm0 : 0 <= m) by (apply Z.div_pos; lia).
  unfold bits_of_single. cbn [qmin binary32]. fold a. fold m.
  assert (Hsign : forall x, Fin ((if k <? 0 then -1 else 1) * (x * 2 ^ 925)) = Fin k
                            \/ x <> m).
  { intros x. destruct (Z.eq_dec x m) as [-> | ]; [left | right; assumption].
    f_equal. rewrite <- Hm. unfold a. destruct (Z.ltb_spec k 0); lia. }
  destruct (Z.ltb_spec m (2 ^ 23)) as [Hsub | Hnorm].
  - (* subnormal or zero *)
    pose proof (decode_fields (k <? 0) 0 m ltac:(lia) ltac:(lia)) as D.
    cbv zeta in D. rewrite Z.mul_0_l, Z.add_0_r in D.
    destruct D as (Dt & De & Df & Dw).
    split; [|exact Dw].
    unfold single_of_bits. cbn [qmin binary32].
    replace (if k <? 0 then 2 ^ 31 else 0) with (if k <? 0 then 2 ^ 31 else 0) in * by reflexivity.
    rewrite Dt, De, Df. cbn [Z.eqb].
    destruct (Hsign m) as [H | H]; [exact H | congruence].
  - (* normal *)
    assert (Hmpos : 0 < m) by (assert (0 < 2 ^ 23) by reflexivity; lia).
    assert (Hbl24 : 24 <= bitlen m).
    { pose proof (bitlen_gt_of_le m 23 ltac:(lia) Hnorm). lia. }
    assert (Hbla : bitlen a = bitlen m + 925).
    { rewrite Hm. apply bitlen_shift; lia. }
    set (sh := bitlen m - 24) in *.
    assert (Hsh0 : 0 <= sh) by (unfold sh; lia).
    assert (Hshp : 0 < 2 ^ sh) by (apply Z.pow_pos_nonneg; lia).
    assert (Em : m mod 2 ^ sh = 0).
    { rewrite Hbla in E.
      replace (Z.max (bitlen m + 925 - 24) 925) with (sh + 925) in E by (unfold sh; lia).
      apply Z.mod_divide in E; [|assert (0 < 2 ^ (sh + 925)) by (apply Z.pow_pos_nonneg; lia); lia].
      destruct E as [c Hc]. rewrite Z.pow_add_r in Hc by lia.
      assert (Hmc : m = c * 2 ^ sh) by nia.
      rewrite Hmc at 1. apply Z.mod_mul. lia. }
    assert (HM : m = m / 2 ^ sh * 2 ^ sh).
    { pose proof (Z.div_mod m (2 ^ sh) ltac:(lia)). lia. }
    set (M := m / 2 ^ sh) in *.
    pose proof (bitlen_bounds m Hmpos) as [Hlo Hhi].
    assert (HMrange : 2 ^ 23 <= M < 2 ^ 24).
    { replace (bitlen m - 1) with (23 + sh) in Hlo by (unfold sh; lia).
      replace (bitlen m) with (24 + sh) in Hhi by (unfold sh; lia).
      rewrite Z.pow_add_r in Hlo, Hhi by lia. nia. }
    assert (Hshmax : sh <= 253).
    { assert (m < 2 ^ 277).
      { change (2 ^ 1202) with (2 ^ 277 * 2 ^ 925) in Hlt. nia. }
      assert (bitlen m <= 277) by (apply bitlen_le_of_lt; lia).
      unfold sh. lia. }
    pose proof (decode_fields (k <? 0) (sh + 1) (M - 2 ^ 23)
                  ltac:(change (2 ^ 8) with 256; lia)
                  ltac:(change (2 ^ 24) with (2 * 2 ^ 23) in HMrange; lia)) as D.
    cbv zeta in D. destruct D as (Dt & De & Df & Dw).
    replace ((if k <? 0 then 2 ^ 31 else 0) + (sh + 1) * 2 ^ 23 + (M - 2 ^ 23))
      with ((if k <? 0 then 2 ^ 31 else 0) + (sh + 1) * 2 ^ 23 + (M - 2 ^ 23)) by reflexivity.
    split; [|exact Dw].
    unfold single_of_bits. cbn [qmin binary32].
    rewrite Dt, De, Df.
    destruct (Z.eqb_spec (sh + 1) 255); [lia|].
    destruct (Z.eqb_spec (sh + 1) 0); [lia|].
    replace (M - 2 ^ 23 + 2 ^ 23) with M by lia.
    replace (sh + 1 - 1) with sh by lia.
    destruct (Hsign (M * 2 ^ sh)) as [H | H]; [exact H | congruence].
Qed.

End FloatProperties.

(** ** Agreement with the standard library's IEEE-754 specification

    The operations of [Float] are checked against [SpecFloat] on the
    values of the audit and on ties. *)

Section Conformance.
Import Float.

Example literal_original_val_spec :
  to_spec 53 1024 (literal 123456789123456789 18)
  = S754_finite false 8895999191884126 (-56).
Proof. vm_compute. reflexivity. Qed.

Example narrowing_agrees_with_spec :
  forallb
    (fun k => spec_eqb (to_spec 24 128 (to_single (Fin k)))
                       (binary_normalize 24 128 k (- ulp_exp) false))
    [ 8895999191884126 * 2 ^ 1018;          (* the audited value *)
      16777217 * 2 ^ ulp_exp;               (* a tie, rounded down to even *)
      16777219 * 2 ^ ulp_exp;               (* a tie, rounded up to even *)
      - (16777219 * 2 ^ ulp_exp);
      (2 ^ 24 + 1) * 2 ^ (ulp_exp - 24);    (* 1 + 2^-24 *)
      3 * 2 ^ 924;                          (* a subnormal tie *)
      2 ^ 924;                              (* half the smallest subnormal *)
      1;                                    (* the smallest binary64 number *)
      (2 ^ 25 - 1) * 2 ^ (103 + ulp_exp);   (* rounds to infinity *)
      (2 ^ 24 - 1) * 2 ^ (104 + ulp_exp) ]  (* the largest binary32 number *)
  = true.
Proof. vm_compute. reflexivity. Qed.

Example arithmetic_agrees_with_spec :
  let x := literal 123456789123456789 18 in
  let y := to_single x in
  let z := literal 1 7 in
  spec_eqb (to_spec 53 1024 (sub x y))
           (SFsub 53 1024 (to_spec 53 1024 x) (to_spec 53 1024 y)) = true /\
  spec_eqb (to_spec 53 1024 (add x z))
           (SFadd 53 1024 (to_spec 53 1024 x) (to_spec 53 1024 z)) = true /\
  spec_eqb (to_spec 53 1024 (mul x z))
           (SFmul 53 1024 (to_spec 53 1024 x) (to_spec 53 1024 z)) = true /\
  spec_eqb (to_spec 53 1024 (div x z))
           (SFdiv 53 1024 (to_spec 53 1024 x) (to_spec 53 1024 z)) = true /\
  spec_eqb (to_spec 53 1024 (div (of_int 61440000) (of_int 1048576)))
           (SFdiv 53 1024 (to_spec 53 1024 (of_int 61440000))
                          (to_spec 53 1024 (of_int 1048576))) = true /\
  spec_eqb (to_spec 24 128 (mul32 y y))
           (SFmul 24 128 (to_spec 24 128 y) (to_spec 24 128 y)) = true /\
  spec_eqb (to_spec 24 128 (add32 y (mul32 y y)))
           (SFadd 24 128 (to_spec 24 128 y) (to_spec 24 128 (mul32 y y))) = true.
Proof. vm_compute. repeat split. Qed.

(** The bytes of the audited value: [0x3DFCD6EA], little-endian. *)
Example pack_original_val :
  PyOps.pack_f (literal 123456789123456789 18)
  = Exn.Ok [Byte.xea; Byte.xd6; Byte.xfc; Byte.x3d].
Proof. vm_compute. reflexivity. Qed.

End Conformance.

(** ** The precision audit and the schema validator *)

Section ComplianceProperties.
Import Float Py JsonSchema Exn PyOps Compliance.

Lemma binary32_prec : 1 <= prec binary32. Proof. cbn. lia. Qed.
Lemma binary32_qmin : 0 <= qmin binary32. Proof. cbn. lia. Qed.
Lemma binary64_prec : 1 <= prec binary64. Proof. cbn. lia. Qed.
Lemma binary64_qmin : 0 <= qmin binary64. Proof. cbn. lia. Qed.

(** Packing then unpacking a number of the binary32 format gives it back. *)
Lemma unpack_pack_single k :
  representable binary32 k ->
  unpack_f (le_split 4 (bits_of_single (Fin k))) = Ok (Fin k).
Proof.
  intros R. destruct (single_bits_roundtrip k R) as [E B].
  unfold unpack_f. rewrite length_le_split. cbn [Nat.eqb].
  rewrite le_combine_split.
  change (Z.of_nat 4 * 8) with 32.
  rewrite Z.mod_small by exact B.
  rewrite E. reflexivity.
Qed.

(** What [audit] computes on a finite value that does not overflow. *)
Lemma audit_finite k k' :
  representable binary64 k ->
  to_single (Fin k) = Fin k' ->
  audit (Fin k) = Ok (Fin k', abs (sub (Fin k) (Fin k'))).
Proof.
  intros R64 E. unfold audit, pack_f. rewrite E.
  assert (R32 : representable binary32 k').
  { unfold to_single in E.
    apply (round_finite_representable binary32 binary32_prec binary32_qmin k 1 k');
      [lia | exact E]. }
  cbn [bind]. rewrite (unpack_pack_single k' R32). reflexivity.
Qed.

(** The narrowing error: it is at most half a quantum, at most the
    magnitude of the value, and the binary64 subtraction that measures it
    is exact. *)
Lemma to_single_finite k k' :
  to_single (Fin k) = Fin k' ->
  k' = Z.sgn k * round_mag binary32 (Z.abs k) 1.
Proof.
  unfold to_single, round.
  destruct (_ <=? _); [discriminate|]. intros [= <-]. reflexivity.
Qed.

Lemma narrowing_error k k' :
  to_single (Fin k) = Fin k' ->
  2 * Z.abs (k - k') <= 2 ^ quantum binary32 (Z.abs k) 1 /\
  Z.abs (k - k') <= Z.abs k.
Proof.
  intros E. apply to_single_finite in E.
  pose proof (round_mag_error binary32 binary32_prec binary32_qmin 1 ltac:(lia) (Z.abs k)) as Err.
  pose proof (round_mag_error_le_self binary32 binary32_prec binary32_qmin (Z.abs k) ltac:(lia)) as Self.
  pose proof (round_mag_nonneg binary32 binary32_prec binary32_qmin 1 ltac:(lia) (Z.abs k) ltac:(lia)) as Pos.
  set (r := round_mag binary32 (Z.abs k) 1) in *.
  assert (Hd : Z.abs (k - k') = Z.abs (r - Z.abs k)) by (subst k'; lia).
  rewrite Hd. split; [|exact Self].
  rewrite Z.mul_1_r, Z.mul_1_l in Err. exact Err.
Qed.

Lemma sub_narrowed_exact k k' :
  representable binary64 k ->
  to_single (Fin k) = Fin k' ->
  sub (Fin k) (Fin k') = Fin (k - k').
Proof.
  intros [Hlt R64] E.
  pose proof (narrowing_error k k' E) as [_ Hself].
  apply to_single_finite in E.
  unfold sub, neg, add.
  replace (k + - k') with (k - k') by lia.
  apply (round_representable binary64 binary64_prec binary64_qmin).
  unfold representable.
  cbn [prec qmin top binary64 binary32] in *.
  split; [lia|].
  set (a := Z.abs k) in *.
  set (s64 := Z.max (bitlen a - 53) 0) in *.
  assert (Hs : 0 <= s64) by (unfold s64; lia).
  assert (Hp : 0 < 2 ^ s64) by (apply Z.pow_pos_nonneg; lia).
  (* both numbers are multiples of the binary64 quantum of [k] *)
  destruct (round_mag_multiple binary32 binary32_prec binary32_qmin a 1
              ltac:(lia) ltac:(unfold a; lia)) as (q & Hq & Er).
  assert (Hsh : s64 <= quantum binary32 a 1).
  { unfold quantum, s64. rewrite Z.div_1_r. cbn [prec qmin binary32]. lia. }
  assert (Da : (2 ^ s64 | a)) by (apply Z.mod_divide; [lia | exact R64]).
  assert (Dr : (2 ^ s64 | round_mag binary32 a 1)).
  { rewrite Er. apply Z.divide_mul_r.
    exists (2 ^ (quantum binary32 a 1 - s64)).
    rewrite <- Z.pow_add_r by lia. f_equal. lia. }
  assert (Dk : (2 ^ s64 | k)) by (apply Z.divide_abs_r; exact Da).
  assert (Dk' : (2 ^ s64 | k')).
  { rewrite E. apply Z.divide_mul_r. exact Dr. }
  assert (Dd : (2 ^ s64 | Z.abs (k - k'))).
  { apply Z.divide_abs_r. apply Z.divide_sub_r; assumption. }
  apply (mod_pow2_le _ _ s64).
  - assert (bitlen (Z.abs (k - k')) <= bitlen a) by (apply bitlen_mono; lia).
    unfold s64. lia.
  - apply Z.mod_divide; [lia | exact Dd].
Qed.

Lemma millionth_above_half_quantum :
  exists c, literal 1 6 = Fin c /\ 2 ^ 1054 < c.
Proof.
  eexists. split; [vm_compute; reflexivity | vm_compute; reflexivity].
Qed.

(** C3, counterexample.  The value [16777217.0] is a finite binary64
    number inside the single-precision range; it is stored as
    [16777216.0], so the audit measures an absolute error of exactly [1.0],
    which is not below [1e-6]. *)
Lemma C3_counterexample :
  representable binary64 (16777217 * 2 ^ ulp_exp) /\
  Z.abs (16777217 * 2 ^ ulp_exp) <= max_single /\
  audit (Fin (16777217 * 2 ^ ulp_exp))
    = Ok (Fin (16777216 * 2 ^ ulp_exp), one) /\
  ~ roundtrip_law (Fin (16777217 * 2 ^ ulp_exp)).
Proof.
  assert (A : audit (Fin (16777217 * 2 ^ ulp_exp))
              = Ok (Fin (16777216 * 2 ^ ulp_exp), one))
    by (vm_compute; reflexivity).
  split; [| split; [| split]].
  - split; vm_compute; reflexivity.
  - vm_compute. discriminate.
  - exact A.
  - intros (restored & delta & E & Hlt).
    rewrite A in E. injection E as <- <-.
    vm_compute in Hlt. discriminate.
Qed.

(** C3, as amended.  For every finite binary64 value of magnitude at most
    [32.0], packing it as a 4-byte single-precision float and unpacking it
    succeeds and the absolute error the audit computes is strictly below
    [1e-6]. *)
Theorem C3_roundtrip_within_32 k :
  representable binary64 k ->
  Z.abs k <= 32 * 2 ^ ulp_exp ->
  roundtrip_law (Fin k).
Proof.
  intros R Hle.
  change (32 * 2 ^ ulp_exp) with (2 ^ 1079) in Hle.
  assert (Hfin : exists k', to_single (Fin k) = Fin k').
  { unfold to_single, round.
    pose proof (round_mag_le_pow2 binary32 binary32_prec binary32_qmin 1
                  ltac:(lia) (Z.abs k) 1079 ltac:(lia)
                  ltac:(cbn; lia) ltac:(lia)) as Hr.
    assert (2 ^ 1079 < 2 ^ top binary32) by (vm_compute; reflexivity).
    destruct (Z.leb_spec (2 ^ top binary32) (round_mag binary32 (Z.abs k) 1));
      [lia | eauto]. }
  destruct Hfin as [k' E].
  exists (Fin k'), (Fin (Z.abs (k - k'))). split.
  - rewrite (audit_finite k k' R E), (sub_narrowed_exact k k' R E). reflexivity.
  - destruct millionth_above_half_quantum as (c & -> & Hc).
    cbn [ltb]. apply Z.ltb_lt.
    destruct (Z.eq_dec (Z.abs k) (2 ^ 1079)) as [Htop | Hlow].
    + (* the value is 32.0 or -32.0, a binary32 number *)
      assert (R32 : representable binary32 k).
      { unfold representable. rewrite Htop. split; vm_compute; reflexivity. }
      unfold to_single in E.
      rewrite (round_representable binary32 binary32_prec binary32_qmin k R32) in E.
      injection E as <-. replace (k - k) with 0 by lia.
      assert (0 < 2 ^ 1054) by (apply Z.pow_pos_nonneg; lia). cbn [Z.abs]. lia.
    + pose proof (narrowing_error k k' E) as [Herr _].
      assert (Hq : quantum binary32 (Z.abs k) 1 <= 1055).
      { unfold quantum. rewrite Z.div_1_r. cbn [prec qmin binary32].
        assert (bitlen (Z.abs k) <= 1079) by (apply bitlen_le_of_lt; lia).
        lia. }
      assert (2 ^ quantum binary32 (Z.abs k) 1 <= 2 ^ 1055)
        by (apply Z.pow_le_mono_r; lia).
      change (2 ^ 1055) with (2 * 2 ^ 1054) in *.
      lia.
Qed.

Lemma C3_roundtrip_within_32_witness :
  representable binary64 (8895999191884126 * 2 ^ 1018) /\
  Z.abs (8895999191884126 * 2 ^ 1018) <= 32 * 2 ^ ulp_exp /\
  roundtrip_law (Fin (8895999191884126 * 2 ^ 1018)).
Proof.
  assert (R : representable binary64 (8895999191884126 * 2 ^ 1018))
    by (split; vm_compute; reflexivity).
  assert (B : Z.abs (8895999191884126 * 2 ^ 1018) <= 32 * 2 ^ ulp_exp)
    by (vm_compute; discriminate).
  split; [exact R | split; [exact B |]].
  exact (C3_roundtrip_within_32 _ R B).
Defined.

Lemma each_item_nil check here i items :
  (forall x p, In x items -> check x p = []) ->
  each_item check here i items = [].
Proof.
  revert i. induction items as [|x rest IH]; intros i H; cbn [each_item].
  - reflexivity.
  - rewrite (H x) by (left; reflexivity).
    rewrite IH by (intros; apply H; right; assumption).
    reflexivity.
Qed.

Lemma numbers_conform items here :
  forallb is_number items = true ->
  keyword_errors (Kitems [Ktype Tnumber]) (PList items) here = [].
Proof.
  intros H. cbn [keyword_errors].
  apply each_item_nil. intros x p Hin.
  rewrite forallb_forall in H. specialize (H x Hin).
  unfold is_number in H. rewrite H. reflexivity.
Qed.

Lemma vector_conforms items here :
  length items = 1536%nat ->
  forallb is_number items = true ->
  iter_errors_at vector_schema (PList items) here = [].
Proof.
  intros Hlen Hnum. unfold iter_errors_at, vector_schema.
  cbn [flat_map]. rewrite (numbers_conform items here Hnum).
  cbn [keyword_errors is_type]. rewrite Hlen. reflexivity.
Qed.

Lemma conforming_record entries id items :
  lookup "id" entries = Some (PStr id) ->
  lookup "vector" entries = Some (PList items) ->
  (lookup "payload" entries = None \/
   exists d, lookup "payload" entries = Some (PDict d)) ->
  length items = 1536%nat ->
  forallb is_number items = true ->
  iter_errors VECTOR_SCHEMA (PDict entries) = [].
Proof.
  intros Hid Hvec Hpay Hlen Hnum.
  pose proof (vector_conforms items [Key "vector"] Hlen Hnum) as V.
  unfold iter_errors_at, vector_schema in V. cbn [flat_map] in V.
  unfold iter_errors, iter_errors_at, VECTOR_SCHEMA.
  cbn [flat_map keyword_errors is_type app].
  rewrite Hid, Hvec. cbn [keyword_errors is_type app].
  unfold contains. rewrite Hid, Hvec.
  rewrite !app_nil_r in V. rewrite !app_nil_r.
  cbn [app] in V |- *.
  destruct Hpay as [-> | [d ->]]; cbn [keyword_errors is_type app];
    rewrite ?app_nil_r; exact V.
Qed.

(** C6.  The record [{"id": "x", "vector": [0.0]*1536, "payload": {}}]
    validates against [VECTOR_SCHEMA], and a run on it prints the table
    of passed checks; the same record with a vector of 1535 entries is
    refused, and the only error, the one raised and printed by the run, is
    the [minItems] keyword with its bound 1536 failing at the path
    ["vector"] on the 1535-entry array ("... is too short"). *)
Theorem C6_schema_scenarios more_relevant :
  validate more_relevant record_1536 VECTOR_SCHEMA = Ok tt /\
  iter_errors VECTOR_SCHEMA record_1535 = [too_short_1535] /\
  validate more_relevant record_1535 VECTOR_SCHEMA
    = Raise (ValidationError too_short_1535) /\
  validator too_short_1535 = KminItems 1536 /\
  path too_short_1535 = [Key "vector"] /\
  instance too_short_1535 = PList (repeat (PFloat zero) 1535) /\
  forall value,
    In (CheckTable schema_rows)
       (fst (run_compliance_on more_relevant record_1536 value)) /\
    run_compliance_on more_relevant record_1535 value
      = (title_and_heading
           ++ [SchemaFailure (ValidationError too_short_1535)], None).
Proof.
  assert (E0 : iter_errors VECTOR_SCHEMA record_1536 = [])
    by (vm_compute; reflexivity).
  assert (E1 : iter_errors VECTOR_SCHEMA record_1535 = [too_short_1535])
    by (vm_compute; reflexivity).
  assert (V0 : validate more_relevant record_1536 VECTOR_SCHEMA = Ok tt)
    by (unfold validate; rewrite E0; reflexivity).
  assert (V1 : validate more_relevant record_1535 VECTOR_SCHEMA
               = Raise (ValidationError too_short_1535))
    by (unfold validate; rewrite E1; reflexivity).
  split; [exact V0 | split; [exact E1 | split; [exact V1 |]]].
  split; [reflexivity | split; [reflexivity | split; [reflexivity |]]].
  intros value. unfold run_compliance_on. rewrite V0, V1. split.
  - destruct (audit value) as [[restored delta] | e];
      cbn [fst]; apply in_or_app.
    + left. apply in_or_app. right. left. reflexivity.
    + right. left. reflexivity.
  - reflexivity.
Qed.

(** C10.  A record without a ["payload"] entry whose ["id"] is a string
    and whose ["vector"] is a list of 1536 numbers validates against
    [VECTOR_SCHEMA]: only ["id"] and ["vector"] are required. *)
Theorem C10_payload_optional entries id items :
  lookup "id" entries = Some (PStr id) ->
  lookup "vector" entries = Some (PList items) ->
  lookup "payload" entries = None ->
  length items = 1536%nat ->
  forallb is_number items = true ->
  forall more_relevant,
    validate more_relevant (PDict entries) VECTOR_SCHEMA = Ok tt.
Proof.
  intros Hid Hvec Hpay Hlen Hnum more_relevant. unfold validate.
  rewrite (conforming_record entries id items Hid Hvec (or_introl Hpay) Hlen Hnum).
  reflexivity.
Qed.

Lemma C10_payload_optional_witness :
  validate higher_up
           (PDict [ ("id", PStr "x");
                    ("vector", PList (repeat (PInt 7) 1536)) ])
           VECTOR_SCHEMA = Ok tt.
Proof.
  apply (C10_payload_optional _ "x" (repeat (PInt 7) 1536));
    vm_compute; reflexivity.
Defined.

Lemma mock_request_valid more_relevant uniform :
  validate more_relevant (mock_request uniform) VECTOR_SCHEMA = Ok tt.
Proof.
  unfold validate, mock_request.
  rewrite (conforming_record _ "vec_8a7b9c" (generate_vector uniform)).
  - reflexivity.
  - reflexivity.
  - reflexivity.
  - right. eexists. reflexivity.
  - unfold generate_vector. rewrite length_map, length_seq. reflexivity.
  - unfold generate_vector. apply forallb_forall. intros x Hin.
    apply in_map_iff in Hin. destruct Hin as (i & <- & _). reflexivity.
Qed.

Lemma audit_original_val :
  audit original_val = Ok (stored_val, audit_delta).
Proof. vm_compute. reflexivity. Qed.

Lemma audit_delta_below_threshold :
  ltb audit_delta precision_threshold = true.
Proof. vm_compute. reflexivity. Qed.

(** C8.  For [0.123456789123456789] the audit stores
    [16570090 * 2^-27], the binary64 number the literal
    [0.12345679104328155] denotes; the absolute error is strictly below
    the threshold [1e-7], so the status is PASS, and every run of
    [run_compliance] reports the ["Precision Delta"] row as PASS. *)
Theorem C8_audited_value :
  audit original_val = Ok (stored_val, audit_delta) /\
  stored_val = literal 12345679104328155 17 /\
  ltb audit_delta precision_threshold = true /\
  precision_status audit_delta = PASS /\
  forall more_relevant uniform,
    snd (run_compliance more_relevant uniform) = None /\
    reported (run_compliance more_relevant uniform) =
      schema_rows ++ [("Precision Delta", PASS)].
Proof.
  split; [exact audit_original_val |].
  split; [vm_compute; reflexivity |].
  split; [exact audit_delta_below_threshold |].
  split.
  - unfold precision_status. rewrite audit_delta_below_threshold. reflexivity.
  - intros more_relevant uniform. unfold run_compliance, run_compliance_on.
    rewrite mock_request_valid, audit_original_val.
    unfold reported, precision_status. rewrite audit_delta_below_threshold.
    cbn [fst snd app flat_map]. split; reflexivity.
Qed.




End ComplianceProperties.

(** ** The memory estimates *)

Section MemoryProperties.
Import Float Exn PyOps Numpy Memory.

Lemma length_concat_uniform {A : Type} (rows : list (list A)) (d : Z) :
  Forall (fun row => Z.of_nat (length row) = d) rows ->
  Z.of_nat (length (concat rows)) = Z.of_nat (length rows) * d.
Proof.
  induction 1 as [| row rest Hrow _ IH]; cbn [concat length].
  - reflexivity.
  - rewrite length_app. lia.
Qed.

Lemma nbytes_Array2 d rows :
  nbytes (Array2 d rows) = Z.of_nat (length rows) * Z.of_nat d * itemsize.
Proof. unfold nbytes, size, shape. cbn [fold_right]. lia. Qed.

Lemma np_zeros_ok n d :
  0 <= n -> 0 <= d ->
  np_zeros n d =
    Ok (Array2 (Z.to_nat d) (repeat (repeat zero (Z.to_nat d)) (Z.to_nat n))).
Proof.
  intros Hn Hd. unfold np_zeros.
  destruct (Z.ltb_spec n 0); [lia|]. destruct (Z.ltb_spec d 0); [lia|].
  reflexivity.
Qed.

Lemma sum_from_nonneg l acc :
  Forall (fun x => 0 <= x) l -> acc <= fold_left Z.add l acc.
Proof.
  intros H. revert acc. induction H as [| x rest Hx _ IH]; intros acc; cbn [fold_left].
  - lia.
  - specialize (IH (acc + x)). lia.
Qed.

Lemma getsizeof_nonneg {A : Type} h (l : list A) : 0 <= getsizeof h l.
Proof. unfold getsizeof. lia. Qed.

Lemma sizeof_nonneg {A : Type} h (l : list A) : 0 <= sizeof h l.
Proof. unfold sizeof. lia. Qed.

Lemma rows_size_nonneg h (py_data : list (list float)) :
  0 <= sum (map (getsizeof h) py_data).
Proof.
  unfold sum. apply sum_from_nonneg.
  apply Forall_forall. intros x Hin. apply in_map_iff in Hin.
  destruct Hin as (row & <- & _). apply getsizeof_nonneg.
Qed.

Lemma packed_buffer_size count dimension :
  0 <= count -> 0 <= dimension ->
  exists buffer,
    np_zeros count dimension = Ok buffer /\
    shape buffer = [count; dimension] /\
    Z.of_nat (length (ravel buffer)) = count * dimension /\
    nbytes buffer = count * dimension * itemsize /\
    mutatis_size_bytes count dimension = Ok (count * dimension * 4).
Proof.
  intros Hc Hd.
  pose proof (np_zeros_ok count dimension ltac:(lia) ltac:(lia)) as E.
  eexists. split; [exact E |].
  assert (Hn : nbytes (Array2 (Z.to_nat dimension)
                 (repeat (repeat zero (Z.to_nat dimension)) (Z.to_nat count)))
               = count * dimension * itemsize).
  { rewrite nbytes_Array2, repeat_length, !Z2Nat.id by lia. reflexivity. }
  split; [| split; [| split]].
  - unfold shape. rewrite repeat_length, !Z2Nat.id by lia. reflexivity.
  - unfold ravel.
    rewrite (length_concat_uniform _ dimension).
    + rewrite repeat_length, Z2Nat.id by lia. reflexivity.
    + apply Forall_forall. intros row Hin. apply repeat_spec in Hin. subst row.
      rewrite repeat_length, Z2Nat.id by lia. reflexivity.
  - exact Hn.
  - unfold mutatis_size_bytes. rewrite E. cbn [bind]. rewrite Hn. reflexivity.
Qed.

Lemma np_array_nbytes V D py_data :
  well_shaped V D py_data ->
  exists packed,
    np_array py_data = Ok packed /\
    nbytes packed = V * D * itemsize /\
    ravel packed = map to_single (concat py_data).
Proof.
  intros [Hlen Hrows]. destruct py_data as [| first rest].
  - exists (Array1 []). cbn in Hlen. subst V.
    split; [reflexivity | split; reflexivity].
  - unfold np_array.
    pose proof (Forall_inv Hrows) as Hfirst. cbn beta in Hfirst.
    assert (Hall : forallb (fun row => (length row =? length first)%nat) rest = true).
    { apply forallb_forall. intros row Hin. apply Nat.eqb_eq.
      pose proof (Forall_inv_tail Hrows) as Hrest.
      rewrite Forall_forall in Hrest. specialize (Hrest row Hin). lia. }
    rewrite Hall. eexists. split; [reflexivity | split].
    + rewrite nbytes_Array2, length_map, Hlen, Hfirst. reflexivity.
    + unfold ravel. rewrite concat_map. reflexivity.
Qed.

(** C4.  For [count > 0] rows and [dimension > 0] columns a packed
    float32 buffer, whether allocated by [np.zeros] as in
    [run_memory_test] or converted from nested lists by [np.array], holds
    [count * dimension] elements and its size in bytes is exactly
    [count * dimension * 4]: nothing is added per element. *)
Theorem C4_estimate_packed count dimension :
  0 < count -> 0 < dimension ->
  (exists buffer,
      np_zeros count dimension = Ok buffer /\
      shape buffer = [count; dimension] /\
      Z.of_nat (length (ravel buffer)) = count * dimension /\
      nbytes buffer = count * dimension * itemsize /\
      mutatis_size_bytes count dimension = Ok (count * dimension * 4)) /\
  (forall py_data,
      well_shaped count dimension py_data ->
      exists packed,
        np_array py_data = Ok packed /\
        Z.of_nat (length (ravel packed)) = count * dimension /\
        nbytes packed = count * dimension * itemsize).
Proof.
  intros Hc Hd. split.
  - apply packed_buffer_size; lia.
  - intros py_data W.
    destruct (np_array_nbytes count dimension py_data W)
      as (packed & Epacked & Hn & Hravel).
    exists packed. split; [exact Epacked | split; [| exact Hn]].
    destruct W as [Hlen Hrows].
    rewrite Hravel, length_map, (length_concat_uniform py_data dimension Hrows).
    rewrite Hlen. reflexivity.
Qed.

Lemma C4_estimate_packed_witness :
  (exists buffer,
      np_zeros 3 2 = Ok buffer /\
      shape buffer = [3; 2] /\
      Z.of_nat (length (ravel buffer)) = 3 * 2 /\
      nbytes buffer = 3 * 2 * itemsize /\
      mutatis_size_bytes 3 2 = Ok (3 * 2 * 4)) /\
  (forall py_data,
      well_shaped 3 2 py_data ->
      exists packed,
        np_array py_data = Ok packed /\
        Z.of_nat (length (ravel packed)) = 3 * 2 /\
        nbytes packed = 3 * 2 * itemsize).
Proof.
  apply (C4_estimate_packed 3 2); lia.
Defined.

(** The sizes [cpython64] gives to the lists of a comprehension: 72
    bytes for the list of one item, 88 with the collector's header, and
    12728 with the header for a row of 1536 items. *)
Lemma cpython64_list_sizes :
  sizeof cpython64 [[zero]] = 72 /\
  getsizeof cpython64 [zero] = 88 /\
  getsizeof cpython64 (repeat zero 1536) = 12728.
Proof. vm_compute. split; [reflexivity | split; reflexivity]. Qed.

(** C2, counterexample.  For the single row of one scalar, [[0.0]], the
    estimate on [cpython64] is 184 bytes: 72 for the outer list, 88 for
    the row and 24 for the scalar.  Were the float objects of the host 32
    bytes instead of 24, the estimate would still be 184, while an
    estimate that asked the host for the size of the scalar would give
    192; whatever the size of the float objects, the estimate is 184:
    the per-scalar term is the constant 24, not a size obtained from the
    host. *)
Lemma C2_counterexample :
  well_shaped 1 1 [[zero]] /\
  py_size cpython64 1 1 [[zero]] = 72 + 88 + 24 /\
  inspected_size cpython64 [[zero]] = 184 /\
  py_size wide_float_host 1 1 [[zero]] = 184 /\
  inspected_size wide_float_host [[zero]] = 192 /\
  (forall float_size,
      py_size {| list_sizeof := list_sizeof cpython64;
                 gc_header := gc_header cpython64;
                 float_sizeof := float_size |} 1 1 [[zero]] = 184) /\
  ~ (forall h V D py_data,
        well_shaped V D py_data ->
        py_size h V D py_data = inspected_size h py_data).
Proof.
  assert (W : well_shaped 1 1 [[zero]]).
  { split; [reflexivity | repeat constructor]. }
  split; [exact W |].
  split; [reflexivity |]. split; [reflexivity |]. split; [reflexivity |].
  split; [reflexivity |]. split; [intros float_size; reflexivity |].
  intros H. specialize (H wide_float_host 1 1 [[zero]] W).
  vm_compute in H. discriminate.
Qed.

(** C2, as amended.  For a collection of [V] rows of [D] scalars the
    estimate is the sum of the size of the outer list, the sizes of the
    row lists, both asked of the host, and 24 bytes for each scalar; it
    does not depend on the size the host gives to its float objects. *)
Theorem C2_estimate_loose_terms h V D py_data :
  well_shaped V D py_data ->
  py_size h V D py_data =
    sizeof h py_data + sum (map (getsizeof h) py_data)
    + Z.of_nat (length (concat py_data)) * 24 /\
  0 <= sizeof h py_data /\
  0 <= sum (map (getsizeof h) py_data) /\
  forall h',
    list_sizeof h' = list_sizeof h -> gc_header h' = gc_header h ->
    py_size h' V D py_data = py_size h V D py_data.
Proof.
  intros [Hlen Hrows].
  split; [| split; [| split]].
  - unfold py_size. rewrite (length_concat_uniform py_data D Hrows), Hlen.
    reflexivity.
  - apply sizeof_nonneg.
  - apply rows_size_nonneg.
  - intros h' Hl Hg. unfold py_size, sizeof. rewrite Hl. f_equal. f_equal.
    f_equal. apply map_ext. intros row. unfold getsizeof. rewrite Hl, Hg.
    reflexivity.
Qed.

Lemma C2_estimate_loose_terms_witness :
  py_size cpython64 2 3 [[zero; one; zero]; [one; zero; one]] =
    sizeof cpython64 [[zero; one; zero]; [one; zero; one]]
    + sum (map (getsizeof cpython64) [[zero; one; zero]; [one; zero; one]])
    + Z.of_nat (length (concat [[zero; one; zero]; [one; zero; one]])) * 24.
Proof.
  refine (proj1 (C2_estimate_loose_terms cpython64 2 3
                   [[zero; one; zero]; [one; zero; one]] _)).
  split; [reflexivity | repeat constructor].
Defined.

(** Division of positive integers that stays in range. *)
Lemma int_truediv_pos n m :
  0 < n -> 0 < m ->
  round_mag binary64 (n * 2 ^ ulp_exp) m < 2 ^ top binary64 ->
  int_truediv n m = Ok (Fin (round_mag binary64 (n * 2 ^ ulp_exp) m)).
Proof.
  intros Hn Hm Hr. unfold int_truediv.
  destruct (Z.eqb_spec m 0); [lia|].
  assert (Hp : 0 < 2 ^ ulp_exp) by (apply Z.pow_pos_nonneg; unfold ulp_exp; lia).
  replace (Z.sgn m) with 1 by lia. replace (Z.abs m) with m by lia.
  rewrite Z.mul_1_r. unfold round.
  replace (Z.abs (n * 2 ^ ulp_exp)) with (n * 2 ^ ulp_exp) by nia.
  destruct (Z.leb_spec (2 ^ top binary64) (round_mag binary64 (n * 2 ^ ulp_exp) m));
    [lia|].
  replace (Z.sgn (n * 2 ^ ulp_exp)) with 1 by nia.
  rewrite Z.mul_1_l. reflexivity.
Qed.

Lemma megabytes_in_range n :
  0 < n -> n < 2 ^ 1024 ->
  round_mag binary64 (n * 2 ^ ulp_exp) (1024 * 1024) < 2 ^ top binary64.
Proof.
  intros Hn Hlt.
  assert (Hp : 0 < 2 ^ ulp_exp) by (apply Z.pow_pos_nonneg; unfold ulp_exp; lia).
  assert (H0 : 0 <= n * 2 ^ ulp_exp) by nia.
  assert (H1 : n * 2 ^ ulp_exp <= 2 ^ 2078 * (1024 * 1024)).
  { change (2 ^ 2078 * (1024 * 1024)) with (2 ^ 1024 * 2 ^ ulp_exp). nia. }
  pose proof (round_mag_le_pow2 binary64 binary64_prec binary64_qmin
                (1024 * 1024) ltac:(lia) (n * 2 ^ ulp_exp) 2078 H0
                ltac:(cbn [qmin binary64]; lia) H1) as H.
  assert (2 ^ 2078 < 2 ^ top binary64) by (apply Z.pow_lt_mono_r; cbn; lia).
  lia.
Qed.

Lemma megabytes_positive n :
  0 < n -> 2 ^ 1054 <= round_mag binary64 (n * 2 ^ ulp_exp) (1024 * 1024).
Proof.
  intros Hn.
  assert (Hp : 0 < 2 ^ ulp_exp) by (apply Z.pow_pos_nonneg; unfold ulp_exp; lia).
  assert (H1 : 2 ^ 1054 * (1024 * 1024) <= n * 2 ^ ulp_exp).
  { change (2 ^ 1054 * (1024 * 1024)) with (1 * 2 ^ ulp_exp). nia. }
  exact (round_mag_ge_pow2 binary64 binary64_prec binary64_qmin
           (1024 * 1024) ltac:(lia) (n * 2 ^ ulp_exp) 1054
           ltac:(cbn [qmin binary64]; lia) H1).
Qed.

(** A quotient of finite positive floats, numerator at least the
    denominator, is at least [1.0]. *)
Lemma div_ge_one a b :
  0 < b -> b <= a -> leb one (div (Fin a) (Fin b)) = true.
Proof.
  intros Hb Hab. unfold div.
  destruct (Z.eqb_spec b 0); [lia|].
  replace (Z.sgn b) with 1 by lia. replace (Z.abs b) with b by lia.
  rewrite Z.mul_1_r.
  assert (Hp : 0 < 2 ^ ulp_exp) by (apply Z.pow_pos_nonneg; unfold ulp_exp; lia).
  assert (Hr : 2 ^ ulp_exp <= round_mag binary64 (a * 2 ^ ulp_exp) b).
  { apply (round_mag_ge_pow2 binary64 binary64_prec binary64_qmin b Hb
             (a * 2 ^ ulp_exp) ulp_exp).
    - cbn [qmin binary64]. unfold ulp_exp. lia.
    - nia. }
  unfold round.
  replace (Z.abs (a * 2 ^ ulp_exp)) with (a * 2 ^ ulp_exp) by nia.
  destruct (Z.leb_spec (2 ^ top binary64) (round_mag binary64 (a * 2 ^ ulp_exp) b)).
  - destruct (Z.ltb_spec (a * 2 ^ ulp_exp) 0); [nia | reflexivity].
  - replace (Z.sgn (a * 2 ^ ulp_exp)) with 1 by nia.
    rewrite Z.mul_1_l. unfold one, leb. apply Z.leb_le. exact Hr.
Qed.

Lemma float_truediv_nonzero x b :
  b <> 0 -> float_truediv x (Fin b) = Ok (div x (Fin b)).
Proof.
  intros Hb. unfold float_truediv. destruct b; [contradiction | reflexivity | reflexivity].
Qed.

Lemma packed_le_loose h V D py_data :
  well_shaped V D py_data -> V * D * itemsize <= py_size h V D py_data.
Proof.
  intros [Hlen Hrows].
  pose proof (length_concat_uniform py_data D Hrows) as Hc. rewrite Hlen in Hc.
  unfold py_size, itemsize. pose proof (sizeof_nonneg h py_data).
  pose proof (rows_size_nonneg h py_data). lia.
Qed.

(** The report of [run_memory_test] on a non-empty collection whose
    estimate fits a float: its two sizes are the estimate and the size of
    the packed buffer, in megabytes, and its bloat is their quotient. *)
Lemma bloat_at_least_one h V D py_data :
  0 < V -> 0 < D ->
  well_shaped V D py_data ->
  py_size h V D py_data < 2 ^ 1024 ->
  exists r,
    run_memory_test_on h V D py_data = Ok r /\
    int_truediv (py_size h V D py_data) (1024 * 1024) = Ok (py_size_mb r) /\
    int_truediv (V * D * 4) (1024 * 1024) = Ok (mutatis_size_mb r) /\
    bloat r = div (py_size_mb r) (mutatis_size_mb r) /\
    leb (mutatis_size_mb r) (py_size_mb r) = true /\
    leb one (bloat r) = true.
Proof.
  intros HV HD W Hrange.
  destruct (packed_buffer_size V D ltac:(lia) ltac:(lia))
    as (buffer & _ & _ & _ & _ & Emut).
  pose proof (packed_le_loose h V D py_data W) as Hle. unfold itemsize in Hle.
  set (P := py_size h V D py_data) in *.
  assert (HM : 0 < V * D * 4) by nia.
  assert (HP : 0 < P) by lia.
  set (a := round_mag binary64 (P * 2 ^ ulp_exp) (1024 * 1024)).
  set (b := round_mag binary64 (V * D * 4 * 2 ^ ulp_exp) (1024 * 1024)).
  assert (Ea : int_truediv P (1024 * 1024) = Ok (Fin a)).
  { apply int_truediv_pos; try lia. apply megabytes_in_range; lia. }
  assert (Hab : b <= a).
  { assert (0 < 2 ^ ulp_exp) by (apply Z.pow_pos_nonneg; unfold ulp_exp; lia).
    apply (round_mag_mono binary64 binary64_prec binary64_qmin (1024 * 1024)
             ltac:(lia)). nia. }
  assert (Hb : 2 ^ 1054 <= b) by (apply megabytes_positive; lia).
  assert (Hb0 : 0 < b) by (assert (0 < 2 ^ 1054) by (apply Z.pow_pos_nonneg; lia); lia).
  assert (Eb : int_truediv (V * D * 4) (1024 * 1024) = Ok (Fin b)).
  { apply int_truediv_pos; try lia.
    pose proof (megabytes_in_range P HP Hrange) as Ha. fold a in Ha. lia. }
  assert (Epy : py_size_bytes h V D py_data
                = Ok (getsizeof h py_data
                      + V * getsizeof h (hd [] py_data) + V * D * 24)).
  { destruct W as [Hlen _]. destruct py_data; [cbn in Hlen; lia | reflexivity]. }
  exists {| py_size_mb := Fin a; mutatis_size_mb := Fin b;
            bloat := div (Fin a) (Fin b);
            scaled_mutatis := mul (div (Fin b) (Fin a)) (of_int 100) |}.
  cbn [py_size_mb mutatis_size_mb bloat].
  split; [| split; [exact Ea | split; [exact Eb | split; [reflexivity | split]]]].
  - unfold run_memory_test_on. rewrite Epy. cbn [bind]. fold P. rewrite Ea.
    cbn [bind]. rewrite Emut. cbn [bind]. rewrite Eb. cbn [bind].
    rewrite (float_truediv_nonzero (Fin a) b) by lia. cbn [bind].
    rewrite (float_truediv_nonzero (Fin b) a) by lia. cbn [bind].
    reflexivity.
  - unfold leb. apply Z.leb_le. exact Hab.
  - apply div_ge_one; lia.
Qed.

(** C5.  For every collection of [V] rows of [D] scalars the conversion
    to a packed float32 buffer succeeds and the estimate of the nested
    lists is at least the size in bytes of that buffer.  When the
    collection is not empty (and its estimate fits a float) that size is
    the one [run_memory_test] measures and the run returns its report:
    the two sizes of the report are the estimate and the size of the
    packed buffer, each divided by [1024 * 1024], the second is at most
    the first, and the bloat of the report is the quotient of the first
    by the second, which is at least [1.0]. *)
Theorem C5_loose_at_least_packed h V D py_data :
  well_shaped V D py_data ->
  exists packed,
    np_array py_data = Ok packed /\
    nbytes packed = V * D * itemsize /\
    nbytes packed <= py_size h V D py_data /\
    (0 < V -> 0 < D -> py_size h V D py_data < 2 ^ 1024 ->
     mutatis_size_bytes V D = Ok (nbytes packed) /\
     exists r,
       run_memory_test_on h V D py_data = Ok r /\
       int_truediv (py_size h V D py_data) (1024 * 1024)
         = Ok (py_size_mb r) /\
       int_truediv (nbytes packed) (1024 * 1024) = Ok (mutatis_size_mb r) /\
       bloat r = div (py_size_mb r) (mutatis_size_mb r) /\
       leb (mutatis_size_mb r) (py_size_mb r) = true /\
       leb one (bloat r) = true).
Proof.
  intros W.
  destruct (np_array_nbytes V D py_data W) as (packed & Epacked & Hn & _).
  exists packed. split; [exact Epacked | split; [exact Hn | split]].
  - rewrite Hn. apply packed_le_loose. exact W.
  - intros HV HD Hrange. split.
    + destruct (packed_buffer_size V D ltac:(lia) ltac:(lia))
        as (buffer & _ & _ & _ & _ & Emut).
      rewrite Hn. exact Emut.
    + rewrite Hn. unfold itemsize. apply bloat_at_least_one; assumption.
Qed.

Lemma C5_loose_at_least_packed_witness :
  well_shaped 2 3 [[zero; one; zero]; [one; zero; one]] /\
  nbytes (Array2 3 [[zero; one; zero]; [one; zero; one]])
    <= py_size cpython64 2 3 [[zero; one; zero]; [one; zero; one]] /\
  exists r,
    run_memory_test_on cpython64 2 3 [[zero; one; zero]; [one; zero; one]] = Ok r /\
    int_truediv (py_size cpython64 2 3 [[zero; one; zero]; [one; zero; one]])
      (1024 * 1024) = Ok (py_size_mb r) /\
    int_truediv (nbytes (Array2 3 [[zero; one; zero]; [one; zero; one]]))
      (1024 * 1024) = Ok (mutatis_size_mb r) /\
    bloat r = div (py_size_mb r) (mutatis_size_mb r) /\
    leb (mutatis_size_mb r) (py_size_mb r) = true /\
    leb one (bloat r) = true.
Proof.
  assert (W : well_shaped 2 3 [[zero; one; zero]; [one; zero; one]])
    by (split; [reflexivity | repeat constructor]).
  split; [exact W |].
  destruct (C5_loose_at_least_packed cpython64 2 3
              [[zero; one; zero]; [one; zero; one]] W)
    as (packed & Epacked & _ & Hle & Hrun).
  assert (Ep : packed = Array2 3 [[zero; one; zero]; [one; zero; one]]).
  { vm_compute in Epacked. injection Epacked as <-. reflexivity. }
  subst packed. split; [exact Hle |].
  apply Hrun; [lia | lia | vm_compute; reflexivity].
Defined.

End MemoryProperties.

(** ** The two throughput paths *)

Section ThroughputProperties.
Import Float Exn PyOps Numpy Throughput.

Lemma np_array_rank raw a :
  np_array raw = Ok a ->
  (exists xs, a = Array1 xs) \/ (exists d rows, a = Array2 d rows).
Proof.
  unfold np_array. destruct raw as [| first rest].
  - intros [= <-]. left. eauto.
  - destruct (forallb _ rest); [| discriminate].
    intros [= <-]. right. eauto.
Qed.

Lemma np_dot_mismatch sdot a q :
  (exists xs, a = Array1 xs) \/ (exists d rows, a = Array2 d rows) ->
  dimension a <> Z.of_nat (length q) ->
  np_dot sdot a q =
    Raise (ValueError_not_aligned (shape a) [Z.of_nat (length q)]).
Proof.
  intros [[xs ->] | (d & rows & ->)] Hne; cbn [dimension] in Hne; unfold np_dot.
  - destruct (Nat.eqb_spec (length xs) (length q)); [lia | reflexivity].
  - destruct (Nat.eqb_spec d (length q)); [lia | reflexivity].
Qed.

Lemma for_range_ok n xs :
  for_range n (Ok xs) = Ok (concat (repeat xs n)).
Proof.
  induction n as [| n IH]; cbn [for_range repeat concat bind].
  - reflexivity.
  - rewrite IH. reflexivity.
Qed.

(** C7.  When the width of the packed buffer and the length of the query
    differ, [np.dot] raises the "shapes not aligned" error, and so do the
    timed loop and the whole run: no report is produced. *)
Theorem C7_dimension_mismatch sdot perf_counter iterations raw_data query
    fast_buffer :
  0 < iterations ->
  np_array raw_data = Ok fast_buffer ->
  dimension fast_buffer <> Z.of_nat (length query) ->
  np_dot sdot fast_buffer query =
    Raise (ValueError_not_aligned (shape fast_buffer) [Z.of_nat (length query)]) /\
  mutatis_loop sdot iterations fast_buffer query =
    Raise (ValueError_not_aligned (shape fast_buffer) [Z.of_nat (length query)]) /\
  run_throughput_on sdot perf_counter iterations raw_data query =
    Raise (ValueError_not_aligned (shape fast_buffer) [Z.of_nat (length query)]).
Proof.
  intros Hit Hbuf Hne.
  pose proof (np_dot_mismatch sdot fast_buffer query
                (np_array_rank _ _ Hbuf) Hne) as Hdot.
  destruct (Z.to_nat iterations) as [| n] eqn:En; [lia |].
  split; [exact Hdot | split].
  - unfold mutatis_loop, mutatis_step. rewrite En, Hdot. reflexivity.
  - unfold run_throughput_on. rewrite Hbuf. cbn [bind].
    unfold standard_loop, standard_step. rewrite En, Hbuf, Hdot. reflexivity.
Qed.

Lemma C7_dimension_mismatch_witness :
  run_throughput_on sdot_sequential (fun _ => zero) ITERATIONS
    (repeat (repeat zero 128) 2) (repeat zero 64) =
  Raise (ValueError_not_aligned [2; 128] [64]).
Proof.
  refine (proj2 (proj2 (C7_dimension_mismatch sdot_sequential (fun _ => zero)
            ITERATIONS (repeat (repeat zero 128) 2) (repeat zero 64)
            (Array2 128 (repeat (repeat zero 128) 2)) _ _ _))).
  - reflexivity.
  - vm_compute. reflexivity.
  - vm_compute. discriminate.
Defined.



End ThroughputProperties.

(** ** The records the schema accepts and the errors of the others *)

Section SchemaProperties.
Import Float Py JsonSchema Exn PyOps Compliance SchemaReading.

Lemma iter_errors_object entries :
  iter_errors VECTOR_SCHEMA (PDict entries) =
    property_errors entries "id" [Ktype Tstring]
    ++ property_errors entries "vector" vector_schema
    ++ property_errors entries "payload" [Ktype Tobject]
    ++ required_errors entries ["id"; "vector"].
Proof.
  unfold property_errors, required_errors, iter_errors, vector_schema,
    VECTOR_SCHEMA, iter_errors_at.
  cbn [flat_map keyword_errors is_type app].
  destruct (lookup "id" entries), (lookup "vector" entries),
    (lookup "payload" entries);
    cbn [flat_map app]; rewrite ?app_nil_r, <- ?app_assoc; reflexivity.
Qed.

(** What [each_item] collects: the errors of every item, at its index. *)
Lemma each_item_incl check here i items k x :
  nth_error items k = Some x ->
  incl (check x (here ++ [Index (i + k)])) (each_item check here i items).
Proof.
  revert i k. induction items as [| y rest IH]; intros i k Hn.
  - destruct k; discriminate.
  - destruct k as [| k]; cbn [nth_error] in Hn; cbn [each_item].
    + injection Hn as ->. rewrite Nat.add_0_r. apply incl_appl, incl_refl.
    + apply incl_appr. replace (i + S k)%nat with (S i + k)%nat by lia.
      apply IH. exact Hn.
Qed.

Lemma number_errors_nil items here :
  keyword_errors (Kitems [Ktype Tnumber]) (PList items) here = [] <->
  forallb is_number items = true.
Proof.
  split.
  - intros E. apply forallb_forall. intros x Hin.
    apply In_nth_error in Hin. destruct Hin as [k Hk].
    cbn [keyword_errors] in E.
    match type of E with
    | each_item ?c _ _ _ = _ =>
        pose proof (each_item_incl c here 0%nat items k x Hk) as Hincl
    end.
    rewrite E in Hincl. cbn beta in Hincl.
    unfold is_number. destruct (is_type x Tnumber); [reflexivity |].
    exfalso. apply (Hincl _ (or_introl eq_refl)).
  - intros H. cbn [keyword_errors]. revert H. generalize 0%nat.
    induction items as [| y rest IH]; intros i H; cbn [each_item].
    + reflexivity.
    + cbn [forallb] in H. apply andb_prop in H. destruct H as [Hy Hrest].
      unfold is_number in Hy. rewrite Hy. cbn [app]. apply IH. exact Hrest.
Qed.

Lemma vector_errors_nil v here :
  iter_errors_at vector_schema v here = [] <-> vector_ok v = true.
Proof.
  unfold iter_errors_at, vector_schema. cbn [flat_map].
  destruct v as [| b | n | x | s | items | d];
    try (cbn [keyword_errors is_type vector_ok app]; split; discriminate).
  pose proof (number_errors_nil items here) as Hnum.
  destruct (keyword_errors (Kitems [Ktype Tnumber]) (PList items) here) as [| e es].
  - cbn [keyword_errors is_type vector_ok app].
    destruct (Nat.eqb_spec (length items) 1536) as [-> | Hne].
    + cbn. rewrite (proj1 Hnum eq_refl). split; reflexivity.
    + destruct (N.ltb_spec (N.of_nat (length items)) 1536);
        [cbn; split; discriminate |].
      destruct (N.ltb_spec 1536 (N.of_nat (length items)));
        [cbn; split; discriminate | lia].
  - cbn [keyword_errors is_type vector_ok app].
    assert (forallb is_number items = false).
    { destruct (forallb is_number items); [| reflexivity].
      pose proof (proj2 Hnum eq_refl). discriminate. }
    rewrite H, andb_false_r. split; discriminate.
Qed.

Lemma typed_errors_nil t v here :
  iter_errors_at [Ktype t] v here = [] <-> is_type v t = true.
Proof.
  unfold iter_errors_at. cbn [flat_map keyword_errors].
  destruct (is_type v t); cbn; split; (reflexivity || discriminate).
Qed.

Lemma required_errors_nil entries :
  required_errors entries ["id"; "vector"] = [] <->
  contains "id" entries = true /\ contains "vector" entries = true.
Proof.
  unfold required_errors. cbn [keyword_errors flat_map].
  destruct (contains "id" entries), (contains "vector" entries); cbn;
    split; try discriminate; try tauto; intros [? ?]; discriminate.
Qed.

Lemma app_nil_iff {A : Type} (l l' : list A) :
  l ++ l' = [] <-> l = [] /\ l' = [].
Proof.
  split; [apply app_eq_nil | intros [-> ->]; reflexivity].
Qed.

Lemma conforming_iff_no_error v :
  iter_errors VECTOR_SCHEMA v = [] <-> conforming v = true.
Proof.
  destruct v as [| b | n | x | s | items | entries];
    try (cbn; split; discriminate).
  rewrite iter_errors_object. unfold conforming, property_errors, contains.
  pose proof (required_errors_nil entries) as Hreq. unfold contains in Hreq.
  rewrite !app_nil_iff, Hreq. clear Hreq.
  destruct (lookup "id" entries) as [idv |];
    [| split; [intros (_ & _ & _ & H & _); discriminate | discriminate]].
  destruct (lookup "vector" entries) as [vec |];
    [| split; [intros (_ & _ & _ & _ & H); discriminate
              | rewrite andb_false_r; discriminate]].
  rewrite (typed_errors_nil Tstring idv), (vector_errors_nil vec).
  assert (Hpay : match lookup "payload" entries with
                 | Some child => iter_errors_at [Ktype Tobject] child [Key "payload"]
                 | None => []
                 end = [] <->
                 match lookup "payload" entries with
                 | None | Some (PDict _) => true
                 | Some _ => false
                 end = true).
  { destruct (lookup "payload" entries) as [pay |]; [| split; reflexivity].
    rewrite (typed_errors_nil Tobject pay). destruct pay; cbn; split; auto. }
  rewrite Hpay. unfold vector_ok.
  assert (Hid : is_type idv Tstring = true <->
                match idv with PStr _ => true | _ => false end = true)
    by (destruct idv; cbn; split; auto).
  rewrite Hid. rewrite !andb_true_iff.
  destruct vec; cbn; tauto.
Qed.

Lemma best_of_In rel best rest : In (best_of rel best rest) (best :: rest).
Proof.
  revert best. induction rest as [| e es IH]; intros best; cbn [best_of].
  - left. reflexivity.
  - destruct (rel e best).
    + right. apply IH.
    + destruct (IH best) as [H | H]; [left; exact H | right; right; exact H].
Qed.

Lemma validate_raises rel v errors :
  iter_errors VECTOR_SCHEMA v = errors -> errors <> [] ->
  exists e, In e errors /\ validate rel v VECTOR_SCHEMA = Raise (ValidationError e).
Proof.
  intros <- Hne. unfold validate.
  destruct (iter_errors VECTOR_SCHEMA v) as [| e es]; [contradiction |].
  exists (best_of rel e es). split; [apply best_of_In | reflexivity].
Qed.

(** X1.  [jsonschema.validate] against [VECTOR_SCHEMA] returns exactly
    on the conforming records: a dict whose ["id"] is a string, whose
    ["vector"] is a list of 1536 numbers and whose ["payload"], when
    present, is a dict.  On every other value it raises a
    [ValidationError] that is one of the errors of the instance, whatever
    the relevance order of [best_match]. *)
Theorem validate_accepts_exactly_conforming more_relevant v :
  if conforming v
  then validate more_relevant v VECTOR_SCHEMA = Ok tt
  else exists e,
         In e (iter_errors VECTOR_SCHEMA v) /\
         validate more_relevant v VECTOR_SCHEMA = Raise (ValidationError e).
Proof.
  pose proof (conforming_iff_no_error v) as H.
  destruct (conforming v).
  - unfold validate. rewrite (proj2 H eq_refl). reflexivity.
  - apply (validate_raises more_relevant v _ eq_refl).
    intros E. apply H in E. discriminate.
Qed.

Lemma in_property_errors entries e :
  In e (property_errors entries "vector" vector_schema) ->
  In e (iter_errors VECTOR_SCHEMA (PDict entries)).
Proof.
  intros H. rewrite iter_errors_object.
  apply in_or_app. right. apply in_or_app. left. exact H.
Qed.

(** X2.  A vector whose length is not 1536 has the error of its length
    among the errors of the record, at path ["vector"]: "is too short"
    of [minItems] below 1536 entries, "is too long" of [maxItems] above;
    and validation raises. *)
Theorem wrong_length_reported more_relevant entries items :
  lookup "vector" entries = Some (PList items) ->
  length items <> 1536%nat ->
  In (length_error items) (iter_errors VECTOR_SCHEMA (PDict entries)) /\
  exists e, validate more_relevant (PDict entries) VECTOR_SCHEMA
            = Raise (ValidationError e).
Proof.
  intros Hvec Hlen.
  assert (Hin : In (length_error items)
                   (iter_errors VECTOR_SCHEMA (PDict entries))).
  { apply in_property_errors. unfold property_errors. rewrite Hvec.
    unfold iter_errors_at, vector_schema, length_error.
    cbn [flat_map keyword_errors is_type app].
    apply in_or_app. right.
    destruct (Nat.ltb_spec (length items) 1536).
    - destruct (N.ltb_spec (N.of_nat (length items)) 1536); [| lia].
      left. reflexivity.
    - destruct (N.ltb_spec (N.of_nat (length items)) 1536); [lia |].
      destruct (N.ltb_spec 1536 (N.of_nat (length items))); [| lia].
      cbn [app]. left. reflexivity. }
  split; [exact Hin |].
  destruct (validate_raises more_relevant (PDict entries) _ eq_refl) as (e & _ & E).
  - intros E. rewrite E in Hin. contradiction.
  - exists e. exact E.
Qed.

Lemma wrong_length_reported_witness :
  In (length_error (repeat (PFloat zero) 1537))
     (iter_errors VECTOR_SCHEMA
        (PDict [("id", PStr "x");
                ("vector", PList (repeat (PFloat zero) 1537))])) /\
  exists e, validate higher_up
              (PDict [("id", PStr "x");
                      ("vector", PList (repeat (PFloat zero) 1537))])
              VECTOR_SCHEMA
            = Raise (ValidationError e).
Proof.
  apply (wrong_length_reported higher_up _ (repeat (PFloat zero) 1537)).
  - reflexivity.
  - rewrite repeat_length. lia.
Defined.

(** X3.  An entry of the vector that is not a number is reported at path
    ["vector", i] as not of type "number", and validation raises. *)
Theorem wrong_item_reported more_relevant entries items i x :
  lookup "vector" entries = Some (PList items) ->
  nth_error items i = Some x ->
  is_number x = false ->
  In (item_error i x) (iter_errors VECTOR_SCHEMA (PDict entries)) /\
  exists e, validate more_relevant (PDict entries) VECTOR_SCHEMA
            = Raise (ValidationError e).
Proof.
  intros Hvec Hnth Hnum.
  assert (Hin : In (item_error i x)
                   (iter_errors VECTOR_SCHEMA (PDict entries))).
  { apply in_property_errors. unfold property_errors. rewrite Hvec.
    unfold iter_errors_at, vector_schema.
    cbn [flat_map keyword_errors is_type app].
    match goal with
    | |- In _ (each_item ?c ?h ?n _ ++ _) =>
        pose proof (each_item_incl c h n items i x Hnth) as Hincl
    end.
    apply in_or_app. left. apply Hincl. cbn beta.
    destruct x; try discriminate Hnum; left; reflexivity. }
  split; [exact Hin |].
  destruct (validate_raises more_relevant (PDict entries) _ eq_refl) as (e & _ & E).
  - intros E. rewrite E in Hin. contradiction.
  - exists e. exact E.
Qed.

Lemma wrong_item_reported_witness :
  In (item_error 2 (PStr "a"))
     (iter_errors VECTOR_SCHEMA
        (PDict [("id", PStr "x");
                ("vector", PList [PInt 1; PFloat zero; PStr "a"])])) /\
  exists e, validate higher_up
              (PDict [("id", PStr "x");
                      ("vector", PList [PInt 1; PFloat zero; PStr "a"])])
              VECTOR_SCHEMA
            = Raise (ValidationError e).
Proof.
  apply (wrong_item_reported higher_up _ [PInt 1; PFloat zero; PStr "a"] 2
           (PStr "a")); reflexivity.
Defined.

(** X4.  An instance that is not an object has a single error, the type
    of the root, and that is the error raised: the other keywords ignore
    such an instance. *)
Theorem not_an_object more_relevant v :
  is_type v Tobject = false ->
  iter_errors VECTOR_SCHEMA v =
    [{| message := NotOfType Tobject; validator := Ktype Tobject;
        path := []; instance := v |}] /\
  validate more_relevant v VECTOR_SCHEMA =
    Raise (ValidationError
             {| message := NotOfType Tobject; validator := Ktype Tobject;
                path := []; instance := v |}).
Proof.
  intros Ht.
  assert (E : iter_errors VECTOR_SCHEMA v =
              [{| message := NotOfType Tobject; validator := Ktype Tobject;
                  path := []; instance := v |}]).
  { destruct v; try discriminate; reflexivity. }
  split; [exact E |]. unfold validate. rewrite E. reflexivity.
Qed.

Lemma not_an_object_witness :
  validate higher_up (PList [PFloat zero]) VECTOR_SCHEMA =
    Raise (ValidationError
             {| message := NotOfType Tobject; validator := Ktype Tobject;
                path := []; instance := PList [PFloat zero] |}).
Proof.
  apply (not_an_object higher_up (PList [PFloat zero])). reflexivity.
Defined.

(** X5.  A required property, ["id"] or ["vector"], that is absent is
    reported at the root as "is a required property", and validation
    raises. *)
Theorem missing_required_reported more_relevant entries name :
  In name ["id"; "vector"] ->
  lookup name entries = None ->
  In {| message := RequiredProperty name;
        validator := Krequired ["id"; "vector"];
        path := []; instance := PDict entries |}
     (iter_errors VECTOR_SCHEMA (PDict entries)) /\
  exists e, validate more_relevant (PDict entries) VECTOR_SCHEMA
            = Raise (ValidationError e).
Proof.
  intros Hname Hmiss.
  assert (Hin : In {| message := RequiredProperty name;
                      validator := Krequired ["id"; "vector"];
                      path := []; instance := PDict entries |}
                   (iter_errors VECTOR_SCHEMA (PDict entries))).
  { rewrite iter_errors_object. do 3 (apply in_or_app; right).
    unfold required_errors. cbn [keyword_errors].
    apply in_flat_map. exists name. split; [exact Hname |].
    unfold contains. rewrite Hmiss. left. reflexivity. }
  split; [exact Hin |].
  destruct (validate_raises more_relevant (PDict entries) _ eq_refl) as (e & _ & E).
  - intros E. rewrite E in Hin. contradiction.
  - exists e. exact E.
Qed.

Lemma missing_required_reported_witness :
  In {| message := RequiredProperty "vector";
        validator := Krequired ["id"; "vector"];
        path := []; instance := PDict [("id", PStr "x")] |}
     (iter_errors VECTOR_SCHEMA (PDict [("id", PStr "x")])) /\
  exists e, validate higher_up (PDict [("id", PStr "x")]) VECTOR_SCHEMA
            = Raise (ValidationError e).
Proof.
  apply (missing_required_reported higher_up [("id", PStr "x")] "vector").
  - right. left. reflexivity.
  - reflexivity.
Defined.

End SchemaProperties.

(** ** The precision audit on arbitrary values *)

Section AuditProperties.
Import Float Py JsonSchema Exn PyOps Compliance.

Lemma representable_zero fmt : 0 <= qmin fmt -> 0 <= top fmt -> representable fmt 0.
Proof.
  intros Hq Ht. split.
  - cbn [Z.abs]. apply Z.pow_pos_nonneg; lia.
  - cbn [Z.abs]. apply Z.mod_0_l.
    assert (0 < 2 ^ Z.max (bitlen 0 - prec fmt) (qmin fmt))
      by (apply Z.pow_pos_nonneg; lia). lia.
Qed.

Lemma sub_self k : sub (Fin k) (Fin k) = Fin 0.
Proof.
  unfold sub, neg, add. replace (k + - k) with 0 by lia.
  apply (round_representable binary64 binary64_prec binary64_qmin).
  apply representable_zero; cbn; lia.
Qed.

(** X6.  A value that is a binary32 number goes through [struct.pack]
    and [struct.unpack] unchanged: the delta of the audit is zero and the
    status PASS. *)
Theorem audit_exact_on_single k :
  representable binary32 k ->
  audit (Fin k) = Ok (Fin k, Fin 0) /\ precision_status (Fin 0) = PASS.
Proof.
  intros R.
  assert (E : to_single (Fin k) = Fin k)
    by (apply (round_representable binary32 binary32_prec binary32_qmin); exact R).
  split.
  - unfold audit, pack_f. rewrite E. cbn [bind].
    rewrite (unpack_pack_single k R). cbn [bind].
    rewrite sub_self. reflexivity.
  - vm_compute. reflexivity.
Qed.

Lemma audit_exact_on_single_witness :
  audit (Fin (3 * 2 ^ 1073)) = Ok (Fin (3 * 2 ^ 1073), Fin 0) /\
  precision_status (Fin 0) = PASS.
Proof.
  apply (audit_exact_on_single (3 * 2 ^ 1073)).
  split; vm_compute; reflexivity.
Defined.

(** Values from [2^128] on are refused by [pack]. *)
Lemma to_single_overflow k :
  2 ^ top binary32 <= Z.abs k -> to_single (Fin k) = Inf (k <? 0).
Proof.
  intros H. unfold to_single, round.
  pose proof (round_mag_ge_pow2 binary32 binary32_prec binary32_qmin 1
                ltac:(lia) (Z.abs k) (top binary32)
                ltac:(cbn; lia) ltac:(lia)) as Hr.
  destruct (Z.leb_spec (2 ^ top binary32) (round_mag binary32 (Z.abs k) 1));
    [reflexivity | lia].
Qed.

(** X7.  A finite value of magnitude [2^128] or more is refused by
    [struct.pack('<f', ...)] with [OverflowError].  Nothing catches it: a
    run of the suite on such a value ends after the schema table and the
    heading of the second test, without a precision row. *)
Theorem pack_overflow more_relevant request k :
  2 ^ 128 * 2 ^ ulp_exp <= Z.abs k ->
  pack_f (Fin k) = Raise (OverflowError "float too large to pack with f format") /\
  (validate more_relevant request VECTOR_SCHEMA = Ok tt ->
   run_compliance_on more_relevant request (Fin k) =
     (title_and_heading
        ++ [ CheckTable schema_rows;
             Heading "TEST 2: ZERO-COPY PRECISION LOSS ANALYSIS";
             Note "Verifying IEEE 754 Float32 adherence across data boundary..." ],
      Some (OverflowError "float too large to pack with f format"))).
Proof.
  intros H.
  assert (E : to_single (Fin k) = Inf (k <? 0)).
  { apply to_single_overflow.
    change (2 ^ top binary32) with (2 ^ 128 * 2 ^ ulp_exp). exact H. }
  assert (P : pack_f (Fin k)
              = Raise (OverflowError "float too large to pack with f format"))
    by (unfold pack_f; rewrite E; reflexivity).
  split; [exact P |].
  intros V. unfold run_compliance_on, audit. rewrite V, P. reflexivity.
Qed.

Lemma pack_overflow_witness :
  pack_f (Fin (2 ^ 1300))
    = Raise (OverflowError "float too large to pack with f format") /\
  run_compliance_on higher_up record_1536 (Fin (2 ^ 1300)) =
     (title_and_heading
        ++ [ CheckTable schema_rows;
             Heading "TEST 2: ZERO-COPY PRECISION LOSS ANALYSIS";
             Note "Verifying IEEE 754 Float32 adherence across data boundary..." ],
      Some (OverflowError "float too large to pack with f format")).
Proof.
  assert (H : 2 ^ 128 * 2 ^ ulp_exp <= Z.abs (2 ^ 1300))
    by (vm_compute; discriminate).
  destruct (pack_overflow higher_up record_1536 (2 ^ 1300) H) as [P R].
  split; [exact P |]. apply R. vm_compute. reflexivity.
Defined.

(** X8.  A value whose magnitude is at most the largest binary32 number
    is never refused: [pack] returns the four bytes of the binary32
    number the value rounds to, and [unpack] reads that number back. *)
Theorem pack_in_range k :
  Z.abs k <= max_single ->
  exists k',
    to_single (Fin k) = Fin k' /\ Z.abs k' <= max_single /\
    representable binary32 k' /\
    pack_f (Fin k) = Ok (le_split 4 (bits_of_single (Fin k'))) /\
    unpack_f (le_split 4 (bits_of_single (Fin k'))) = Ok (Fin k').
Proof.
  intros H.
  assert (Hq : quantum binary32 (Z.abs k) 1 <= 1178).
  { unfold quantum. rewrite Z.div_1_r. cbn [prec qmin binary32].
    assert (max_single < 2 ^ 1202) by (vm_compute; reflexivity).
    assert (bitlen (Z.abs k) <= 1202) by (apply bitlen_le_of_lt; lia).
    lia. }
  pose proof (quantum_nonneg binary32 binary32_prec binary32_qmin 1
                ltac:(lia) (Z.abs k)) as Hq0.
  assert (Hr : round_mag binary32 (Z.abs k) 1 <= max_single).
  { set (sh := quantum binary32 (Z.abs k) 1) in *.
    assert (Hm : max_single = (2 ^ 24 - 1) * 2 ^ (1178 - sh) * 2 ^ sh).
    { rewrite <- Z.mul_assoc, <- Z.pow_add_r by lia.
      replace (1178 - sh + sh) with 1178 by lia. reflexivity. }
    rewrite Hm.
    apply (round_mag_le binary32 binary32_prec binary32_qmin 1 ltac:(lia)).
    fold sh. rewrite <- Hm. lia. }
  assert (Ht : max_single < 2 ^ top binary32) by (vm_compute; reflexivity).
  pose proof (round_mag_nonneg binary32 binary32_prec binary32_qmin 1
                ltac:(lia) (Z.abs k) ltac:(lia)) as Hr0.
  assert (E : to_single (Fin k)
              = Fin (Z.sgn k * round_mag binary32 (Z.abs k) 1)).
  { unfold to_single, round.
    destruct (Z.leb_spec (2 ^ top binary32) (round_mag binary32 (Z.abs k) 1));
      [lia | reflexivity]. }
  assert (R : representable binary32 (Z.sgn k * round_mag binary32 (Z.abs k) 1)).
  { apply (round_finite_representable binary32 binary32_prec binary32_qmin k 1);
      [lia | exact E]. }
  eexists. split; [exact E | split; [| split; [exact R | split]]].
  - destruct (Z.sgn_spec k) as [[_ ->] | [[_ ->] | [_ ->]]]; lia.
  - unfold pack_f. rewrite E. reflexivity.
  - apply unpack_pack_single. exact R.
Qed.

Lemma pack_in_range_witness :
  exists k',
    to_single (Fin max_single) = Fin k' /\ Z.abs k' <= max_single /\
    representable binary32 k' /\
    pack_f (Fin max_single) = Ok (le_split 4 (bits_of_single (Fin k'))) /\
    unpack_f (le_split 4 (bits_of_single (Fin k'))) = Ok (Fin k').
Proof.
  apply (pack_in_range max_single). vm_compute. discriminate.
Defined.

(** X9.  Infinities and NaN are packed and unpacked unchanged; the delta
    is then NaN, which is not below the threshold, and the status is
    FAIL. *)
Theorem audit_not_finite x :
  (forall k, x <> Fin k) ->
  audit x = Ok (x, NaN) /\ precision_status NaN = FAIL.
Proof.
  intros H. split; [| reflexivity].
  destruct x as [k | [] |]; [exfalso; apply (H k); reflexivity | | |];
    vm_compute; reflexivity.
Qed.

Lemma audit_not_finite_witness :
  audit (Inf false) = Ok (Inf false, NaN) /\ precision_status NaN = FAIL.
Proof.
  apply (audit_not_finite (Inf false)). intros k. discriminate.
Defined.

(** The delta of the audit below a power of two. *)
Lemma audit_below_pow2 k j :
  representable binary64 k ->
  949 <= j <= 1201 ->
  Z.abs k <= 2 ^ j ->
  exists k',
    to_single (Fin k) = Fin k' /\
    audit (Fin k) = Ok (Fin k', Fin (Z.abs (k - k'))) /\
    Z.abs (k - k') <= 2 ^ (j - 25).
Proof.
  intros R Hj Hle.
  assert (Hpj : 0 < 2 ^ j) by (apply Z.pow_pos_nonneg; lia).
  assert (Hfin : exists k', to_single (Fin k) = Fin k').
  { unfold to_single, round.
    pose proof (round_mag_le_pow2 binary32 binary32_prec binary32_qmin 1
                  ltac:(lia) (Z.abs k) j ltac:(lia)
                  ltac:(cbn; lia) ltac:(lia)) as Hr.
    assert (2 ^ j < 2 ^ top binary32) by (apply Z.pow_lt_mono_r; cbn; lia).
    destruct (Z.leb_spec (2 ^ top binary32) (round_mag binary32 (Z.abs k) 1));
      [lia | eauto]. }
  destruct Hfin as [k' E]. exists k'. split; [exact E | split].
  - rewrite (audit_finite k k' R E), (sub_narrowed_exact k k' R E). reflexivity.
  - assert (Hp : 0 < 2 ^ (j - 25)) by (apply Z.pow_pos_nonneg; lia).
    destruct (Z.eq_dec (Z.abs k) (2 ^ j)) as [Htop | Hlow].
    + assert (R32 : representable binary32 k).
      { unfold representable. rewrite Htop. cbn [prec qmin top binary32]. split.
        - apply Z.pow_lt_mono_r; lia.
        - assert (Hb : bitlen (2 ^ j) = j + 1).
          { replace (2 ^ j) with (1 * 2 ^ j) by lia.
            rewrite bitlen_shift by lia. change (bitlen 1) with 1. lia. }
          rewrite Hb.
          replace (Z.max (j + 1 - 24) 925) with (j - 23) by lia.
          apply (mod_pow2_le _ _ j); [lia |].
          apply Z.mod_same. lia. }
      unfold to_single in E.
      rewrite (round_representable binary32 binary32_prec binary32_qmin k R32) in E.
      injection E as <-. replace (k - k) with 0 by lia. cbn [Z.abs]. lia.
    + pose proof (narrowing_error k k' E) as [Herr _].
      assert (Hq : quantum binary32 (Z.abs k) 1 <= j - 24).
      { unfold quantum. rewrite Z.div_1_r. cbn [prec qmin binary32].
        assert (bitlen (Z.abs k) <= j) by (apply bitlen_le_of_lt; lia).
        lia. }
      assert (2 ^ quantum binary32 (Z.abs k) 1 <= 2 ^ (j - 24))
        by (apply Z.pow_le_mono_r; lia).
      replace (j - 24) with (Z.succ (j - 25)) in * by lia.
      rewrite Z.pow_succ_r in * by lia. lia.
Qed.

(** X10.  The precision check passes for every double of magnitude at
    most [2.0], and the bound is sharp: the double [2 + 2^-23] is stored
    as [2.0], its delta [2^-23] is not below [1e-7] and the status is
    FAIL. *)
Theorem precision_passes_up_to_two :
  (forall k,
      representable binary64 k -> Z.abs k <= 2 * 2 ^ ulp_exp ->
      exists restored delta,
        audit (Fin k) = Ok (restored, delta) /\
        precision_status delta = PASS) /\
  representable binary64 ((2 ^ 24 + 1) * 2 ^ (ulp_exp - 23)) /\
  audit (Fin ((2 ^ 24 + 1) * 2 ^ (ulp_exp - 23)))
    = Ok (Fin (2 * 2 ^ ulp_exp), Fin (2 ^ (ulp_exp - 23))) /\
  precision_status (Fin (2 ^ (ulp_exp - 23))) = FAIL.
Proof.
  split; [| split; [| split]].
  - intros k R Hle.
    destruct (audit_below_pow2 k 1075 R ltac:(lia) Hle) as (k' & _ & A & Hd).
    exists (Fin k'), (Fin (Z.abs (k - k'))). split; [exact A |].
    unfold precision_status.
    assert (T : exists c, precision_threshold = Fin c /\ 2 ^ 1050 < c)
      by (eexists; split; vm_compute; reflexivity).
    destruct T as (c & -> & Hc). cbn [ltb].
    change (1075 - 25) with 1050 in Hd.
    destruct (Z.ltb_spec (Z.abs (k - k')) c); [reflexivity | lia].
  - split; vm_compute; reflexivity.
  - vm_compute. reflexivity.
  - vm_compute. reflexivity.
Qed.

Lemma precision_passes_up_to_two_witness :
  exists restored delta,
    audit (Fin (3 * 2 ^ 1040)) = Ok (restored, delta) /\
    precision_status delta = PASS.
Proof.
  apply (proj1 precision_passes_up_to_two (3 * 2 ^ 1040)).
  - split; vm_compute; reflexivity.
  - vm_compute. discriminate.
Defined.

(** Rounding gives a nearest number of the format. *)
Lemma round_mag_nearest fmt a b :
  1 <= prec fmt -> 0 <= qmin fmt ->
  0 <= a -> 0 <= b ->
  b mod 2 ^ Z.max (bitlen b - prec fmt) (qmin fmt) = 0 ->
  Z.abs (round_mag fmt a 1 - a) <= Z.abs (b - a).
Proof.
  intros Hprec Hqmin Ha Hb Rb.
  destruct (round_mag_multiple fmt Hprec Hqmin a 1 ltac:(lia) Ha) as (q & Hq & Er).
  pose proof (round_mag_error fmt Hprec Hqmin 1 ltac:(lia) a) as Err.
  rewrite Z.mul_1_r, Z.mul_1_l in Err.
  pose proof (quantum_nonneg fmt Hprec Hqmin 1 ltac:(lia) a) as Hsh0.
  assert (Hshdef : quantum fmt a 1 = Z.max (bitlen a - prec fmt) (qmin fmt))
    by (unfold quantum; rewrite Z.div_1_r; reflexivity).
  set (sh := quantum fmt a 1) in *.
  set (sb := Z.max (bitlen b - prec fmt) (qmin fmt)) in *.
  assert (HP : 0 < 2 ^ sh) by (apply Z.pow_pos_nonneg; lia).
  assert (Hsb0 : 0 <= sb) by (unfold sb; lia).
  assert (HPb : 0 < 2 ^ sb) by (apply Z.pow_pos_nonneg; lia).
  apply Z.mod_divide in Rb; [| lia]. destruct Rb as [c Hc].
  set (r := round_mag fmt a 1) in *.
  destruct (Z.le_gt_cases sh sb) as [Hle | Hgt].
  - (* [b] lies on the grid of [a] *)
    assert (Hm : exists m, b = m * 2 ^ sh).
    { exists (c * 2 ^ (sb - sh)). rewrite <- Z.mul_assoc, <- Z.pow_add_r by lia.
      replace (sb - sh + sh) with sb by lia. exact Hc. }
    destruct Hm as [m Hm].
    destruct (Z.lt_trichotomy m q) as [Hlt | [Heq | Hlt]].
    + assert (m * 2 ^ sh <= q * 2 ^ sh - 2 ^ sh) by nia. lia.
    + subst m. lia.
    + assert (q * 2 ^ sh + 2 ^ sh <= m * 2 ^ sh) by nia. lia.
  - (* [b] lies in a binade below [a] *)
    assert (Hsh : sh = bitlen a - prec fmt) by (unfold sb in *; lia).
    assert (Hbl : bitlen b < bitlen a) by (unfold sb in *; lia).
    assert (Ha0 : 0 < a).
    { destruct (Z.eq_dec a 0) as [-> |]; [| lia].
      change (bitlen 0) with 0 in Hbl. pose proof (bitlen_nonneg b). lia. }
    pose proof (bitlen_bounds a Ha0) as [HG _].
    pose proof (bitlen_upper b Hb) as Hbup.
    pose proof (bitlen_nonneg b) as Hbl0.
    set (G := 2 ^ (bitlen a - 1)) in *.
    assert (HGb : 2 ^ bitlen b <= G) by (apply Z.pow_le_mono_r; lia).
    assert (HGgrid : G = 2 ^ (prec fmt - 1) * 2 ^ sh).
    { unfold G. rewrite <- Z.pow_add_r by lia. f_equal. lia. }
    assert (HrG : G <= r).
    { rewrite HGgrid.
      apply (round_mag_ge fmt Hprec Hqmin 1 ltac:(lia)).
      fold sh. rewrite <- HGgrid. lia. }
    destruct (Z.le_gt_cases r a) as [Hra | Hra]; [lia |].
    assert (Hgap : 2 ^ sh <= 2 * (G - b)); [| lia].
    destruct (Z.eq_dec sb (sh - 1)) as [Hs1 | Hs1].
    + assert (HG2 : G = 2 ^ prec fmt * 2 ^ sb).
      { unfold G. rewrite <- Z.pow_add_r by lia. f_equal. lia. }
      assert (H2 : 2 ^ sh = 2 * 2 ^ sb).
      { replace sh with (Z.succ sb) by lia. apply Z.pow_succ_r. lia. }
      assert (c < 2 ^ prec fmt) by nia.
      assert (c * 2 ^ sb <= 2 ^ prec fmt * 2 ^ sb - 2 ^ sb) by nia.
      lia.
    + assert (Hb2 : bitlen b <= bitlen a - 2) by (unfold sb in *; lia).
      assert (2 ^ bitlen b <= 2 ^ (bitlen a - 2)) by (apply Z.pow_le_mono_r; lia).
      assert (HG2 : G = 2 * 2 ^ (bitlen a - 2)).
      { unfold G. replace (bitlen a - 1) with (Z.succ (bitlen a - 2)) by lia.
        apply Z.pow_succ_r. lia. }
      assert (2 ^ sh <= G).
      { unfold G. apply Z.pow_le_mono_r; lia. }
      lia.
Qed.

(** What a successful audit of a finite value returned. *)
Lemma audit_finite_inv k restored delta :
  representable binary64 k ->
  audit (Fin k) = Ok (restored, delta) ->
  exists k',
    to_single (Fin k) = Fin k' /\ restored = Fin k' /\
    delta = Fin (Z.abs (k - k')).
Proof.
  intros R A.
  destruct (to_single (Fin k)) as [k' | s |] eqn:E.
  - exists k'. split; [reflexivity |].
    rewrite (audit_finite k k' R E), (sub_narrowed_exact k k' R E) in A.
    injection A as <- <-. split; reflexivity.
  - unfold audit, pack_f in A. rewrite E in A. discriminate.
  - unfold to_single, round in E. destruct (_ <=? _); discriminate.
Qed.

(** X11.  The audit of a finite double stores a binary32 number nearest
    to it, and the delta it reports is the exact distance between the
    two: no binary32 number is closer to the value. *)
Theorem audit_stores_nearest k restored delta :
  representable binary64 k ->
  audit (Fin k) = Ok (restored, delta) ->
  exists k',
    restored = Fin k' /\ representable binary32 k' /\
    delta = Fin (Z.abs (k - k')) /\
    forall j, representable binary32 j -> Z.abs (k - k') <= Z.abs (k - j).
Proof.
  intros R A.
  destruct (audit_finite_inv k restored delta R A) as (k' & E & -> & ->).
  exists k'. split; [reflexivity | split; [| split; [reflexivity |]]].
  - unfold to_single in E.
    apply (round_finite_representable binary32 binary32_prec binary32_qmin k 1);
      [lia | exact E].
  - intros j [_ Rj].
    pose proof (round_mag_nearest binary32 (Z.abs k) (Z.abs j)
                  binary32_prec binary32_qmin ltac:(lia) ltac:(lia) Rj) as N.
    pose proof (round_mag_nonneg binary32 binary32_prec binary32_qmin 1
                  ltac:(lia) (Z.abs k) ltac:(lia)) as Hr0.
    apply to_single_finite in E.
    set (r := round_mag binary32 (Z.abs k) 1) in *.
    pose proof (round_mag_error_le_self binary32 binary32_prec binary32_qmin
                  (Z.abs k) ltac:(lia)) as Self.
    fold r in Self.
    assert (Hd : Z.abs (k - k') = Z.abs (r - Z.abs k)).
    { clearbody r. clear - E Hr0 Self. subst k'. lia. }
    clear - N Hd. lia.
Qed.

Lemma audit_stores_nearest_witness :
  exists k',
    stored_val = Fin k' /\ representable binary32 k' /\
    audit_delta = Fin (Z.abs (8895999191884126 * 2 ^ 1018 - k')) /\
    forall j, representable binary32 j ->
              Z.abs (8895999191884126 * 2 ^ 1018 - k')
              <= Z.abs (8895999191884126 * 2 ^ 1018 - j).
Proof.
  apply (audit_stores_nearest (8895999191884126 * 2 ^ 1018)).
  - split; vm_compute; reflexivity.
  - vm_compute. reflexivity.
Defined.

End AuditProperties.

(** ** Quotients and their rounding *)

Section QuotientProperties.
Import Float.

(** Rounding a quotient does not depend on how the fraction is written. *)
Lemma rne_div_scale n d c : 0 < d -> 0 < c -> rne_div (n * c) (d * c) = rne_div n d.
Proof.
  intros Hd Hc. unfold rne_div.
  rewrite Z.div_mul_cancel_r by lia.
  rewrite Z.mul_mod_distr_r by lia.
  destruct (Z.compare_spec (2 * (n mod d * c)) (d * c)),
           (Z.compare_spec (2 * (n mod d)) d); try reflexivity; nia.
Qed.

Lemma round_mag_scale fmt n d c :
  0 < d -> 0 < c -> round_mag fmt (n * c) (d * c) = round_mag fmt n d.
Proof.
  intros Hd Hc. unfold round_mag, quantum.
  rewrite Z.div_mul_cancel_r by lia. cbv zeta.
  set (sh := Z.max (bitlen (n / d) - prec fmt) (qmin fmt)).
  replace (d * c * 2 ^ sh) with (d * 2 ^ sh * c) by ring.
  destruct (Z.le_gt_cases 0 sh) as [Hsh | Hsh].
  - assert (0 < 2 ^ sh) by (apply Z.pow_pos_nonneg; lia).
    rewrite rne_div_scale by nia. reflexivity.
  - rewrite (Z.pow_neg_r 2 sh) by lia. rewrite !Z.mul_0_r. reflexivity.
Qed.

Lemma round_mag_cross_mono fmt n1 d1 n2 d2 :
  1 <= prec fmt -> 0 <= qmin fmt ->
  0 <= n1 -> 0 < d1 -> 0 < d2 -> n1 * d2 <= n2 * d1 ->
  round_mag fmt n1 d1 <= round_mag fmt n2 d2.
Proof.
  intros Hp Hq Hn Hd1 Hd2 H.
  rewrite <- (round_mag_scale fmt n1 d1 d2) by lia.
  rewrite <- (round_mag_scale fmt n2 d2 d1) by lia.
  replace (d2 * d1) with (d1 * d2) by ring.
  apply (round_mag_mono fmt Hp Hq (d1 * d2) ltac:(nia)). nia.
Qed.

(** A quotient that is a number of the format is not changed. *)
Lemma round_mag_exact_quot fmt N d :
  1 <= prec fmt -> 0 <= qmin fmt ->
  0 <= N -> 0 < d ->
  N mod 2 ^ Z.max (bitlen N - prec fmt) (qmin fmt) = 0 ->
  round_mag fmt (N * d) d = N.
Proof.
  intros Hp Hq HN Hd R.
  replace (N * d) with (N * d) by reflexivity.
  rewrite <- (Z.mul_1_l d) at 2.
  rewrite round_mag_scale by lia.
  apply (round_mag_exact fmt Hp Hq); assumption.
Qed.

(** Integers below [2^53] are binary64 numbers. *)
Lemma small_int_exact n :
  0 <= n < 2 ^ 53 ->
  (n * 2 ^ ulp_exp) mod
    2 ^ Z.max (bitlen (n * 2 ^ ulp_exp) - prec binary64) (qmin binary64) = 0.
Proof.
  intros [Hn Hlt]. cbn [prec qmin binary64].
  assert (Hp : 0 < 2 ^ ulp_exp) by (apply Z.pow_pos_nonneg; unfold ulp_exp; lia).
  destruct (Z.eq_dec n 0) as [-> | Hne].
  - rewrite Z.mul_0_l. apply Z.mod_0_l.
    assert (0 < 2 ^ Z.max (bitlen 0 - 53) 0) by (apply Z.pow_pos_nonneg; lia). lia.
  - rewrite bitlen_shift by (unfold ulp_exp; lia).
    assert (bitlen n <= 53) by (apply bitlen_le_of_lt; lia).
    pose proof (bitlen_nonneg n).
    apply (mod_pow2_le _ _ ulp_exp); [unfold ulp_exp in *; lia |].
    apply Z.mod_mul. lia.
Qed.

End QuotientProperties.

(** ** The memory report *)

Section MemoryReport.
Import Float Exn PyOps Numpy Memory.

Lemma fold_add_const {A : Type} (f : A -> Z) (l : list A) (c acc : Z) :
  Forall (fun x => f x = c) l ->
  fold_left Z.add (map f l) acc = acc + Z.of_nat (length l) * c.
Proof.
  intros H. revert acc. induction H as [| x rest Hx _ IH]; intros acc.
  - cbn. lia.
  - cbn [map fold_left length]. rewrite IH, Hx. lia.
Qed.

Lemma rows_size_uniform h V D (py_data : list (list float)) :
  well_shaped V D py_data ->
  sum (map (getsizeof h) py_data)
  = V * (Z.of_N (list_sizeof h (Z.to_nat D)) + Z.of_N (gc_header h)).
Proof.
  intros [Hlen Hrows]. unfold sum.
  rewrite (fold_add_const _ _
             (Z.of_N (list_sizeof h (Z.to_nat D)) + Z.of_N (gc_header h))).
  - rewrite Hlen. lia.
  - eapply Forall_impl; [| exact Hrows]. intros row Hrow. cbn beta in Hrow.
    unfold getsizeof. replace (Z.to_nat D) with (length row) by lia.
    reflexivity.
Qed.

Lemma py_size_bytes_uniform h V D py_data :
  0 < V ->
  well_shaped V D py_data ->
  py_size_bytes h V D py_data
  = Ok (py_size h V D py_data + Z.of_N (gc_header h)).
Proof.
  intros HV W. pose proof (rows_size_uniform h V D py_data W) as Hsum.
  destruct W as [Hlen Hrows].
  destruct py_data as [| row0 rest]; [cbn in Hlen; lia |].
  unfold py_size_bytes, py_size. rewrite Hsum.
  pose proof (Forall_inv Hrows) as H0. cbn beta in H0.
  unfold getsizeof at 2. replace (length row0) with (Z.to_nat D) by lia.
  unfold getsizeof, sizeof. f_equal. lia.
Qed.

(** X12.  The figure of line 32, [py_size_bytes], which is computed and
    not used afterwards, exceeds the figure of line 33, the one that is
    reported, by the collector's header of the outer list, for every
    non-empty collection of [V] rows of [D] scalars. *)
Theorem unused_estimate_exceeds_reported h V D py_data :
  0 < V ->
  well_shaped V D py_data ->
  py_size_bytes h V D py_data
  = Ok (py_size h V D py_data + Z.of_N (gc_header h)).
Proof. exact (py_size_bytes_uniform h V D py_data). Qed.

Lemma unused_estimate_exceeds_reported_witness :
  py_size_bytes cpython64 2 3 [[zero; one; zero]; [one; zero; one]]
  = Ok (py_size cpython64 2 3 [[zero; one; zero]; [one; zero; one]]
        + Z.of_N (gc_header cpython64)).
Proof.
  apply (unused_estimate_exceeds_reported cpython64 2 3).
  - lia.
  - split; [reflexivity | repeat constructor].
Defined.

(** X13.  With [VECTORS <= 0] the comprehension builds the empty list
    and the run stops at [py_data[0]] of line 32 with [IndexError]. *)
Theorem empty_collection_index_error h random V D :
  V <= 0 ->
  generate random V D = [] /\
  run_memory_test_on h V D (generate random V D)
  = Raise (IndexError "list index out of range").
Proof.
  intros HV.
  assert (E : generate random V D = []).
  { unfold generate. replace (Z.to_nat V) with 0%nat by lia. reflexivity. }
  split; [exact E |]. rewrite E. reflexivity.
Qed.

Lemma empty_collection_index_error_witness :
  generate (fun _ => zero) 0 1536 = [] /\
  run_memory_test_on cpython64 0 1536 (generate (fun _ => zero) 0 1536)
  = Raise (IndexError "list index out of range").
Proof.
  apply (empty_collection_index_error cpython64 (fun _ => zero) 0 1536). lia.
Defined.

(** Integer division by [1024 * 1024] of a size that fits a float. *)
Lemma megabytes_finite n :
  0 <= n < 2 ^ 1024 ->
  int_truediv n (1024 * 1024)
  = Ok (Fin (round_mag binary64 (n * 2 ^ ulp_exp) (1024 * 1024))).
Proof.
  intros [Hn Hlt]. destruct (Z.eq_dec n 0) as [-> | Hne].
  - vm_compute. reflexivity.
  - apply int_truediv_pos; try lia. apply megabytes_in_range; lia.
Qed.

(** X14.  With [DIMS = 0] the packed buffer has no byte, its size in
    megabytes is [0.0] and the run stops at the ratio
    [py_size_mb / mutatis_size_mb] with [ZeroDivisionError]. *)
Theorem zero_dimension_division_error h V py_data :
  0 < V ->
  well_shaped V 0 py_data ->
  py_size h V 0 py_data < 2 ^ 1024 ->
  run_memory_test_on h V 0 py_data
  = Raise (ZeroDivisionError "float division by zero").
Proof.
  intros HV W Hrange.
  pose proof (py_size_bytes_uniform h V 0 py_data HV W) as Epy.
  assert (HP : 0 <= py_size h V 0 py_data).
  { unfold py_size. pose proof (sizeof_nonneg h py_data).
    pose proof (rows_size_nonneg h py_data). lia. }
  unfold run_memory_test_on. rewrite Epy. cbn [bind].
  rewrite (megabytes_finite (py_size h V 0 py_data)) by lia. cbn [bind].
  destruct (packed_buffer_size V 0 ltac:(lia) ltac:(lia))
    as (buffer & _ & _ & _ & _ & Emut).
  rewrite Emut. cbn [bind].
  replace (V * 0 * 4) with 0 by lia.
  change (int_truediv 0 (1024 * 1024)) with (Ok (Fin 0)).
  reflexivity.
Qed.

Lemma zero_dimension_division_error_witness :
  run_memory_test_on cpython64 2 0 [[]; []]
  = Raise (ZeroDivisionError "float division by zero").
Proof.
  apply (zero_dimension_division_error cpython64 2 [[]; []]).
  - lia.
  - split; [reflexivity | repeat constructor].
  - vm_compute. reflexivity.
Defined.

(** X15.  The estimate and the report depend on the shape of the data
    only: two collections of [V] rows of [D] scalars give the same
    estimate and the same outcome, whatever the scalars. *)
Theorem report_depends_on_shape_only h V D data1 data2 :
  well_shaped V D data1 ->
  well_shaped V D data2 ->
  py_size h V D data1 = py_size h V D data2 /\
  run_memory_test_on h V D data1 = run_memory_test_on h V D data2.
Proof.
  intros W1 W2.
  assert (Hsize : py_size h V D data1 = py_size h V D data2).
  { unfold py_size.
    rewrite (rows_size_uniform h V D data1 W1), (rows_size_uniform h V D data2 W2).
    unfold sizeof. destruct W1 as [L1 _], W2 as [L2 _].
    replace (length data1) with (length data2) by lia. reflexivity. }
  split; [exact Hsize |].
  destruct (Z.le_gt_cases V 0) as [HV | HV].
  - destruct W1 as [L1 _], W2 as [L2 _].
    destruct data1; [| cbn in L1; lia]. destruct data2; [| cbn in L2; lia].
    reflexivity.
  - unfold run_memory_test_on.
    rewrite (py_size_bytes_uniform h V D data1 ltac:(lia) W1).
    rewrite (py_size_bytes_uniform h V D data2 ltac:(lia) W2).
    cbn [bind]. rewrite Hsize. reflexivity.
Qed.

Lemma report_depends_on_shape_only_witness :
  py_size cpython64 1 2 [[zero; one]] = py_size cpython64 1 2 [[one; one]] /\
  run_memory_test_on cpython64 1 2 [[zero; one]]
  = run_memory_test_on cpython64 1 2 [[one; one]].
Proof.
  apply (report_depends_on_shape_only cpython64 1 2);
    (split; [reflexivity | repeat constructor]).
Defined.

Lemma round_mag_zero fmt d :
  1 <= prec fmt -> 0 <= qmin fmt -> 0 < d -> round_mag fmt 0 d = 0.
Proof.
  intros Hp Hq Hd.
  apply (round_mag_exact_quot fmt 0 d Hp Hq); try lia. apply Zmod_0_l.
Qed.

(** Rounding a non-negative quotient. *)
Lemma round_nonneg fmt n d :
  1 <= prec fmt -> 0 <= qmin fmt -> 0 <= n -> 0 < d ->
  round fmt n d
  = if 2 ^ top fmt <=? round_mag fmt n d then Inf false
    else Fin (round_mag fmt n d).
Proof.
  intros Hp Hq Hn Hd. unfold round. rewrite (Z.abs_eq n) by lia.
  destruct (Z.leb_spec (2 ^ top fmt) (round_mag fmt n d)).
  - destruct (Z.ltb_spec n 0); [lia | reflexivity].
  - destruct (Z.eq_dec n 0) as [-> | Hne].
    + rewrite round_mag_zero by assumption. reflexivity.
    + replace (Z.sgn n) with 1 by lia. rewrite Z.mul_1_l. reflexivity.
Qed.

(** Integers below [2^53], scaled by a power of two, are binary64
    numbers. *)
Lemma shifted_int_exact n j :
  0 <= n < 2 ^ 53 -> 0 <= j ->
  (n * 2 ^ j) mod
    2 ^ Z.max (bitlen (n * 2 ^ j) - prec binary64) (qmin binary64) = 0.
Proof.
  intros [Hn Hlt] Hj. cbn [prec qmin binary64].
  assert (Hp : 0 < 2 ^ j) by (apply Z.pow_pos_nonneg; lia).
  destruct (Z.eq_dec n 0) as [-> | Hne].
  - rewrite Z.mul_0_l. apply Zmod_0_l.
  - rewrite bitlen_shift by lia.
    assert (bitlen n <= 53) by (apply bitlen_le_of_lt; lia).
    pose proof (bitlen_nonneg n).
    apply (mod_pow2_le _ _ j); [lia |].
    apply Z.mod_mul. lia.
Qed.

(** A byte count below [2^53] is converted to megabytes without
    rounding. *)
Lemma megabytes_exact n :
  0 <= n < 2 ^ 53 ->
  round_mag binary64 (n * 2 ^ ulp_exp) (1024 * 1024) = n * 2 ^ (ulp_exp - 20).
Proof.
  intros Hn.
  replace (n * 2 ^ ulp_exp) with (n * 2 ^ (ulp_exp - 20) * (1024 * 1024)).
  - apply (round_mag_exact_quot binary64 _ _ binary64_prec binary64_qmin).
    + assert (0 < 2 ^ (ulp_exp - 20)) by (apply Z.pow_pos_nonneg; unfold ulp_exp; lia).
      nia.
    + lia.
    + apply shifted_int_exact; [exact Hn | unfold ulp_exp; lia].
  - change (1024 * 1024) with (2 ^ 20). rewrite <- Z.mul_assoc.
    rewrite <- Z.pow_add_r by (unfold ulp_exp; lia).
    replace (ulp_exp - 20 + 20) with ulp_exp by (unfold ulp_exp; lia).
    reflexivity.
Qed.

Lemma sixth_times_hundred :
  round_mag binary64 (round_mag binary64 (2 ^ ulp_exp) 6 * (100 * 2 ^ ulp_exp))
    (2 ^ ulp_exp)
  < 17 * 2 ^ ulp_exp.
Proof. vm_compute. reflexivity. Qed.

Lemma of_int_6 : of_int 6 = Fin (6 * 2 ^ ulp_exp).
Proof. vm_compute. reflexivity. Qed.

Lemma of_int_17 : of_int 17 = Fin (17 * 2 ^ ulp_exp).
Proof. vm_compute. reflexivity. Qed.

Lemma of_int_100 : of_int 100 = Fin (100 * 2 ^ ulp_exp).
Proof. vm_compute. reflexivity. Qed.

(** At least six times the divisor gives a quotient of at least [6.0]. *)
Lemma div_ge_six a b :
  0 < b -> 6 * b <= a -> leb (of_int 6) (div (Fin a) (Fin b)) = true.
Proof.
  intros Hb Hab. rewrite of_int_6. unfold div.
  destruct (Z.eqb_spec b 0); [lia |].
  replace (Z.sgn b) with 1 by lia. rewrite (Z.abs_eq b) by lia.
  rewrite Z.mul_1_r.
  assert (Hp : 0 < 2 ^ ulp_exp) by (apply Z.pow_pos_nonneg; unfold ulp_exp; lia).
  rewrite round_nonneg by (try apply binary64_prec; try apply binary64_qmin; nia).
  assert (Hr : 6 * 2 ^ ulp_exp <= round_mag binary64 (a * 2 ^ ulp_exp) b).
  { rewrite <- (round_mag_exact_quot binary64 (6 * 2 ^ ulp_exp) b
                  binary64_prec binary64_qmin ltac:(lia) Hb
                  (small_int_exact 6 ltac:(lia))).
    apply (round_mag_mono binary64 binary64_prec binary64_qmin b Hb). nia. }
  destruct (Z.leb_spec (2 ^ top binary64) (round_mag binary64 (a * 2 ^ ulp_exp) b)).
  - reflexivity.
  - unfold leb. apply Z.leb_le. exact Hr.
Qed.

(** At most a sixth of the divisor gives, as a percentage, less than
    [17.0]. *)
Lemma percent_below_seventeen a b :
  0 < b -> 6 * b <= a ->
  ltb (mul (div (Fin b) (Fin a)) (of_int 100)) (of_int 17) = true.
Proof.
  intros Hb Hab. rewrite of_int_17, of_int_100. unfold div.
  destruct (Z.eqb_spec a 0); [lia |].
  replace (Z.sgn a) with 1 by lia. rewrite (Z.abs_eq a) by lia.
  rewrite Z.mul_1_r.
  assert (Hp : 0 < 2 ^ ulp_exp) by (apply Z.pow_pos_nonneg; unfold ulp_exp; lia).
  rewrite round_nonneg by (try apply binary64_prec; try apply binary64_qmin; nia).
  set (x := round_mag binary64 (b * 2 ^ ulp_exp) a).
  assert (Hx0 : 0 <= x).
  { apply (round_mag_nonneg binary64 binary64_prec binary64_qmin a ltac:(lia)). nia. }
  set (sixth := round_mag binary64 (2 ^ ulp_exp) 6).
  assert (Hxs : x <= sixth).
  { apply round_mag_cross_mono; try apply binary64_prec; try apply binary64_qmin;
      try lia; nia. }
  assert (Hs : sixth < 2 ^ top binary64) by (vm_compute; reflexivity).
  destruct (Z.leb_spec (2 ^ top binary64) x); [lia |].
  unfold mul.
  rewrite round_nonneg by (try apply binary64_prec; try apply binary64_qmin; nia).
  assert (Hy : round_mag binary64 (x * (100 * 2 ^ ulp_exp)) (2 ^ ulp_exp)
               < 17 * 2 ^ ulp_exp).
  { eapply Z.le_lt_trans; [| exact sixth_times_hundred]. fold sixth.
    apply (round_mag_mono binary64 binary64_prec binary64_qmin (2 ^ ulp_exp) Hp).
    nia. }
  assert (Ht : 17 * 2 ^ ulp_exp < 2 ^ top binary64) by (vm_compute; reflexivity).
  destruct (Z.leb_spec (2 ^ top binary64)
              (round_mag binary64 (x * (100 * 2 ^ ulp_exp)) (2 ^ ulp_exp))); [lia |].
  unfold ltb. apply Z.ltb_lt. exact Hy.
Qed.

(** X16.  For a non-empty collection with [V * D * 24 < 2^53] (and an
    estimate that fits a float) the run returns its report; the packed
    size is the exact number of megabytes [V * D * 4 / 2^20], the waste
    factor is at least [6.0] and the bar of the packed buffer is below
    17 of 100, on any host: the "over 80%" of the last panel. *)
Theorem waste_factor_at_least_six h V D py_data :
  0 < V -> 0 < D -> V * D * 24 < 2 ^ 53 ->
  well_shaped V D py_data ->
  py_size h V D py_data < 2 ^ 1024 ->
  exists r,
    run_memory_test_on h V D py_data = Ok r /\
    mutatis_size_mb r = Fin (V * D * 4 * 2 ^ (ulp_exp - 20)) /\
    leb (of_int 6) (bloat r) = true /\
    ltb (scaled_mutatis r) (of_int 17) = true.
Proof.
  intros HV HD Hsmall W Hrange.
  destruct (packed_buffer_size V D ltac:(lia) ltac:(lia))
    as (buffer & _ & _ & _ & _ & Emut).
  assert (Hle : V * D * 24 <= py_size h V D py_data).
  { unfold py_size. pose proof (sizeof_nonneg h py_data).
    pose proof (rows_size_nonneg h py_data). lia. }
  pose proof (py_size_bytes_uniform h V D py_data HV W) as Epy.
  set (P := py_size h V D py_data) in *.
  assert (HM : 0 < V * D * 4) by nia.
  assert (HP : 0 < P) by lia.
  assert (Hp : 0 < 2 ^ ulp_exp) by (apply Z.pow_pos_nonneg; unfold ulp_exp; lia).
  assert (Hq : 0 < 2 ^ (ulp_exp - 20)) by (apply Z.pow_pos_nonneg; unfold ulp_exp; lia).
  set (a := round_mag binary64 (P * 2 ^ ulp_exp) (1024 * 1024)).
  set (b := V * D * 4 * 2 ^ (ulp_exp - 20)).
  assert (Hb : round_mag binary64 (V * D * 4 * 2 ^ ulp_exp) (1024 * 1024) = b)
    by (apply megabytes_exact; lia).
  assert (Ha6 : 6 * b <= a).
  { replace (6 * b) with (V * D * 24 * 2 ^ (ulp_exp - 20)) by (unfold b; ring).
    rewrite <- (megabytes_exact (V * D * 24)) by lia.
    apply (round_mag_mono binary64 binary64_prec binary64_qmin (1024 * 1024)
             ltac:(lia)). nia. }
  assert (Hb0 : 0 < b) by (unfold b; nia).
  assert (Ea : int_truediv P (1024 * 1024) = Ok (Fin a)).
  { apply int_truediv_pos; try lia. apply megabytes_in_range; lia. }
  assert (Eb : int_truediv (V * D * 4) (1024 * 1024) = Ok (Fin b)).
  { rewrite <- Hb. apply int_truediv_pos; try lia.
    pose proof (megabytes_in_range P HP Hrange) as Ha. fold a in Ha.
    rewrite Hb. lia. }
  eexists. split; [| split; [| split]].
  - unfold run_memory_test_on. rewrite Epy. cbn [bind]. fold P. rewrite Ea.
    cbn [bind]. rewrite Emut. cbn [bind]. rewrite Eb. cbn [bind].
    rewrite (float_truediv_nonzero (Fin a) b) by lia. cbn [bind].
    rewrite (float_truediv_nonzero (Fin b) a) by lia. cbn [bind].
    reflexivity.
  - reflexivity.
  - cbn [bloat]. apply div_ge_six; lia.
  - cbn [scaled_mutatis]. apply percent_below_seventeen; lia.
Qed.

Lemma waste_factor_at_least_six_witness :
  exists r,
    run_memory_test_on cpython64 2 3 [[zero; one; zero]; [one; zero; one]] = Ok r /\
    mutatis_size_mb r = Fin (2 * 3 * 4 * 2 ^ (ulp_exp - 20)) /\
    leb (of_int 6) (bloat r) = true /\
    ltb (scaled_mutatis r) (of_int 17) = true.
Proof.
  apply (waste_factor_at_least_six cpython64 2 3
           [[zero; one; zero]; [one; zero; one]]).
  - lia.
  - lia.
  - vm_compute. reflexivity.
  - split; [reflexivity | repeat constructor].
  - vm_compute. reflexivity.
Defined.

End MemoryReport.

(** ** The throughput report *)

Section ThroughputReport.
Import Float Exn PyOps Numpy Throughput.

Lemma generate_well_shaped random V D :
  0 <= V -> 0 <= D -> Memory.well_shaped V D (Memory.generate random V D).
Proof.
  intros HV HD. unfold Memory.well_shaped, Memory.generate. split.
  - rewrite length_map, length_seq. lia.
  - apply Forall_forall. intros row Hin. apply in_map_iff in Hin.
    destruct Hin as (i & <- & _). rewrite length_map, length_seq. lia.
Qed.

Lemma length_random_float32 draw n :
  0 <= n -> Z.of_nat (length (random_float32 draw n)) = n.
Proof.
  intros Hn. unfold random_float32. rewrite length_map, length_seq. lia.
Qed.

(** The conversion of [V > 0] rows of [D] scalars. *)
Lemma np_array_well_shaped V D raw :
  0 < V -> Memory.well_shaped V D raw ->
  np_array raw = Ok (Array2 (Z.to_nat D) (map (map to_single) raw)).
Proof.
  intros HV [Hlen Hrows]. destruct raw as [| first rest]; [cbn in Hlen; lia |].
  unfold np_array.
  pose proof (Forall_inv Hrows) as Hfirst. cbn beta in Hfirst.
  assert (Hall : forallb (fun row => (length row =? length first)%nat) rest = true).
  { apply forallb_forall. intros row Hin. apply Nat.eqb_eq.
    pose proof (Forall_inv_tail Hrows) as Hrest.
    rewrite Forall_forall in Hrest. specialize (Hrest row Hin). cbn beta in Hrest.
    lia. }
  rewrite Hall. replace (Z.to_nat D) with (length first) by lia. reflexivity.
Qed.

(** The timed loops on aligned shapes return. *)
Lemma loops_return sdot iterations V D raw query :
  0 < V -> Memory.well_shaped V D raw -> Z.of_nat (length query) = D ->
  exists buffer std mut,
    np_array raw = Ok buffer /\
    standard_loop sdot iterations raw buffer query = Ok std /\
    mutatis_loop sdot iterations buffer query = Ok mut.
Proof.
  intros HV W Hq.
  pose proof (np_array_well_shaped V D raw HV W) as Hbuf.
  exists (Array2 (Z.to_nat D) (map (map to_single) raw)).
  assert (Hdot : np_dot sdot (Array2 (Z.to_nat D) (map (map to_single) raw)) query
                 = Ok (Array1 (map (fun row => sdot row query)
                                   (map (map to_single) raw)))).
  { unfold np_dot. destruct (Nat.eqb_spec (Z.to_nat D) (length query)); [reflexivity | lia]. }
  unfold standard_loop, mutatis_loop, standard_step, mutatis_step.
  rewrite Hbuf, Hdot. cbn [bind]. rewrite !for_range_ok.
  eexists. eexists. split; [reflexivity | split; reflexivity].
Qed.

(** The report of a run on aligned shapes is computed from the clock
    readings and the number of iterations alone. *)
Lemma run_throughput_on_clock sdot perf_counter iterations V D raw query :
  0 < V -> Memory.well_shaped V D raw -> Z.of_nat (length query) = D ->
  run_throughput_on sdot perf_counter iterations raw query
  = let d_std := sub (perf_counter 1%nat) (perf_counter 0%nat) in
    let d_mut := sub (perf_counter 3%nat) (perf_counter 2%nat) in
    let* q_std := int_float_truediv iterations d_std in
    let* q_mut := int_float_truediv iterations d_mut in
    let* ratio := float_truediv q_mut q_std in
    Ok {| duration_std := d_std; qps_std := q_std;
          duration_mut := d_mut; qps_mut := q_mut;
          more_users := ratio |}.
Proof.
  intros HV W Hq.
  destruct (loops_return sdot iterations V D raw query HV W Hq)
    as (buffer & std & mut & Hbuf & Hstd & Hmut).
  unfold run_throughput_on. rewrite Hbuf. cbn [bind]. rewrite Hstd. cbn [bind].
  destruct (int_float_truediv iterations
              (sub (perf_counter 1%nat) (perf_counter 0%nat))); cbn [bind];
    [| reflexivity].
  rewrite Hmut. cbn [bind]. reflexivity.
Qed.

(** X17.  The figures of the throughput report do not depend on the
    vectors, the query or the kernel: two runs on aligned shapes that
    read the same clock values give the same outcome. *)
Theorem report_depends_on_clock_only sdot1 sdot2 perf_counter iterations
    V1 V2 D1 D2 raw1 raw2 query1 query2 :
  0 < V1 -> 0 < V2 ->
  Memory.well_shaped V1 D1 raw1 -> Memory.well_shaped V2 D2 raw2 ->
  Z.of_nat (length query1) = D1 -> Z.of_nat (length query2) = D2 ->
  run_throughput_on sdot1 perf_counter iterations raw1 query1
  = run_throughput_on sdot2 perf_counter iterations raw2 query2.
Proof.
  intros HV1 HV2 W1 W2 Hq1 Hq2.
  rewrite (run_throughput_on_clock sdot1 perf_counter iterations V1 D1 raw1 query1)
    by assumption.
  rewrite (run_throughput_on_clock sdot2 perf_counter iterations V2 D2 raw2 query2)
    by assumption.
  reflexivity.
Qed.

Lemma report_depends_on_clock_only_witness :
  run_throughput_on sdot_sequential (fun i => of_int (Z.of_nat i)) 2
    [[one; one]; [zero; one]] [one; one]
  = run_throughput_on (fun _ _ => zero) (fun i => of_int (Z.of_nat i)) 2
      [[zero; zero; zero]] [one; zero; one].
Proof.
  apply (report_depends_on_clock_only sdot_sequential (fun _ _ => zero)
           (fun i => of_int (Z.of_nat i)) 2 2 1 2 3).
  - lia.
  - lia.
  - split; [reflexivity | repeat constructor].
  - split; [reflexivity | repeat constructor].
  - reflexivity.
  - reflexivity.
Defined.

Lemma float_of_int_small n :
  0 <= n < 2 ^ 53 -> float_of_int n = Ok (Fin (n * 2 ^ ulp_exp)).
Proof.
  intros Hn. unfold float_of_int, of_int.
  assert (Hp : 0 < 2 ^ ulp_exp) by (apply Z.pow_pos_nonneg; unfold ulp_exp; lia).
  rewrite round_nonneg by (try apply binary64_prec; try apply binary64_qmin; nia).
  rewrite (round_mag_exact binary64 binary64_prec binary64_qmin)
    by (try nia; apply small_int_exact; exact Hn).
  assert (Ht : n * 2 ^ ulp_exp < 2 ^ top binary64).
  { change (2 ^ top binary64) with (2 ^ 1024 * 2 ^ ulp_exp).
    assert (2 ^ 53 < 2 ^ 1024) by (apply Z.pow_lt_mono_r; lia). nia. }
  destruct (Z.leb_spec (2 ^ top binary64) (n * 2 ^ ulp_exp)); [lia | reflexivity].
Qed.

(** X18.  A run on aligned shapes either returns its report or raises
    [ZeroDivisionError]; it raises nothing else. *)
Theorem throughput_raises_only_division sdot perf_counter iterations V D raw query :
  0 < V -> Memory.well_shaped V D raw -> Z.of_nat (length query) = D ->
  0 <= iterations < 2 ^ 53 ->
  (exists r, run_throughput_on sdot perf_counter iterations raw query = Ok r) \/
  run_throughput_on sdot perf_counter iterations raw query
  = Raise (ZeroDivisionError "float division by zero").
Proof.
  intros HV W Hq Hit.
  rewrite (run_throughput_on_clock sdot perf_counter iterations V D raw query)
    by assumption.
  cbv zeta. unfold int_float_truediv. rewrite (float_of_int_small iterations Hit).
  cbn [bind].
  assert (Hdiv : forall x y, float_truediv x y = Ok (div x y) \/
                   float_truediv x y = Raise (ZeroDivisionError "float division by zero")).
  { intros x y. unfold float_truediv. destruct y as [[| p | p] | s |]; auto. }
  destruct (Hdiv (Fin (iterations * 2 ^ ulp_exp))
              (sub (perf_counter 1%nat) (perf_counter 0%nat))) as [-> | ->];
    cbn [bind]; [| right; reflexivity].
  destruct (Hdiv (Fin (iterations * 2 ^ ulp_exp))
              (sub (perf_counter 3%nat) (perf_counter 2%nat))) as [-> | ->];
    cbn [bind]; [| right; reflexivity].
  match goal with |- context [float_truediv ?x ?y] =>
    destruct (Hdiv x y) as [-> | ->] end; cbn [bind].
  - left. eexists. reflexivity.
  - right. reflexivity.
Qed.

Lemma throughput_raises_only_division_witness :
  (exists r, run_throughput_on sdot_sequential (fun _ => zero) 2
               [[one; one]; [zero; one]] [one; one] = Ok r) \/
  run_throughput_on sdot_sequential (fun _ => zero) 2
    [[one; one]; [zero; one]] [one; one]
  = Raise (ZeroDivisionError "float division by zero").
Proof.
  apply (throughput_raises_only_division sdot_sequential (fun _ => zero) 2 2 2).
  - lia.
  - split; [reflexivity | repeat constructor].
  - reflexivity.
  - lia.
Defined.

(** A finite result of a rounding is below the overflow threshold. *)
Lemma round_finite_bound fmt n d k :
  1 <= prec fmt -> 0 <= qmin fmt -> 0 < d ->
  round fmt n d = Fin k -> Z.abs k < 2 ^ top fmt.
Proof.
  intros Hp Hq Hd. unfold round.
  destruct (Z.leb_spec (2 ^ top fmt) (round_mag fmt (Z.abs n) d)); [discriminate |].
  intros [= <-].
  pose proof (round_mag_nonneg fmt Hp Hq d Hd (Z.abs n) ltac:(lia)) as Hr.
  set (r := round_mag fmt (Z.abs n) d) in *. clearbody r.
  set (T := 2 ^ top fmt) in *. clearbody T.
  destruct n; cbn [Z.sgn]; lia.
Qed.

Lemma sub_finite_bound x y k :
  sub x y = Fin k -> Z.abs k < 2 ^ top binary64.
Proof.
  unfold sub, add, neg.
  destruct x as [a | s |], y as [b | t |]; try discriminate.
  - apply round_finite_bound; [apply binary64_prec | apply binary64_qmin | lia].
  - destruct (Bool.eqb s (negb t)); discriminate.
Qed.

(** X19.  A timed loop that takes no measurable time, its two clock
    readings being equal, ends the run with [ZeroDivisionError] at the
    division by its duration. *)
Theorem zero_duration_raises sdot perf_counter iterations V D raw query t :
  0 < V -> Memory.well_shaped V D raw -> Z.of_nat (length query) = D ->
  0 <= iterations < 2 ^ 53 ->
  (perf_counter 0%nat = Fin t /\ perf_counter 1%nat = Fin t) \/
  (perf_counter 2%nat = Fin t /\ perf_counter 3%nat = Fin t) ->
  run_throughput_on sdot perf_counter iterations raw query
  = Raise (ZeroDivisionError "float division by zero").
Proof.
  intros HV W Hq Hit Hclock.
  rewrite (run_throughput_on_clock sdot perf_counter iterations V D raw query)
    by assumption.
  cbv zeta. unfold int_float_truediv. rewrite (float_of_int_small iterations Hit).
  cbn [bind].
  destruct Hclock as [[E0 E1] | [E2 E3]].
  - rewrite E0, E1, sub_self. reflexivity.
  - rewrite E2, E3, sub_self.
    destruct (float_truediv (Fin (iterations * 2 ^ ulp_exp))
                (sub (perf_counter 1%nat) (perf_counter 0%nat))) as [q | e] eqn:E;
      cbn [bind].
    + reflexivity.
    + unfold float_truediv in E.
      destruct (sub (perf_counter 1%nat) (perf_counter 0%nat)) as [[| p | p] | s |];
        try discriminate E.
      injection E as <-. reflexivity.
Qed.

Lemma zero_duration_raises_witness :
  run_throughput_on sdot_sequential (fun _ => one) 50
    [[one; one]; [zero; one]] [one; one]
  = Raise (ZeroDivisionError "float division by zero").
Proof.
  apply (zero_duration_raises sdot_sequential (fun _ => one) 50 2 2
           [[one; one]; [zero; one]] [one; one] (2 ^ ulp_exp)).
  - lia.
  - split; [reflexivity | repeat constructor].
  - reflexivity.
  - lia.
  - left. split; reflexivity.
Defined.

(** A quotient of positive finite floats. *)
Lemma div_pos a b :
  0 <= a -> 0 < b ->
  div (Fin a) (Fin b)
  = if 2 ^ top binary64 <=? round_mag binary64 (a * 2 ^ ulp_exp) b
    then Inf false else Fin (round_mag binary64 (a * 2 ^ ulp_exp) b).
Proof.
  intros Ha Hb. unfold div. destruct (Z.eqb_spec b 0); [lia |].
  replace (Z.sgn b) with 1 by lia. rewrite (Z.abs_eq b) by lia.
  rewrite Z.mul_1_r.
  assert (Hp : 0 < 2 ^ ulp_exp) by (apply Z.pow_pos_nonneg; unfold ulp_exp; lia).
  apply round_nonneg; [apply binary64_prec | apply binary64_qmin | nia | lia].
Qed.

(** X20.  When the second loop is not slower than the first (and the
    rate [ITERATIONS / duration_mut] is at most [2^1023]) the run
    returns its report, the rate of the second loop is not lower than
    the rate of the first and the factor of the last line is at least
    [1.0]. *)
Theorem faster_loop_more_users sdot perf_counter iterations V D raw query a b :
  0 < V -> Memory.well_shaped V D raw -> Z.of_nat (length query) = D ->
  0 < iterations < 2 ^ 53 ->
  sub (perf_counter 1%nat) (perf_counter 0%nat) = Fin a ->
  sub (perf_counter 3%nat) (perf_counter 2%nat) = Fin b ->
  0 < b <= a ->
  iterations * 2 ^ ulp_exp <= 2 ^ 1023 * b ->
  exists r,
    run_throughput_on sdot perf_counter iterations raw query = Ok r /\
    duration_std r = Fin a /\ duration_mut r = Fin b /\
    leb (qps_std r) (qps_mut r) = true /\
    leb one (more_users r) = true.
Proof.
  intros HV W Hq Hit Ea Eb Hab Hrate.
  pose proof (sub_finite_bound _ _ _ Ea) as Ha.
  assert (Hp : 0 < 2 ^ ulp_exp) by (apply Z.pow_pos_nonneg; unfold ulp_exp; lia).
  set (n := iterations * 2 ^ ulp_exp) in *.
  set (qs := round_mag binary64 (n * 2 ^ ulp_exp) a).
  set (qm := round_mag binary64 (n * 2 ^ ulp_exp) b).
  assert (Hn : 0 < n) by (unfold n; nia).
  assert (Hsm : qs <= qm).
  { apply round_mag_cross_mono; try apply binary64_prec; try apply binary64_qmin;
      try lia; nia. }
  assert (Hqm : qm <= 2 ^ 2097).
  { apply (round_mag_le_pow2 binary64 binary64_prec binary64_qmin b ltac:(lia)).
    - nia.
    - cbn [qmin binary64]. lia.
    - change (2 ^ 2097) with (2 ^ 1023 * 2 ^ ulp_exp). nia. }
  assert (Hqs : 1 <= qs).
  { change 1 with (2 ^ 0).
    apply (round_mag_ge_pow2 binary64 binary64_prec binary64_qmin a ltac:(lia)).
    - cbn [qmin binary64]. lia.
    - change (2 ^ 0) with 1. rewrite Z.mul_1_l.
      rewrite (Z.abs_eq a) in Ha by lia.
      change (2 ^ top binary64) with (2 ^ 1024 * 2 ^ ulp_exp) in Ha.
      assert (2 ^ 1024 <= 2 ^ ulp_exp) by (apply Z.pow_le_mono_r; unfold ulp_exp; lia).
      nia. }
  assert (Ht : 2 ^ 2097 < 2 ^ top binary64) by (apply Z.pow_lt_mono_r; cbn; lia).
  assert (Es : div (Fin n) (Fin a) = Fin qs).
  { rewrite div_pos by lia. fold qs.
    destruct (Z.leb_spec (2 ^ top binary64) qs); [lia | reflexivity]. }
  assert (Em : div (Fin n) (Fin b) = Fin qm).
  { rewrite div_pos by lia. fold qm.
    destruct (Z.leb_spec (2 ^ top binary64) qm); [lia | reflexivity]. }
  exists {| duration_std := Fin a; qps_std := Fin qs;
            duration_mut := Fin b; qps_mut := Fin qm;
            more_users := div (Fin qm) (Fin qs) |}.
  split; [| split; [reflexivity | split; [reflexivity | split]]].
  - rewrite (run_throughput_on_clock sdot perf_counter iterations V D raw query)
      by assumption.
    cbv zeta. unfold int_float_truediv.
    rewrite (float_of_int_small iterations) by lia. cbn [bind]. fold n.
    rewrite Ea, Eb.
    rewrite (float_truediv_nonzero (Fin n) a) by lia. cbn [bind].
    rewrite (float_truediv_nonzero (Fin n) b) by lia. cbn [bind].
    rewrite Es, Em.
    rewrite (float_truediv_nonzero (Fin qm) qs) by lia. cbn [bind].
    reflexivity.
  - cbn [qps_std qps_mut]. unfold leb. apply Z.leb_le. exact Hsm.
  - cbn [more_users]. apply div_ge_one; lia.
Qed.

Lemma faster_loop_more_users_witness :
  exists r,
    run_throughput_on sdot_sequential (fun i => of_int (Z.of_nat i)) 50
      [[one; one]; [zero; one]] [one; one] = Ok r /\
    duration_std r = Fin (2 ^ ulp_exp) /\ duration_mut r = Fin (2 ^ ulp_exp) /\
    leb (qps_std r) (qps_mut r) = true /\
    leb one (more_users r) = true.
Proof.
  apply (faster_loop_more_users sdot_sequential (fun i => of_int (Z.of_nat i)) 50
           2 2 [[one; one]; [zero; one]] [one; one] (2 ^ ulp_exp) (2 ^ ulp_exp)).
  - lia.
  - split; [reflexivity | repeat constructor].
  - reflexivity.
  - lia.
  - vm_compute. reflexivity.
  - vm_compute. reflexivity.
  - vm_compute. split; [reflexivity | discriminate].
  - vm_compute. discriminate.
Defined.

(** X21.  Rows of different lengths are refused by [np.array] with the
    "inhomogeneous shape" [ValueError]; the run ends there, before the
    clock is read. *)
Theorem ragged_rows_refused sdot perf_counter iterations raw query row1 row2 :
  In row1 raw -> In row2 raw -> length row1 <> length row2 ->
  np_array raw = Raise ValueError_inhomogeneous /\
  run_throughput_on sdot perf_counter iterations raw query
  = Raise ValueError_inhomogeneous.
Proof.
  intros H1 H2 Hne.
  assert (E : np_array raw = Raise ValueError_inhomogeneous).
  { unfold np_array. destruct raw as [| first rest]; [contradiction |].
    destruct (forallb (fun row => (length row =? length first)%nat) rest) eqn:Hall;
      [| reflexivity].
    exfalso. rewrite forallb_forall in Hall.
    assert (Hlen : forall row, In row (first :: rest) -> length row = length first).
    { intros row [<- | Hin]; [reflexivity |]. apply Nat.eqb_eq. apply Hall. exact Hin. }
    rewrite (Hlen row1 H1), (Hlen row2 H2) in Hne. contradiction. }
  split; [exact E |]. unfold run_throughput_on. rewrite E. reflexivity.
Qed.

Lemma ragged_rows_refused_witness :
  np_array [[one; one]; [zero]] = Raise ValueError_inhomogeneous /\
  run_throughput_on sdot_sequential (fun _ => zero) 50 [[one; one]; [zero]] [one; one]
  = Raise ValueError_inhomogeneous.
Proof.
  apply (ragged_rows_refused sdot_sequential (fun _ => zero) 50
           [[one; one]; [zero]] [one; one] [one; one] [zero]).
  - left. reflexivity.
  - right. left. reflexivity.
  - simpl. lia.
Defined.

End ThroughputReport.

(** ** The latency benchmark *)

Section BenchmarkReport.
Import Float Exn PyOps Numpy Benchmark.

Lemma of_int_40 : of_int 40 = Fin (40 * 2 ^ ulp_exp).
Proof. vm_compute. reflexivity. Qed.

Lemma mul_pos a b :
  0 <= a -> 0 <= b ->
  mul (Fin a) (Fin b)
  = if 2 ^ top binary64 <=? round_mag binary64 (a * b) (2 ^ ulp_exp)
    then Inf false else Fin (round_mag binary64 (a * b) (2 ^ ulp_exp)).
Proof.
  intros Ha Hb. unfold mul.
  assert (Hp : 0 < 2 ^ ulp_exp) by (apply Z.pow_pos_nonneg; unfold ulp_exp; lia).
  apply round_nonneg; [apply binary64_prec | apply binary64_qmin | nia | lia].
Qed.

(** The bar of the faster path is between 1 and 40 cells. *)
Lemma bar_width_bounds a b :
  0 < a -> 0 <= b <= a ->
  exists width, bar_width (Fin a) (Fin b) = inl width /\ 1 <= width <= 40.
Proof.
  intros Ha Hb.
  assert (Hp : 0 < 2 ^ ulp_exp) by (apply Z.pow_pos_nonneg; unfold ulp_exp; lia).
  unfold bar_width. rewrite (float_truediv_nonzero (Fin b) a) by lia.
  rewrite div_pos by lia.
  set (x := round_mag binary64 (b * 2 ^ ulp_exp) a).
  assert (Hx0 : 0 <= x).
  { apply (round_mag_nonneg binary64 binary64_prec binary64_qmin a Ha). nia. }
  assert (Hx1 : x <= 2 ^ ulp_exp).
  { apply (round_mag_le_pow2 binary64 binary64_prec binary64_qmin a Ha).
    - nia.
    - cbn [qmin binary64]. unfold ulp_exp. lia.
    - nia. }
  assert (Ht : 40 * 2 ^ ulp_exp < 2 ^ top binary64) by (vm_compute; reflexivity).
  destruct (Z.leb_spec (2 ^ top binary64) x); [lia |].
  rewrite of_int_40, mul_pos by lia.
  set (y := round_mag binary64 (x * (40 * 2 ^ ulp_exp)) (2 ^ ulp_exp)).
  assert (Hy0 : 0 <= y).
  { apply (round_mag_nonneg binary64 binary64_prec binary64_qmin _ Hp). nia. }
  assert (Hy1 : y <= 40 * 2 ^ ulp_exp).
  { rewrite <- (round_mag_exact_quot binary64 (40 * 2 ^ ulp_exp) (2 ^ ulp_exp)
                  binary64_prec binary64_qmin ltac:(lia) Hp
                  (small_int_exact 40 ltac:(lia))).
    apply (round_mag_mono binary64 binary64_prec binary64_qmin _ Hp). nia. }
  destruct (Z.leb_spec (2 ^ top binary64) y); [lia |].
  cbn [int_of_float].
  assert (Hq : 0 <= Z.quot y (2 ^ ulp_exp) <= 40).
  { rewrite Z.quot_div_nonneg by lia. split.
    - apply Z.div_pos; lia.
    - apply Z.div_le_upper_bound; lia. }
  eexists. split; [reflexivity |].
  destruct (Z.ltb_spec (Z.quot y (2 ^ ulp_exp)) 1); lia.
Qed.

(** A bar of at most 40 cells is built. *)
Lemma str_repeat_small mem n :
  0 <= n <= 40 -> str_repeat mem n = inl n.
Proof.
  intros Hn. unfold str_repeat.
  pose proof (holds_standard_bar mem) as H. apply Z.leb_le in H.
  assert (H63 : 40 < 2 ^ 63) by reflexivity.
  destruct (Z.ltb_spec n (- 2 ^ 63)); [lia |].
  destruct (Z.leb_spec (2 ^ 63) n); [lia |]. cbn [orb].
  destruct (Z.leb_spec n (longest_str mem)); [| lia].
  rewrite Z.max_r by lia. reflexivity.
Qed.

(** A count of [2^63] or more is refused. *)
Lemma str_repeat_overflow mem n :
  2 ^ 63 <= n ->
  str_repeat mem n
  = inr (Builtin
           (OverflowError "cannot fit 'int' into an index-sized integer")).
Proof.
  intros Hn. unfold str_repeat.
  destruct (Z.leb_spec (2 ^ 63) n); [| lia].
  rewrite orb_true_r. reflexivity.
Qed.

Section BenchmarkProperties.

Variable sdot : list float -> list float -> float.
Variable perf_counter : nat -> float.
Variable mem : memory.

(** On aligned shapes the run reaches the rendering of the table. *)
Lemma run_benchmark_on_clock V D raw query :
  0 < V -> Memory.well_shaped V D raw -> Z.of_nat (length query) = D ->
  run_benchmark_on sdot perf_counter mem raw query
  = render mem [Title; TargetLoad]
      (mul (sub (perf_counter 1%nat) (perf_counter 0%nat)) (of_int 1000))
      (mul (sub (perf_counter 3%nat) (perf_counter 2%nat)) (of_int 1000)).
Proof.
  intros HV W Hq.
  pose proof (np_array_well_shaped V D raw HV W) as Hbuf.
  assert (Hdot : np_dot sdot (Array2 (Z.to_nat D) (map (map to_single) raw)) query
                 = Ok (Array1 (map (fun row => sdot row query)
                                   (map (map to_single) raw)))).
  { unfold np_dot. destruct (Nat.eqb_spec (Z.to_nat D) (length query)); [reflexivity | lia]. }
  unfold run_benchmark_on, standard_path. rewrite Hbuf. cbn [bind].
  rewrite Hdot. reflexivity.
Qed.

End BenchmarkProperties.

(** X22.  When the direct path is not slower than the standard one, the
    benchmark prints the table and the conclusion; the bar of the direct
    path is between 1 and 40 cells, 40 being the standard bar, and the
    speedup is at least [1.0]. *)
Theorem benchmark_faster_path sdot perf_counter mem V D raw query a b :
  0 < V -> Memory.well_shaped V D raw -> Z.of_nat (length query) = D ->
  mul (sub (perf_counter 1%nat) (perf_counter 0%nat)) (of_int 1000) = Fin a ->
  mul (sub (perf_counter 3%nat) (perf_counter 2%nat)) (of_int 1000) = Fin b ->
  0 < b <= a ->
  exists width speedup,
    run_benchmark_on sdot perf_counter mem raw query
    = ([Title; TargetLoad; LatencyTable (Fin a) (Fin b) 40 width;
        Conclusion (Fin a) (Fin b) speedup], None) /\
    1 <= width <= 40 /\
    leb one speedup = true.
Proof.
  intros HV W Hq Ea Eb Hab.
  destruct (bar_width_bounds a b ltac:(lia) ltac:(lia)) as (width & Ew & Hw).
  exists width, (div (Fin a) (Fin b)).
  split; [| split; [exact Hw | apply div_ge_one; lia]].
  rewrite (run_benchmark_on_clock sdot perf_counter mem V D raw query)
    by assumption.
  rewrite Ea, Eb. unfold render.
  rewrite (str_repeat_small mem 40) by lia. rewrite Ew.
  rewrite (str_repeat_small mem width) by lia.
  rewrite (float_truediv_nonzero (Fin a) b) by lia. reflexivity.
Qed.

Lemma benchmark_faster_path_witness :
  exists width speedup,
    run_benchmark_on sdot_sequential (fun i => of_int (Z.of_nat i))
      modest_memory [[one; one]; [zero; one]] [one; one]
    = ([Title; TargetLoad;
        LatencyTable (Fin (1000 * 2 ^ ulp_exp)) (Fin (1000 * 2 ^ ulp_exp)) 40 width;
        Conclusion (Fin (1000 * 2 ^ ulp_exp)) (Fin (1000 * 2 ^ ulp_exp)) speedup],
       None) /\
    1 <= width <= 40 /\
    leb one speedup = true.
Proof.
  apply (benchmark_faster_path sdot_sequential (fun i => of_int (Z.of_nat i))
           modest_memory 2 2
           [[one; one]; [zero; one]] [one; one]
           (1000 * 2 ^ ulp_exp) (1000 * 2 ^ ulp_exp)).
  - lia.
  - split; [reflexivity | repeat constructor].
  - reflexivity.
  - vm_compute. reflexivity.
  - vm_compute. reflexivity.
  - vm_compute. split; [reflexivity | discriminate].
Defined.

Lemma div_zero_num a : a <> 0 -> div (Fin 0) (Fin a) = Fin 0.
Proof.
  intros Ha. unfold div. destruct (Z.eqb_spec a 0); [contradiction |].
  cbn [Z.mul].
  rewrite round_nonneg by (try apply binary64_prec; try apply binary64_qmin; lia).
  rewrite round_mag_zero by (try apply binary64_prec; try apply binary64_qmin; lia).
  assert (0 < 2 ^ top binary64) by (apply Z.pow_pos_nonneg; cbn; lia).
  destruct (Z.leb_spec (2 ^ top binary64) 0); [lia | reflexivity].
Qed.

Lemma bar_width_zero a : a <> 0 -> bar_width (Fin a) (Fin 0) = inl 1.
Proof.
  intros Ha. unfold bar_width.
  rewrite (float_truediv_nonzero (Fin 0) a) by exact Ha.
  rewrite div_zero_num by exact Ha. rewrite of_int_40.
  assert (Hp : 0 < 2 ^ ulp_exp) by (apply Z.pow_pos_nonneg; unfold ulp_exp; lia).
  rewrite mul_pos by lia. cbn [Z.mul].
  rewrite round_mag_zero by (try apply binary64_prec; try apply binary64_qmin; lia).
  assert (0 < 2 ^ top binary64) by (apply Z.pow_pos_nonneg; cbn; lia).
  destruct (Z.leb_spec (2 ^ top binary64) 0); [lia |].
  cbn [int_of_float]. rewrite Z.quot_0_l by lia. reflexivity.
Qed.

(** X23.  A duration of zero ends the benchmark with
    [ZeroDivisionError]: for the standard path before the table is
    printed; for the direct path after the table, in which its bar has
    one cell, and before the conclusion. *)
Theorem benchmark_zero_duration sdot perf_counter mem V D raw query :
  0 < V -> Memory.well_shaped V D raw -> Z.of_nat (length query) = D ->
  (mul (sub (perf_counter 1%nat) (perf_counter 0%nat)) (of_int 1000) = Fin 0 ->
   run_benchmark_on sdot perf_counter mem raw query
   = ([Title; TargetLoad],
      Some (Builtin (ZeroDivisionError "float division by zero")))) /\
  (forall a,
     a <> 0 ->
     mul (sub (perf_counter 1%nat) (perf_counter 0%nat)) (of_int 1000) = Fin a ->
     mul (sub (perf_counter 3%nat) (perf_counter 2%nat)) (of_int 1000) = Fin 0 ->
     run_benchmark_on sdot perf_counter mem raw query
     = ([Title; TargetLoad; LatencyTable (Fin a) (Fin 0) 40 1],
        Some (Builtin (ZeroDivisionError "float division by zero")))).
Proof.
  intros HV W Hq.
  rewrite (run_benchmark_on_clock sdot perf_counter mem V D raw query)
    by assumption.
  unfold render. rewrite (str_repeat_small mem 40) by lia. split.
  - intros ->. reflexivity.
  - intros a Ha -> ->. rewrite (bar_width_zero a Ha).
    rewrite (str_repeat_small mem 1) by lia. reflexivity.
Qed.

Lemma benchmark_zero_duration_witness :
  run_benchmark_on sdot_sequential (fun _ => one) modest_memory
    [[one; one]; [zero; one]] [one; one]
  = ([Title; TargetLoad],
     Some (Builtin (ZeroDivisionError "float division by zero"))) /\
  run_benchmark_on sdot_sequential
    (fun i => match i with 1%nat => one | _ => zero end) modest_memory
    [[one; one]; [zero; one]] [one; one]
  = ([Title; TargetLoad; LatencyTable (Fin (1000 * 2 ^ ulp_exp)) (Fin 0) 40 1],
     Some (Builtin (ZeroDivisionError "float division by zero"))).
Proof.
  split.
  - refine (proj1 (benchmark_zero_duration sdot_sequential (fun _ => one)
                     modest_memory 2 2
                     [[one; one]; [zero; one]] [one; one] _ _ _) _).
    + lia.
    + split; [reflexivity | repeat constructor].
    + reflexivity.
    + vm_compute. reflexivity.
  - refine (proj2 (benchmark_zero_duration sdot_sequential
                     (fun i => match i with 1%nat => one | _ => zero end)
                     modest_memory 2 2
                     [[one; one]; [zero; one]] [one; one] _ _ _)
                  (1000 * 2 ^ ulp_exp) _ _ _).
    + lia.
    + split; [reflexivity | repeat constructor].
    + reflexivity.
    + vm_compute. discriminate.
    + vm_compute. reflexivity.
    + vm_compute. reflexivity.
Defined.

(** X24.  The benchmark on its own data raises nothing from [numpy]: a
    run ends normally or with one of the errors of the rendering, which
    are the division by a zero duration, [int] of an infinite or NaN
    ratio, and a bar whose width does not fit a machine index or the
    memory of the host. *)
Theorem benchmark_raises_only_arithmetic sdot perf_counter mem random np_random :
  In (snd (run_benchmark sdot perf_counter mem random np_random))
     [ None;
       Some (Builtin (ZeroDivisionError "float division by zero"));
       Some (Builtin (OverflowError "cannot convert float infinity to integer"));
       Some (ValueError "cannot convert float NaN to integer");
       Some (Builtin
               (OverflowError "cannot fit 'int' into an index-sized integer"));
       Some MemoryError ].
Proof.
  unfold run_benchmark, generate_bloat.
  rewrite (run_benchmark_on_clock sdot perf_counter mem VECTOR_COUNT DIMENSIONS).
  - set (ds := mul (sub (perf_counter 1%nat) (perf_counter 0%nat)) (of_int 1000)).
    set (dm := mul (sub (perf_counter 3%nat) (perf_counter 2%nat)) (of_int 1000)).
    clearbody ds dm.
    assert (Hdiv : forall x y, float_truediv x y = Ok (div x y) \/
                     float_truediv x y = Raise (ZeroDivisionError "float division by zero")).
    { intros x y. unfold float_truediv. destruct y as [[| p | p] | s |]; auto. }
    assert (Hrep : forall n,
               (exists len, str_repeat mem n = inl len) \/
               str_repeat mem n
               = inr (Builtin
                        (OverflowError "cannot fit 'int' into an index-sized integer")) \/
               str_repeat mem n = inr MemoryError).
    { intros n. unfold str_repeat.
      destruct ((n <? - 2 ^ 63) || (2 ^ 63 <=? n)); [auto |].
      destruct (n <=? longest_str mem); eauto. }
    unfold render. rewrite (str_repeat_small mem 40) by lia.
    unfold bar_width.
    destruct (Hdiv dm ds) as [-> | ->]; [| cbn [snd In]; auto].
    destruct (mul (div dm ds) (of_int 40)) as [k | s |]; cbn [int_of_float];
      [| cbn [snd In]; auto | cbn [snd In]; auto 6].
    match goal with |- context [str_repeat mem ?w] =>
      destruct (Hrep w) as [[len ->] | [-> | ->]] end;
      [| cbn [snd In]; auto 8 | cbn [snd In]; auto 8].
    destruct (Hdiv ds dm) as [-> | ->]; cbn [snd In]; auto.
  - reflexivity.
  - apply generate_well_shaped; unfold VECTOR_COUNT, DIMENSIONS; lia.
  - apply length_random_float32. unfold DIMENSIONS. lia.
Qed.

(** X25.  When the direct path takes [2^62] times the time of the
    standard one or more, the bar of its row cannot be built: the run
    ends with [OverflowError] before the table is printed, at the
    repetition of the block character, whose count does not fit a
    machine index, or already at [int] when the ratio is infinite. *)
Theorem benchmark_bar_overflow sdot perf_counter mem V D raw query a b :
  0 < V -> Memory.well_shaped V D raw -> Z.of_nat (length query) = D ->
  mul (sub (perf_counter 1%nat) (perf_counter 0%nat)) (of_int 1000) = Fin a ->
  mul (sub (perf_counter 3%nat) (perf_counter 2%nat)) (of_int 1000) = Fin b ->
  0 < a -> 2 ^ 62 * a <= b ->
  run_benchmark_on sdot perf_counter mem raw query
  = ([Title; TargetLoad],
     Some (Builtin
             (OverflowError "cannot fit 'int' into an index-sized integer"))) \/
  run_benchmark_on sdot perf_counter mem raw query
  = ([Title; TargetLoad],
     Some (Builtin
             (OverflowError "cannot convert float infinity to integer"))).
Proof.
  intros HV W Hq Ea Eb Ha Hab.
  rewrite (run_benchmark_on_clock sdot perf_counter mem V D raw query)
    by assumption.
  rewrite Ea, Eb. unfold render. rewrite (str_repeat_small mem 40) by lia.
  assert (Hp : 0 < 2 ^ ulp_exp) by (apply Z.pow_pos_nonneg; unfold ulp_exp; lia).
  assert (H62 : 0 < 2 ^ 62) by reflexivity.
  unfold bar_width. rewrite (float_truediv_nonzero (Fin b) a) by lia.
  rewrite div_pos by nia.
  set (x := round_mag binary64 (b * 2 ^ ulp_exp) a).
  assert (Hx : 2 ^ 62 * 2 ^ ulp_exp <= x).
  { rewrite <- Z.pow_add_r by (unfold ulp_exp; lia).
    apply (round_mag_ge_pow2 binary64 binary64_prec binary64_qmin a Ha).
    - cbn [qmin binary64]. unfold ulp_exp. lia.
    - rewrite Z.pow_add_r by (unfold ulp_exp; lia). nia. }
  rewrite of_int_40.
  destruct (Z.leb_spec (2 ^ top binary64) x).
  - right. cbn [mul].
    destruct (Z.eqb_spec (40 * 2 ^ ulp_exp) 0); [lia |].
    destruct (Z.ltb_spec (40 * 2 ^ ulp_exp) 0); [lia |]. reflexivity.
  - rewrite mul_pos by lia.
    set (y := round_mag binary64 (x * (40 * 2 ^ ulp_exp)) (2 ^ ulp_exp)).
    destruct (Z.leb_spec (2 ^ top binary64) y); [right; reflexivity |].
    left. cbn [int_of_float].
    assert (Hy : 2 ^ 63 * 2 ^ ulp_exp <= y).
    { rewrite <- Z.pow_add_r by (unfold ulp_exp; lia).
      apply (round_mag_ge_pow2 binary64 binary64_prec binary64_qmin _ Hp).
      - cbn [qmin binary64]. unfold ulp_exp. lia.
      - rewrite Z.pow_add_r by (unfold ulp_exp; lia).
        change (2 ^ 63) with (2 * 2 ^ 62). nia. }
    assert (Hw : 2 ^ 63 <= Z.quot y (2 ^ ulp_exp)).
    { rewrite Z.quot_div_nonneg by lia.
      apply Z.div_le_lower_bound; lia. }
    assert (H63 : 0 < 2 ^ 63) by reflexivity.
    destruct (Z.ltb_spec (Z.quot y (2 ^ ulp_exp)) 1); [lia |].
    rewrite str_repeat_overflow by exact Hw. reflexivity.
Qed.

Lemma benchmark_bar_overflow_witness :
  run_benchmark_on sdot_sequential
    (fun i => match i with
              | 1%nat => Fin (2 ^ (ulp_exp - 900))
              | 3%nat => one
              | _ => zero
              end)
    modest_memory [[one; one]; [zero; one]] [one; one]
  = ([Title; TargetLoad],
     Some (Builtin
             (OverflowError "cannot fit 'int' into an index-sized integer"))) \/
  run_benchmark_on sdot_sequential
    (fun i => match i with
              | 1%nat => Fin (2 ^ (ulp_exp - 900))
              | 3%nat => one
              | _ => zero
              end)
    modest_memory [[one; one]; [zero; one]] [one; one]
  = ([Title; TargetLoad],
     Some (Builtin
             (OverflowError "cannot convert float infinity to integer"))).
Proof.
  apply (benchmark_bar_overflow sdot_sequential _ modest_memory 2 2
           [[one; one]; [zero; one]] [one; one]
           (1000 * 2 ^ (ulp_exp - 900)) (1000 * 2 ^ ulp_exp)).
  - lia.
  - split; [reflexivity | repeat constructor].
  - reflexivity.
  - vm_compute. reflexivity.
  - vm_compute. reflexivity.
  - vm_compute. reflexivity.
  - vm_compute. discriminate.
Defined.

End BenchmarkReport.
